(** * detect_picamera: a shallow embedding of the detect-and-publish pipeline

    Source: lite/examples/object_detection/raspberry_pi/detect_picamera.py

    The Python program reads camera frames, runs a TF Lite detection model,
    reduces the detections of a frame to one point, label and score and
    publishes them as a JSON message over MQTT.  This file embeds the
    functions of that program as Rocq functions and proves properties of
    them.

    Conventions of the embedding:
    - a Python exception is a value of [exn]; a computation that may raise
      has type [result A];
    - Python [str] is Rocq [string]; a character stands for the code point
      of the same number, so texts range over U+0000..U+00FF;
    - Python [float] (binary64) and NumPy [float32] values are [spec_float]
      values of the respective format, with the IEEE-754 operations of the
      Standard Library's [SpecFloat];
    - the label dictionary is a [gmap Z string];
    - what the program does to the outside world (files, MQTT, camera) is
      recorded as a trace of [event]s. *)

From Stdlib Require Import ZArith QArith Qpower Lqa Lia String Ascii.
From Stdlib Require Import Floats.SpecFloat.
From stdpp Require Import base option list gmap strings.

Local Open Scope string_scope.
Local Open Scope Z_scope.

(** ** Exceptions and the error monad *)

Inductive exn : Type :=
  | IOError
  | IndexError
  | KeyError
  | ValueError
  | OverflowError
  | ZeroDivisionError
  | SystemExit (status : Z).

Inductive result (A : Type) : Type :=
  | Ok (a : A)
  | Raise (e : exn).
Arguments Ok {A} a.
Arguments Raise {A} e.

#[global] Instance result_ret : MRet result := @Ok.
#[global] Instance result_bind : MBind result :=
  fun A B f m => match m with Ok a => f a | Raise e => Raise e end.

(** ** Text: the [str] methods and the regular expression of [load_labels] *)

Module Text.

Definition LF : string := String (ascii_of_nat 10) EmptyString.

(** [c] in the closed range of code points [lo..hi]. *)
Definition in_range (lo hi : N) (c : ascii) : bool :=
  let n := N_of_ascii c in (N.leb lo n && N.leb n hi)%bool.

(** [str.isspace] on one character, which is also the class [\s] of a
    [str] pattern: TAB..CR, FS..US, space, NEL and NBSP. *)
Definition isspace (c : ascii) : bool :=
  (in_range 9 13 c || in_range 28 32 c || in_range 133 133 c
   || in_range 160 160 c)%bool.

(** ASCII decimal digit, the characters [int] accepts. *)
Definition isdecimal (c : ascii) : bool := in_range 48 57 c.

(** [str.isdigit] on one character: the decimal digits and the
    superscripts U+00B2, U+00B3, U+00B9. *)
Definition isdigit_char (c : ascii) : bool :=
  (isdecimal c || in_range 178 179 c || in_range 185 185 c)%bool.

Fixpoint lstrip (s : string) : string :=
  match s with
  | EmptyString => EmptyString
  | String c s' => if isspace c then lstrip s' else s
  end.

Fixpoint rstrip (s : string) : string :=
  match s with
  | EmptyString => EmptyString
  | String c s' =>
      match rstrip s' with
      | EmptyString => if isspace c then EmptyString else String c EmptyString
      | r => String c r
      end
  end.

(** [s.strip()] *)
Definition strip (s : string) : string := rstrip (lstrip s).

Fixpoint forallb_str (p : ascii -> bool) (s : string) : bool :=
  match s with
  | EmptyString => true
  | String c s' => (p c && forallb_str p s')%bool
  end.

(** [s.isdigit()]: at least one character, all of them digits. *)
Definition isdigit (s : string) : bool :=
  match s with
  | EmptyString => false
  | _ => forallb_str isdigit_char s
  end.

Definition digit_value (c : ascii) : Z := Z.of_N (N_of_ascii c) - 48.

(** The number a run of decimal digits denotes. *)
Fixpoint decimal_value (acc : Z) (s : string) : Z :=
  match s with
  | EmptyString => acc
  | String c s' => decimal_value (10 * acc + digit_value c) s'
  end.

(** [int(s)] for the strings [load_labels] passes: a run of decimal
    digits gives their value, anything else is a ValueError. *)
Definition int (s : string) : result Z :=
  match s with
  | EmptyString => Raise ValueError
  | _ => if forallb_str isdecimal s then Ok (decimal_value 0 s)
         else Raise ValueError
  end.

Fixpoint span (p : ascii -> bool) (s : string) : string * string :=
  match s with
  | EmptyString => (EmptyString, EmptyString)
  | String c s' =>
      if p c then let '(a, b) := span p s' in (String c a, b)
      else (EmptyString, s)
  end.

Fixpoint replicate (n : nat) (c : ascii) : string :=
  match n with
  | O => EmptyString
  | S n' => String c (replicate n' c)
  end.

Definition digit_char (d : Z) : ascii := ascii_of_N (Z.to_N (48 + d)).

Fixpoint digits_from (fuel : nat) (n : Z) (acc : string) : string :=
  match fuel with
  | O => acc
  | S fuel' =>
      let acc' := String (digit_char (n mod 10)) acc in
      if n <? 10 then acc' else digits_from fuel' (n / 10) acc'
  end.

(** The decimal digits of a natural number, without leading zeros. *)
Definition digits (n : Z) : string :=
  digits_from (S (Z.to_nat (Z.log2 n))) n EmptyString.

Fixpoint rstrip_zeros (s : string) : string :=
  match s with
  | EmptyString => EmptyString
  | String c s' =>
      match rstrip_zeros s' with
      | EmptyString =>
          if Ascii.eqb c "0" then EmptyString else String c EmptyString
      | r => String c r
      end
  end.

(** The class [[:\s]] of the pattern. *)
Definition is_sep (c : ascii) : bool :=
  (Ascii.eqb c ":" || isspace c)%bool.

Fixpoint skip_seps (s : string) : string :=
  match s with
  | EmptyString => EmptyString
  | String c s' => if is_sep c then skip_seps s' else s
  end.

(** [re.split(r'[:\s]+', s, maxsplit=1)]: cut [s] at its leftmost
    maximal run of separator characters, if it has one. *)
Fixpoint re_split (s : string) : list string :=
  match s with
  | EmptyString => [EmptyString]
  | String c s' =>
      if is_sep c then [EmptyString; skip_seps s']
      else match re_split s' with
           | field :: rest => String c field :: rest
           | [] => []
           end
  end.

End Text.

(** ** Label table *)

(** The body of the loop of [load_labels]: the key and the name that the
    line [content] at [row_number] stores. *)
Definition load_labels_row (row_number : Z) (content : string)
  : result (Z * string) :=
  let pair := Text.re_split (Text.strip content) in
  match pair with
  | [p0; p1] =>
      if Text.isdigit (Text.strip p0)
      then k ← Text.int p0; Ok (k, Text.strip p1)
      else Ok (row_number, Text.strip p0)
  | p0 :: _ => Ok (row_number, Text.strip p0)
  | [] => Raise IndexError
  end.

Fixpoint load_labels_loop (row_number : Z) (lines : list string)
    (labels : gmap Z string) : result (gmap Z string) :=
  match lines with
  | [] => Ok labels
  | content :: lines' =>
      '(k, name) ← load_labels_row row_number content;
      load_labels_loop (row_number + 1) lines' (<[k := name]> labels)
  end.

(** [load_labels(path)]; the file system maps a path to the lines that
    [readlines] returns, or to nothing when the file cannot be opened. *)
Definition load_labels (fs : string -> option (list string)) (path : string)
  : result (gmap Z string) :=
  match fs path with
  | None => Raise IOError
  | Some lines => load_labels_loop 0 lines ∅
  end.

(** ** Floating-point numbers

    A value of either format is a [spec_float] in canonical form.  The
    tensors of the model hold binary32 numbers (NumPy [float32]); Python's
    own [float] is binary64. *)

Module Float.

Definition is_zero (x : spec_float) : bool :=
  match x with S754_zero _ => true | _ => false end.

Definition same (x y : spec_float) : bool :=
  match x, y with
  | S754_zero a, S754_zero b => Bool.eqb a b
  | S754_infinity a, S754_infinity b => Bool.eqb a b
  | S754_nan, S754_nan => true
  | S754_finite a m e, S754_finite b n f =>
      (Bool.eqb a b && Pos.eqb m n && Z.eqb e f)%bool
  | _, _ => false
  end.

(** The exact value of a binary32 number as a binary64 number, as
    [tolist()] and the promotion of a mixed comparison produce it. *)
Definition widen (x : spec_float) : spec_float :=
  match x with
  | S754_finite s m e => binary_round 53 1024 s m e
  | _ => x
  end.

(** [a / b] on Python floats. *)
Definition truediv (a b : spec_float) : result spec_float :=
  if is_zero b then Raise ZeroDivisionError else Ok (SFdiv 53 1024 a b).

(** [a >= b]; false when either side is a NaN. *)
Definition ge (a b : spec_float) : bool := SFleb b a.

(** The integer of a finite number truncated towards zero. *)
Definition trunc (s : bool) (m : positive) (e : Z) : Z :=
  cond_Zopp s (match e with
               | Zneg p => Z.shiftr (Zpos m) (Zpos p)
               | _ => Z.shiftl (Zpos m) e
               end).

(** [int(x)] *)
Definition to_int (x : spec_float) : result Z :=
  match x with
  | S754_zero _ => Ok 0
  | S754_infinity _ => Raise OverflowError
  | S754_nan => Raise ValueError
  | S754_finite s m e => Ok (trunc s m e)
  end.

(** The integer a number is equal to, if any: the key under which a
    dictionary with [int] keys finds it. *)
Definition as_integer (x : spec_float) : option Z :=
  match x with
  | S754_zero _ => Some 0
  | S754_finite s m e =>
      match e with
      | Zneg p =>
          if Z.eqb (Z.land (Zpos m) (Z.ones (Zpos p))) 0
          then Some (trunc s m e) else None
      | _ => Some (trunc s m e)
      end
  | _ => None
  end.

(** *** Decimal text of a number and back *)

Section Format.
(** The format, and the number of significant digits that always
    suffices to tell its numbers apart (17 and 9). *)
Variables (prec emax : Z) (max_digits : nat).

(** The number of the format nearest to [d * 10^k], ties to even. *)
Definition of_decimal (neg : bool) (d : positive) (k : Z) : spec_float :=
  match k with
  | Zneg p =>
      SFdiv prec emax (S754_finite neg d 0)
        (S754_finite false (10 ^ p)%positive 0)
  | Z0 => binary_round prec emax neg d 0
  | Zpos p => binary_round prec emax neg (d * 10 ^ p)%positive 0
  end.

(** A finite positive number [m * 2^e] as a fraction. *)
Definition fraction (m : positive) (e : Z) : positive * positive :=
  match e with
  | Zneg p => (m, (2 ^ p)%positive)
  | Z0 => (m, 1%positive)
  | Zpos p => ((m * 2 ^ p)%positive, 1%positive)
  end.

(** [num/den * 10^s] as a fraction. *)
Definition scale10 (num den : positive) (s : Z) : positive * positive :=
  match s with
  | Zneg a => (num, (den * 10 ^ a)%positive)
  | Z0 => (num, den)
  | Zpos a => ((num * 10 ^ a)%positive, den)
  end.

(** Least [p] with [num/den < 10^p]. *)
Fixpoint magnitude_below (fuel : nat) (num den : positive) (p : Z) : Z :=
  match fuel with
  | O => p
  | S fuel' =>
      if (den <=? num * 10)%positive then p
      else magnitude_below fuel' (num * 10)%positive den (p - 1)
  end.

Fixpoint magnitude_above (fuel : nat) (q : Z) (p : Z) : Z :=
  match fuel with
  | O => p
  | S fuel' =>
      if q <? 10 then p else magnitude_above fuel' (q / 10) (p + 1)
  end.

Definition magnitude (num den : positive) : Z :=
  if (den <=? num)%positive
  then magnitude_above (Z.to_nat (Z.log2 (Zpos num)) + 1)
         (Zpos num / Zpos den) 1
  else magnitude_below (Pos.to_nat (Pos.size den)) num den 0.

(** The decimal [d * 10^k] with [n] significant digits on either side
    of [num/den], nearest first. *)
Definition neighbours (num den : positive) (p : Z) (n : Z)
  : list (Z * Z) :=
  let '(a, b) := scale10 num den (n - p) in
  let lo := Zpos a / Zpos b in
  let r := Zpos a mod Zpos b in
  if 2 * r <=? Zpos b
  then [(lo, p - n); (lo + 1, p - n)]
  else [(lo + 1, p - n); (lo, p - n)].

Definition reads_as (x : spec_float) (c : Z * Z) : bool :=
  match fst c with
  | Zpos d => same (of_decimal false d (snd c)) x
  | _ => false
  end.

(** The shortest decimal that reads back as [x = m * 2^e]: try 1, 2,
    ... digits; among decimals of one length the nearest wins. *)
Fixpoint shortest_from (fuel : nat) (x : spec_float) (num den : positive)
    (p : Z) (n : Z) : Z * Z :=
  let cs := neighbours num den p n in
  match fuel with
  | O => hd (0, 0) cs
  | S fuel' =>
      match filter (fun c => Is_true (reads_as x c)) cs with
      | c :: _ => c
      | [] => shortest_from fuel' x num den p (n + 1)
      end
  end.

Definition shortest (m : positive) (e : Z) : Z * Z :=
  let '(num, den) := fraction m e in
  shortest_from (Nat.pred max_digits) (S754_finite false m e) num den
    (magnitude num den) 1.

(** The text of the decimal [0.ds * 10^decpt]: Python's [repr] layout,
    with an exponent below 1e-4 and from 1e16 on. *)
Definition layout (ds : string) (decpt : Z) : string :=
  let n := Z.of_nat (String.length ds) in
  if ((decpt <=? -4) || (16 <? decpt))%bool then
    let e := decpt - 1 in
    let et := Text.digits (Z.abs e) in
    match ds with
    | String c rest =>
        String c (match rest with
                  | EmptyString => EmptyString
                  | _ => "." +:+ rest
                  end)
        +:+ "e" +:+ (if e <? 0 then "-" else "+")
        +:+ (if Z.abs e <? 10 then "0" else EmptyString) +:+ et
    | EmptyString => EmptyString
    end
  else if decpt <=? 0 then
    "0." +:+ Text.replicate (Z.to_nat (- decpt)) "0" +:+ ds
  else if n <=? decpt then
    ds +:+ Text.replicate (Z.to_nat (decpt - n)) "0" +:+ ".0"
  else
    substring 0 (Z.to_nat decpt) ds +:+ "."
    +:+ substring (Z.to_nat decpt) (Z.to_nat (n - decpt)) ds.

Definition sign_text (s : bool) : string := if s then "-" else EmptyString.

(** The shortest text that reads back as the same number. *)
Definition repr (x : spec_float) : string :=
  match x with
  | S754_zero s => sign_text s +:+ "0.0"
  | S754_infinity s => sign_text s +:+ "inf"
  | S754_nan => "nan"
  | S754_finite s m e =>
      let '(d, k) := shortest m e in
      let ds := Text.digits d in
      sign_text s
      +:+ layout (Text.rstrip_zeros ds) (k + Z.of_nat (String.length ds))
  end.

(** A number literal: sign, integer digits, fraction digits,
    exponent. *)
Record literal : Type := Literal {
  lit_neg : bool;
  lit_int : string;
  lit_frac : option string;
  lit_exp : option Z
}.

(** The number of the format that a literal denotes, as [float(s)]
    computes it: the nearest one. *)
Definition of_literal (l : literal) : spec_float :=
  let frac := default EmptyString (lit_frac l) in
  let d := Text.decimal_value 0 (lit_int l +:+ frac) in
  let k := default 0 (lit_exp l) - Z.of_nat (String.length frac) in
  match d with
  | Zpos d' => of_decimal (lit_neg l) d' k
  | _ => S754_zero (lit_neg l)
  end.

End Format.

(** [repr(x)] of a Python float and [str(x)] of a NumPy float32. *)
Definition float_repr : spec_float -> string := repr 53 1024 17.
Definition float32_str : spec_float -> string := repr 24 128 9.

(** Decimal notation for the numbers of the two formats: [d * 10^k]. *)
Definition f64 (d : Z) (k : Z) : spec_float :=
  match d with
  | Z0 => S754_zero false
  | Zpos p => of_decimal 53 1024 false p k
  | Zneg p => of_decimal 53 1024 true p k
  end.
Definition f32 (d : Z) (k : Z) : spec_float :=
  match d with
  | Z0 => S754_zero false
  | Zpos p => of_decimal 24 128 false p k
  | Zneg p => of_decimal 24 128 true p k
  end.

End Float.

(** ** Tensors of the model *)

Definition CAMERA_WIDTH : Z := 640.
Definition CAMERA_HEIGHT : Z := 480.

(** One row of the boxes tensor, in the order of the tensor:
    [ymin, xmin, ymax, xmax]. *)
Record Box : Type := mkBox {
  ymin : spec_float;
  xmin : spec_float;
  ymax : spec_float;
  xmax : spec_float
}.

(** What the interpreter holds after [invoke()]: the four output tensors
    in the order of their slots, as [get_output_tensor] returns them
    (squeezed: a list of rows, two lists of numbers and one number; the
    model emits more than one candidate, so squeezing only removes the
    batch dimension).  All numbers are binary32. *)
Record Interpreter : Type := mkInterpreter {
  output_boxes : list Box;
  output_classes : list spec_float;
  output_scores : list spec_float;
  output_count : spec_float
}.

(** [a[i]] on a list or array. *)
Definition getitem {A : Type} (a : list A) (i : nat) : result A :=
  match a !! i with
  | Some x => Ok x
  | None => Raise IndexError
  end.

(** ** Detector *)

(** One entry of the list [detect_objects] returns: the dictionary with
    the keys 'bounding_box', 'class_id' and 'score'. *)
Record Detection : Type := mkDetection {
  bounding_box : Box;
  class_id : spec_float;
  score : spec_float
}.

(** The loop [for i in range(count)] of [detect_objects].  The score is
    a binary32 number and the threshold a Python float; the comparison
    is made on the binary64 value of the score (the promotion of NumPy
    1.x, where the two scalars meet in float64). *)
Fixpoint detect_objects_loop (interpreter : Interpreter)
    (threshold : spec_float) (range : list nat) (results : list Detection)
  : result (list Detection) :=
  match range with
  | [] => Ok results
  | i :: range' =>
      s ← getitem (output_scores interpreter) i;
      if Float.ge (Float.widen s) threshold then
        b ← getitem (output_boxes interpreter) i;
        c ← getitem (output_classes interpreter) i;
        s' ← getitem (output_scores interpreter) i;
        detect_objects_loop interpreter threshold range'
          (results ++ [mkDetection b c s'])
      else detect_objects_loop interpreter threshold range' results
  end.

(** [detect_objects(interpreter, image, threshold)], for the interpreter
    as it stands after the inference pass on [image]. *)
Definition detect_objects (interpreter : Interpreter) (threshold : spec_float)
  : result (list Detection) :=
  count ← Float.to_int (output_count interpreter);
  detect_objects_loop interpreter threshold (seq 0 (Z.to_nat count)) [].

(** ** Annotation overlay *)

(** [labels[key]] for a key that is a number of the classes tensor. *)
Definition labels_getitem (labels : gmap Z string) (key : spec_float)
  : result string :=
  match Float.as_integer key with
  | Some k => match labels !! k with
              | Some name => Ok name
              | None => Raise KeyError
              end
  | None => Raise KeyError
  end.

(** What is drawn: a rectangle, or the label and score of a detection at
    a position (the text ['%s\n%.2f'] of the two). *)
Inductive drawing : Type :=
  | DrawBox (x0 y0 x1 y1 : Z)
  | DrawText (x y : Z) (label : string) (score : spec_float).

(** [int(v * size)]: the product of a binary32 number and an integer,
    formed in binary64, where it is exact. *)
Definition to_pixels (v : spec_float) (size : Z) : result Z :=
  Float.to_int (SFmul 53 1024 (Float.widen v) (Float.f64 size 0)).

(** ** Reduction to one point, label and score *)

(** [boxes.tolist()]: the rows with their numbers as Python floats. *)
Definition tolist (boxes : list Box) : list Box :=
  map (fun b => mkBox (Float.widen (ymin b)) (Float.widen (xmin b))
                      (Float.widen (ymax b)) (Float.widen (xmax b))) boxes.

(** Each of the three loops returns in its first iteration; a loop over
    an empty list falls through and the function returns None. *)
Definition findPoints (coordinates : list Box)
  : result (option (list spec_float)) :=
  match coordinates with
  | [] => Ok None
  | coordinate :: _ =>
      x ← Float.truediv (xmin coordinate) (xmax coordinate);
      y ← Float.truediv (ymin coordinate) (ymax coordinate);
      Ok (Some [x; y])
  end.

Definition findLabels (results : list Detection) (labels : gmap Z string)
  : result (option string) :=
  match results with
  | [] => Ok None
  | result :: _ =>
      label ← labels_getitem labels (class_id result);
      Ok (Some label)
  end.

Definition findScore (results : list Detection) (labels : gmap Z string)
  : result (option spec_float) :=
  match results with
  | [] => Ok None
  | result :: _ => Ok (Some (score result))
  end.

(** ** JSON text: [json.dumps] and [json.loads] *)

Module Json.

#[warnings="-register-all"]
Inductive value : Type :=
  | Null
  | Bool (b : bool)
  | Int (n : Z)
  | Number (x : spec_float)
  | Str (s : string)
  | List (l : list value)
  | Dict (d : list (string * value)).

(** *** Encoder *)

Definition hex_digit (n : N) : ascii :=
  if (n <? 10)%N then ascii_of_N (48 + n) else ascii_of_N (87 + n).

Definition dquote : ascii := ascii_of_nat 34.
Definition backslash : ascii := ascii_of_nat 92.

(** The two-character escape: a backslash and [c]. *)
Definition short_escape (c : ascii) : string :=
  String backslash (String c EmptyString).

(** One character of a string literal, with [ensure_ascii] on: the
    short escapes, the character itself when printable ASCII, and a
    [\u] escape otherwise. *)
Definition escape_char (c : ascii) : string :=
  let n := N_of_ascii c in
  if Ascii.eqb c dquote then short_escape dquote
  else if Ascii.eqb c backslash then short_escape backslash
  else if (n =? 8)%N then short_escape "b"
  else if (n =? 12)%N then short_escape "f"
  else if (n =? 10)%N then short_escape "n"
  else if (n =? 13)%N then short_escape "r"
  else if (n =? 9)%N then short_escape "t"
  else if Text.in_range 32 126 c then String c EmptyString
  else String backslash
         (String "u" (String "0" (String "0"
            (String (hex_digit (n / 16))
               (String (hex_digit (n mod 16)) EmptyString))))).

Fixpoint escape (s : string) : string :=
  match s with
  | EmptyString => EmptyString
  | String c s' => escape_char c +:+ escape s'
  end.

Definition quote (s : string) : string :=
  String dquote (escape s +:+ String dquote EmptyString).

(** A float: [float.__repr__], and the three names JSON lacks. *)
Definition number_text (x : spec_float) : string :=
  match x with
  | S754_nan => "NaN"
  | S754_infinity false => "Infinity"
  | S754_infinity true => "-Infinity"
  | _ => Float.float_repr x
  end.

Definition int_text (n : Z) : string :=
  if n <? 0 then "-" +:+ Text.digits (- n) else Text.digits n.

Fixpoint join (sep : string) (l : list string) : string :=
  match l with
  | [] => EmptyString
  | [x] => x
  | x :: l' => x +:+ sep +:+ join sep l'
  end.

(** [json.dumps(v)] with its defaults: separators [", "] and [": "],
    no indentation, ASCII only. *)
Fixpoint dumps (v : value) : string :=
  match v with
  | Null => "null"
  | Bool b => if b then "true" else "false"
  | Int n => int_text n
  | Number x => number_text x
  | Str s => quote s
  | List l => "[" +:+ join ", " (List.map dumps l) +:+ "]"
  | Dict d =>
      "{" +:+ join ", "
                (List.map (fun kv => let '(k, v') := kv in
                                     quote k +:+ ": " +:+ dumps v') d)
      +:+ "}"
  end.

(** *** Decoder *)

Definition is_ws (c : ascii) : bool :=
  let n := N_of_ascii c in
  ((n =? 32) || (n =? 9) || (n =? 10) || (n =? 13))%N%bool.

Fixpoint skip_ws (s : string) : string :=
  match s with
  | EmptyString => EmptyString
  | String c s' => if is_ws c then skip_ws s' else s
  end.

Definition hex_value (c : ascii) : option N :=
  let n := N_of_ascii c in
  if Text.in_range 48 57 c then Some (n - 48)%N
  else if Text.in_range 97 102 c then Some (n - 87)%N
  else if Text.in_range 65 70 c then Some (n - 55)%N
  else None.

(** The character a short escape stands for. *)
Definition unescape (c : ascii) : option ascii :=
  if Ascii.eqb c dquote then Some dquote
  else if Ascii.eqb c backslash then Some backslash
  else if Ascii.eqb c "/" then Some "/"%char
  else if Ascii.eqb c "b" then Some (ascii_of_nat 8)
  else if Ascii.eqb c "f" then Some (ascii_of_nat 12)
  else if Ascii.eqb c "n" then Some (ascii_of_nat 10)
  else if Ascii.eqb c "r" then Some (ascii_of_nat 13)
  else if Ascii.eqb c "t" then Some (ascii_of_nat 9)
  else None.

(** The rest of a string literal after its opening quote: the text up
    to the closing quote, and what follows it.  A code point from
    U+0100 on has no character here, so its [\u] escape is not read. *)
Fixpoint scan_string (s : string) : option (string * string) :=
  match s with
  | EmptyString => None
  | String c r =>
      if Ascii.eqb c dquote then Some (EmptyString, r)
      else if Ascii.eqb c backslash then
        match r with
        | String e r1 =>
            if Ascii.eqb e "u" then
              match r1 with
              | String h1 (String h2 (String h3 (String h4 r2))) =>
                  a ← hex_value h1; b ← hex_value h2;
                  c' ← hex_value h3; d ← hex_value h4;
                  if ((a =? 0) && (b =? 0))%N%bool then
                    '(t, rest) ← scan_string r2;
                    Some (String (ascii_of_N (16 * c' + d)) t, rest)
                  else None
              | _ => None
              end
            else
              c' ← unescape e;
              '(t, rest) ← scan_string r1;
              Some (String c' t, rest)
        | EmptyString => None
        end
      else if (N_of_ascii c <? 32)%N then None
      else '(t, rest) ← scan_string r; Some (String c t, rest)
  end.

Definition is_number_char (c : ascii) : bool :=
  (Text.isdecimal c || Ascii.eqb c "-" || Ascii.eqb c "+"
   || Ascii.eqb c "." || Ascii.eqb c "e" || Ascii.eqb c "E")%bool.

Definition nonempty (s : string) : bool :=
  match s with EmptyString => false | _ => true end.

(** The integer part of a number: [0], or digits that start with a
    digit other than 0. *)
Definition is_int_part (s : string) : bool :=
  match s with
  | EmptyString => false
  | String c r =>
      (Text.isdecimal c
       && (negb (Ascii.eqb c "0") || negb (nonempty r)))%bool
  end.

Definition read_exponent (s : string) : option (option Z) :=
  match s with
  | EmptyString => Some None
  | String c r =>
      if (Ascii.eqb c "e" || Ascii.eqb c "E")%bool then
        let '(neg, r1) :=
          match r with
          | String g r' =>
              if Ascii.eqb g "-" then (true, r')
              else if Ascii.eqb g "+" then (false, r')
              else (false, r)
          | EmptyString => (false, r)
          end in
        if (nonempty r1 && Text.forallb_str Text.isdecimal r1)%bool
        then Some (Some (cond_Zopp neg (Text.decimal_value 0 r1)))
        else None
      else None
  end.

(** A token that is a number in full: an optional minus sign, the
    integer part, an optional fraction (a point and digits) and an
    optional exponent (e or E, an optional sign and digits). *)
Definition read_literal (tok : string) : option Float.literal :=
  let '(neg, s1) :=
    match tok with
    | String c r => if Ascii.eqb c "-" then (true, r) else (false, tok)
    | EmptyString => (false, tok)
    end in
  let '(ip, s2) := Text.span Text.isdecimal s1 in
  if is_int_part ip then
    match s2 with
    | String c r =>
        if Ascii.eqb c "." then
          let '(fp, s3) := Text.span Text.isdecimal r in
          if nonempty fp then
            e ← read_exponent s3; Some (Float.Literal neg ip (Some fp) e)
          else None
        else e ← read_exponent s2; Some (Float.Literal neg ip None e)
    | EmptyString => Some (Float.Literal neg ip None None)
    end
  else None.

(** An integer literal is an [int], one with a fraction or an exponent
    a [float]. *)
Definition number_of_token (tok : string) : option value :=
  l ← read_literal tok;
  match Float.lit_frac l, Float.lit_exp l with
  | None, None =>
      Some (Int (cond_Zopp (Float.lit_neg l)
                   (Text.decimal_value 0 (Float.lit_int l))))
  | _, _ => Some (Number (Float.of_literal 53 1024 l))
  end.

Fixpoint strip_prefix (p s : string) : option string :=
  match p, s with
  | EmptyString, _ => Some s
  | String a p', String b s' =>
      if Ascii.eqb a b then strip_prefix p' s' else None
  | _, _ => None
  end.

Definition parse_name (s : string) : option (value * string) :=
  match strip_prefix "null" s with Some r => Some (Null, r) | None =>
  match strip_prefix "true" s with Some r => Some (Bool true, r) | None =>
  match strip_prefix "false" s with Some r => Some (Bool false, r) | None =>
  match strip_prefix "NaN" s with Some r => Some (Number S754_nan, r) | None =>
  match strip_prefix "Infinity" s with
  | Some r => Some (Number (S754_infinity false), r) | None =>
  match strip_prefix "-Infinity" s with
  | Some r => Some (Number (S754_infinity true), r) | None => None
  end end end end end end.

(** A value that is neither a string, an array nor an object.  The
    number is the longest run of number characters; in a document, what
    follows a number is a delimiter, so a run that is no number in full
    makes the document unreadable. *)
Definition parse_atom (s : string) : option (value * string) :=
  let '(tok, rest) := Text.span is_number_char s in
  match number_of_token tok with
  | Some v => Some (v, rest)
  | None => parse_name s
  end.

(** [d[k] = v] on a dictionary kept in insertion order. *)
Fixpoint dict_set (d : list (string * value)) (k : string) (v : value)
  : list (string * value) :=
  match d with
  | [] => [(k, v)]
  | (k', v') :: d' =>
      if String.eqb k' k then (k', v) :: d' else (k', v') :: dict_set d' k v
  end.

Section Containers.
(** The reader of one value, for the items of a container. *)
Variable parse_item : string -> option (value * string).

(** The items of an array, from the first character of an item on. *)
Fixpoint parse_elements (fuel : nat) (s : string) (acc : list value)
  : option (value * string) :=
  match fuel with
  | O => None
  | S fuel' =>
      '(v, r) ← parse_item s;
      match skip_ws r with
      | String c r' =>
          if Ascii.eqb c "]" then Some (List (acc ++ [v]), r')
          else if Ascii.eqb c ","
               then parse_elements fuel' (skip_ws r') (acc ++ [v])
               else None
      | EmptyString => None
      end
  end.

(** The members of an object, from the opening quote of a key on. *)
Fixpoint parse_members (fuel : nat) (s : string)
    (acc : list (string * value)) : option (value * string) :=
  match fuel with
  | O => None
  | S fuel' =>
      match s with
      | String q r =>
          if Ascii.eqb q dquote then
            '(k, r1) ← scan_string r;
            match skip_ws r1 with
            | String c1 r2 =>
                if Ascii.eqb c1 ":" then
                  '(v, r3) ← parse_item (skip_ws r2);
                  match skip_ws r3 with
                  | String c3 r4 =>
                      if Ascii.eqb c3 "}"
                      then Some (Dict (dict_set acc k v), r4)
                      else if Ascii.eqb c3 ","
                           then parse_members fuel' (skip_ws r4)
                                  (dict_set acc k v)
                           else None
                  | EmptyString => None
                  end
                else None
            | EmptyString => None
            end
          else None
      | EmptyString => None
      end
  end.
End Containers.

Fixpoint parse_value (fuel : nat) (s : string) : option (value * string) :=
  match fuel with
  | O => None
  | S fuel' =>
      match s with
      | String c r =>
          if Ascii.eqb c dquote then
            '(t, rest) ← scan_string r; Some (Str t, rest)
          else if Ascii.eqb c "[" then
            match skip_ws r with
            | String c' rest =>
                if Ascii.eqb c' "]" then Some (List [], rest)
                else parse_elements (parse_value fuel') fuel' (skip_ws r) []
            | EmptyString => None
            end
          else if Ascii.eqb c "{" then
            match skip_ws r with
            | String c' rest =>
                if Ascii.eqb c' "}" then Some (Dict [], rest)
                else parse_members (parse_value fuel') fuel' (skip_ws r) []
            | EmptyString => None
            end
          else parse_atom s
      | EmptyString => None
      end
  end.

(** [json.loads(s)]: one value, with white space around it at most;
    [None] where Python raises. *)
Definition loads (s : string) : option value :=
  '(v, rest) ← parse_value (S (String.length s)) (skip_ws s);
  match skip_ws rest with
  | EmptyString => Some v
  | _ => None
  end.

End Json.

(** ** The program and its effects *)

(** What the program does to its surroundings, in the order it does it. *)
Inductive event : Type :=
  | ReadLabels (path : string)
  | LoadModel (path : string)
  | UsageError (message : string)
  | Print (text : string)
  | MqttClient (clientId : string)
  | MqttConfigureEndpoint (host : string) (port : option Z)
  | MqttConfigureCredentials (rootCA : string) (key cert : option string)
  | MqttConfigureQueueing (size : Z)
  | MqttConfigureDraining (hertz : Z)
  | MqttConfigureConnectTimeout (seconds : Z)
  | MqttConfigureOperationTimeout (seconds : Z)
  | MqttConnect
  | CameraOpen (width height framerate : Z)
  | AnnotatorClear
  | Draw (d : drawing)
  | DrawLatency
  | AnnotatorUpdate
  | PrettyPrint (post : Json.value)
  | MqttPublish (topic payload : string) (qos : Z)
  | Sleep (seconds : Z)
  | CameraStopPreview.

(** A run: the trace so far, and a value or the exception that ended it. *)
Definition prog (A : Type) : Type := (list event * result A)%type.

Definition ret {A : Type} (a : A) : prog A := ([], Ok a).

Definition bind {A B : Type} (m : prog A) (k : A -> prog B) : prog B :=
  match m with
  | (t, Ok a) => let '(t', r) := k a in ((t ++ t')%list, r)
  | (t, Raise e) => (t, Raise e)
  end.

Definition emit (e : event) : prog unit := ([e], Ok tt).
Definition lift {A : Type} (r : result A) : prog A := ([], r).

(** [try: body finally: handler] *)
Definition finally {A : Type} (body : prog A) (handler : prog unit) : prog A :=
  let '(t, r) := body in
  match handler with
  | (t', Ok _) => ((t ++ t')%list, r)
  | (t', Raise e) => ((t ++ t')%list, Raise e)
  end.

Declare Scope prog_scope.
Delimit Scope prog_scope with prog.
Notation "x <- m ;; k" := (bind m (fun x => k))
  (at level 100, m at next level, right associativity) : prog_scope.
Notation "m ;; k" := (bind m (fun _ => k))
  (at level 100, right associativity) : prog_scope.
Local Open Scope prog_scope.

(** The status the process ends with. *)
Definition exit_status {A : Type} (r : result A) : Z :=
  match r with
  | Ok _ => 0
  | Raise (SystemExit status) => status
  | Raise _ => 1
  end.

(** The command line after [parse_args]. *)
Record Args : Type := mkArgs {
  model : string;
  labels : string;
  threshold : spec_float;
  host : string;
  rootCAPath : string;
  certificatePath : option string;
  privateKeyPath : option string;
  port : option Z;
  useWebsocket : bool;
  clientId : string;
  topic : string;
  mode : string;
  message : string;
  dbMongo : string
}.

(** The surroundings of a run: the label files, the model files that
    load, whether the endpoint accepts the connection, and the state of
    the interpreter after the inference pass on each captured frame. *)
Record World : Type := mkWorld {
  files : string -> option (list string);
  loadable : string -> bool;
  reachable : bool;
  frames : list Interpreter
}.

(** Truth value of an optional string and of an optional integer:
    [None], the empty string and 0 are false. *)
Definition truthy_str (o : option string) : bool :=
  match o with
  | Some s => Json.nonempty s
  | None => false
  end.

Definition truthy_int (o : option Z) : bool :=
  match o with
  | Some n => negb (n =? 0)
  | None => false
  end.

Definition AllowedActions : list string := ["publish"].

(** [parser.error(message)]: usage and message on stderr, exit status 2. *)
Definition parser_error {A : Type} (message : string) : prog A :=
  ([UsageError message], Raise (SystemExit 2)).

(** [annotate_objects], as the calls it makes on the annotator. *)
Fixpoint annotate_objects (results : list Detection) (labels : gmap Z string)
  : prog unit :=
  match results with
  | [] => ret tt
  | obj :: results' =>
      let b := bounding_box obj in
      x0 <- lift (to_pixels (xmin b) CAMERA_WIDTH) ;;
      x1 <- lift (to_pixels (xmax b) CAMERA_WIDTH) ;;
      y0 <- lift (to_pixels (ymin b) CAMERA_HEIGHT) ;;
      y1 <- lift (to_pixels (ymax b) CAMERA_HEIGHT) ;;
      emit (Draw (DrawBox x0 y0 x1 y1)) ;;
      name <- lift (labels_getitem labels (class_id obj)) ;;
      emit (Draw (DrawText x0 y0 name (score obj))) ;;
      annotate_objects results' labels
  end.

(** [str(label)] and [str(score)]: the text of None, of a string and of
    a binary32 number. *)
Definition str_label (label : option string) : string :=
  match label with
  | Some s => s
  | None => "None"
  end.

Definition str_score (score : option spec_float) : string :=
  match score with
  | Some x => Float.float32_str x
  | None => "None"
  end.

(** The dictionary [post] of the loop of [main]. *)
Definition post (point : option (list spec_float)) (label : option string)
    (score : option spec_float) : Json.value :=
  Json.Dict
    [("Sensor Name", Json.Str "CameraPi");
     ("Score", Json.Str (str_score score));
     ("Coordinates", match point with
                     | Some p => Json.List (map Json.Number p)
                     | None => Json.Null
                     end);
     ("Class_ID", Json.Str (str_label label))].

(** The body of the loop of [main] over the captured frames. *)
Definition main_frame (labels : gmap Z string) (threshold : spec_float)
    (topic : string) (interpreter : Interpreter) : prog unit :=
  results <- lift (detect_objects interpreter threshold) ;;
  let boxes := output_boxes interpreter in
  emit AnnotatorClear ;;
  annotate_objects results labels ;;
  emit DrawLatency ;;
  emit AnnotatorUpdate ;;
  let coordinates := tolist boxes in
  point <- lift (findPoints coordinates) ;;
  label <- lift (findLabels results labels) ;;
  score <- lift (findScore results labels) ;;
  let post := post point label score in
  emit (PrettyPrint post) ;;
  let messageJSON := Json.dumps post in
  emit (MqttPublish topic messageJSON 1) ;;
  emit (Sleep 1).

Fixpoint main_loop (labels : gmap Z string) (threshold : spec_float)
    (topic : string) (frames : list Interpreter) : prog unit :=
  match frames with
  | [] => ret tt
  | interpreter :: frames' =>
      main_frame labels threshold topic interpreter ;;
      main_loop labels threshold topic frames'
  end.

(** [main], in the order of its text: the label table and the model
    are loaded first. *)
Definition main_startup (w : World) (args : Args) : prog (gmap Z string) :=
  emit (ReadLabels (labels args)) ;;
  labels <- lift (load_labels (files w) (labels args)) ;;
  emit (LoadModel (model args)) ;;
  (if loadable w (model args) then ret tt else lift (Raise ValueError)) ;;
  ret labels.

(** The check of the mode. *)
Definition main_check_mode (args : Args) : prog unit :=
  if negb (bool_decide (mode args ∈ AllowedActions))
  then parser_error ("Unknown --mode option " +:+ mode args
                     +:+ ". Must be one of ['publish']")
  else ret tt.

(** The two checks of the authentication mode. *)
Definition main_check_auth (args : Args) : prog unit :=
  (if (useWebsocket args && truthy_str (certificatePath args)
       && truthy_str (privateKeyPath args))%bool
   then parser_error
          "X.509 cert authentication and WebSocket are mutual exclusive. Please pick one."
   else ret tt) ;;
  (if (negb (useWebsocket args)
       && (negb (truthy_str (certificatePath args))
           || negb (truthy_str (privateKeyPath args))))%bool
   then parser_error "Missing credentials for authentication."
   else ret tt).

Definition main_validate (args : Args) : prog unit :=
  main_check_mode args ;;
  main_check_auth args.

(** The port defaults of [main]. *)
Definition main_port (args : Args) : option Z :=
  let p := port args in
  let p :=
    if (useWebsocket args && negb (truthy_int (port args)))%bool
    then Some 443 else p in
  let p :=
    if (negb (useWebsocket args) && negb (truthy_int (port args)))%bool
    then Some 8883 else p in
  p.

(** The connection to the endpoint. *)
Definition main_connect (w : World) (args : Args) : prog unit :=
  let port := main_port args in
  emit (MqttClient "rpi-camera") ;;
  emit (MqttConfigureEndpoint (host args) port) ;;
  emit (MqttConfigureCredentials (rootCAPath args) (privateKeyPath args)
          (certificatePath args)) ;;
  emit (MqttConfigureQueueing (-1)) ;;
  emit (MqttConfigureDraining 2) ;;
  emit (MqttConfigureConnectTimeout 10) ;;
  emit (MqttConfigureOperationTimeout 5) ;;
  emit (Print "Initiating Realtime Data Transfer From Raspberry Pi...") ;;
  emit MqttConnect ;;
  (if reachable w then ret tt else lift (Raise IOError)).

(** The camera and the loop over its frames. *)
Definition main_camera (w : World) (args : Args) (labels : gmap Z string)
  : prog unit :=
  emit (CameraOpen CAMERA_WIDTH CAMERA_HEIGHT 30) ;;
  finally (main_loop labels (threshold args) (topic args) (frames w))
          (emit CameraStopPreview).

Definition main (w : World) (args : Args) : prog unit :=
  labels <- main_startup w args ;;
  main_validate args ;;
  main_connect w args ;;
  main_camera w args labels.

(** The events that touch the network or the camera. *)
Definition opens_resource (e : event) : bool :=
  match e with
  | MqttClient _
  | MqttConfigureEndpoint _ _ | MqttConfigureCredentials _ _ _
  | MqttConfigureQueueing _ | MqttConfigureDraining _
  | MqttConfigureConnectTimeout _ | MqttConfigureOperationTimeout _
  | MqttConnect | MqttPublish _ _ _
  | CameraOpen _ _ _ | CameraStopPreview
  | AnnotatorClear | Draw _ | DrawLatency | AnnotatorUpdate => true
  | _ => false
  end.

(** The payloads published in a trace. *)
Definition published (t : list event) : list string :=
  omap (fun e => match e with
                 | MqttPublish _ payload _ => Some payload
                 | _ => None
                 end) t.

(** ** What the specification asks of the detector

    The entries of the model output, and those among the first [n] whose
    score reaches the threshold, in the order of the output. *)

Definition entries (interpreter : Interpreter) : list Detection :=
  zip_with (fun bc s => mkDetection (fst bc) (snd bc) s)
    (zip (output_boxes interpreter) (output_classes interpreter))
    (output_scores interpreter).

Definition clears (threshold : spec_float) (d : Detection) : Prop :=
  Float.ge (Float.widen (score d)) threshold = true.

#[global] Instance clears_dec threshold d : Decision (clears threshold d).
Proof. unfold clears. apply _. Defined.

Definition filtered_entries (interpreter : Interpreter)
    (threshold : spec_float) (n : nat) : list Detection :=
  filter (clears threshold) (take n (entries interpreter)).

(** The point reduction the specification defines on one box. *)
Definition reduce_point (b : Box) : list spec_float :=
  [SFdiv 53 1024 (xmin b) (xmax b); SFdiv 53 1024 (ymin b) (ymax b)].

(** ** Sample data *)

Module Sample.

(** A command line with certificate credentials and the defaults of the
    other options. *)
Definition args : Args :=
  mkArgs "detect.tflite" "coco_labels.txt" (Float.f64 4 (-1))
    "example.iot.amazonaws.com" "root-CA.crt"
    (Some "camera.cert.pem") (Some "camera.private.key") None false
    "sensorPub" "home" "publish" "Hello World!" "mongodb://localhost".

Definition with_mode (a : Args) (m : string) : Args :=
  mkArgs (model a) (labels a) (threshold a) (host a) (rootCAPath a)
    (certificatePath a) (privateKeyPath a) (port a) (useWebsocket a)
    (clientId a) (topic a) m (message a) (dbMongo a).

Definition with_port (a : Args) (p : option Z) : Args :=
  mkArgs (model a) (labels a) (threshold a) (host a) (rootCAPath a)
    (certificatePath a) (privateKeyPath a) p (useWebsocket a)
    (clientId a) (topic a) (mode a) (message a) (dbMongo a).

Definition with_auth (a : Args) (ws : bool) (cert key : option string)
  : Args :=
  mkArgs (model a) (labels a) (threshold a) (host a) (rootCAPath a)
    cert key (port a) ws
    (clientId a) (topic a) (mode a) (message a) (dbMongo a).

Definition label_lines : list string :=
  ["0  person" +:+ Text.LF; "1  cat" +:+ Text.LF].

(** A world with the label file and the model in place and no frame. *)
Definition world (frames : list Interpreter) : World :=
  mkWorld (fun path => if String.eqb path "coco_labels.txt"
                       then Some label_lines else None)
          (fun path => String.eqb path "detect.tflite")
          true frames.

(** The box (ymin=0.1, xmin=0.2, ymax=0.4, xmax=0.8) and a second one. *)
Definition box1 : Box :=
  mkBox (Float.f32 1 (-1)) (Float.f32 2 (-1))
        (Float.f32 4 (-1)) (Float.f32 8 (-1)).
Definition box2 : Box :=
  mkBox (Float.f32 2 (-1)) (Float.f32 3 (-1))
        (Float.f32 5 (-1)) (Float.f32 6 (-1)).
Definition box_zero : Box :=
  mkBox (S754_zero false) (S754_zero false)
        (S754_zero false) (S754_zero false).

Definition box3 : Box :=
  mkBox (Float.f32 0 0) (Float.f32 5 (-1)) (Float.f32 1 0) (Float.f32 1 0).

(** A model output of three entries with the scores 0.9, 0.3, 0.5. *)
Definition three : Interpreter :=
  mkInterpreter [box1; box2; box3]
    [Float.f32 0 0; Float.f32 1 0; Float.f32 0 0]
    [Float.f32 9 (-1); Float.f32 3 (-1); Float.f32 5 (-1)]
    (Float.f32 3 0).

(** Two entries of which only the second clears the threshold 0.4. *)
Definition mixed : Interpreter :=
  mkInterpreter [box1; box2] [Float.f32 0 0; Float.f32 1 0]
    [Float.f32 3 (-1); Float.f32 9 (-1)] (Float.f32 2 0).

(** Two entries of score 0.1 whose boxes are all zero. *)
Definition blank : Interpreter :=
  mkInterpreter [box_zero; box_zero] [Float.f32 0 0; Float.f32 0 0]
    [Float.f32 1 (-1); Float.f32 1 (-1)] (Float.f32 2 0).

(** Two entries of score 0.1 with proper boxes. *)
Definition faint : Interpreter :=
  mkInterpreter [box1; box2] [Float.f32 0 0; Float.f32 1 0]
    [Float.f32 1 (-1); Float.f32 1 (-1)] (Float.f32 2 0).

Definition table : gmap Z string := <[1 := "cat"]> (<[0 := "person"]> ∅).

End Sample.

(** ** What the specification asks of the encoder *)

(** The text of a number reads back as the number: what [float(repr(x))
    == x] says of a Python float. *)
Definition reads_back (x : spec_float) : Prop :=
  Json.parse_atom (Json.number_text x) = Some (Json.Number x, EmptyString).

(** A text without a line break. *)
Definition single_line (s : string) : bool :=
  Text.forallb_str (fun c => negb (Text.in_range 10 10 c || Text.in_range 13 13 c))
    s.

(** What may follow a number: the end of the text, or a character that
    no number contains. *)
Definition delimited (rest : string) : bool :=
  match rest with
  | EmptyString => true
  | String c _ => negb (Json.is_number_char c)
  end.

(** The first character of a field that follows a separator run. *)
Definition starts_field (s : string) : bool :=
  match s with
  | EmptyString => true
  | String c _ => negb (Text.is_sep c)
  end.

(** The configurations the checks of the authentication mode turn down:
    web socket with a certificate and a key, or no web socket and a
    certificate or key that is absent or empty. *)
Definition conflicting (args : Args) : Prop :=
  useWebsocket args = true
  /\ truthy_str (certificatePath args) = true
  /\ truthy_str (privateKeyPath args) = true.

Definition incomplete (args : Args) : Prop :=
  useWebsocket args = false
  /\ (truthy_str (certificatePath args) = false
      \/ truthy_str (privateKeyPath args) = false).

(** ** Label files *)

(** A character of ASCII, and a text of such characters. *)
Definition is_ascii (c : ascii) : bool := (N_of_ascii c <? 128)%N.

Definition ascii_text (s : string) : bool := Text.forallb_str is_ascii s.

(** A text without a colon and without white space. *)
Definition no_sep (s : string) : bool :=
  Text.forallb_str (fun c => negb (Text.is_sep c)) s.

(** ** Traces *)

(** The drawings of a trace, in order. *)
Definition drawn (t : list event) : list drawing :=
  omap (fun e => match e with Draw d => Some d | _ => None end) t.

(** A list cut into consecutive pairs. *)
Fixpoint pairs {A : Type} (l : list A) : list (A * A) :=
  match l with
  | a :: b :: rest => (a, b) :: pairs rest
  | _ => []
  end.

(** The box and the text [annotate_objects] draws for one detection. *)
Definition overlay (labels : gmap Z string) (d : Detection)
    (bt : drawing * drawing) : Prop :=
  exists x0 y0 x1 y1 name,
    bt = (DrawBox x0 y0 x1 y1, DrawText x0 y0 name (score d))
    /\ to_pixels (xmin (bounding_box d)) CAMERA_WIDTH = Ok x0
    /\ to_pixels (xmax (bounding_box d)) CAMERA_WIDTH = Ok x1
    /\ to_pixels (ymin (bounding_box d)) CAMERA_HEIGHT = Ok y0
    /\ to_pixels (ymax (bounding_box d)) CAMERA_HEIGHT = Ok y1
    /\ labels_getitem labels (class_id d) = Ok name.

(** A number that is a NaN or an infinity. *)
Definition not_finite (x : spec_float) : bool :=
  match x with
  | S754_nan | S754_infinity _ => true
  | _ => false
  end.

(** The topic and the QoS of the messages published in a trace. *)
Definition deliveries (t : list event) : list (string * Z) :=
  omap (fun e => match e with
                 | MqttPublish topic _ qos => Some (topic, qos)
                 | _ => None
                 end) t.

(** A frame that ends without an error. *)
Definition frame_ok (labels : gmap Z string) (threshold : spec_float)
    (topic : string) (interpreter : Interpreter) : bool :=
  match snd (main_frame labels threshold topic interpreter) with
  | Ok _ => true
  | Raise _ => false
  end.

(** The number of items at the front of a list that pass a test. *)
Fixpoint leading {A : Type} (p : A -> bool) (l : list A) : nat :=
  match l with
  | [] => O
  | x :: l' => if p x then S (leading p l') else O
  end.

(** The arguments the checks of [main] let through: the mode "publish",
    and web socket without the pair of a certificate and a key, or no web
    socket with both of them. *)
Definition accepted (args : Args) : bool :=
  (String.eqb (mode args) "publish"
   && (if useWebsocket args
       then negb (truthy_str (certificatePath args)
                  && truthy_str (privateKeyPath args))
       else truthy_str (certificatePath args)
            && truthy_str (privateKeyPath args)))%bool.

(** The events of the body of the loop over the frames. *)
Definition in_loop (e : event) : bool :=
  match e with
  | AnnotatorClear | Draw _ | DrawLatency | AnnotatorUpdate
  | PrettyPrint _ | MqttPublish _ _ _ | Sleep _ => true
  | _ => false
  end.


(** A text of printable ASCII characters only, space to tilde. *)
Definition printable (s : string) : bool :=
  Text.forallb_str (Text.in_range 32 126) s.

(** ** Rounding to the nearest number of a format

    What [binary_round] and [SFdiv] compute, said on rational numbers:
    the exponent of the format at a number, the nearest integer with
    ties to even, and the number of the format so obtained. *)

Module Round.

Definition pow2 (e : Z) : Q := (2 ^ e)%Q.
Definition pow10 (e : Z) : Q := (10 ^ e)%Q.

(** The value of the finite number with mantissa [m] and exponent [e]. *)
Definition value (m : positive) (e : Z) : Q :=
  (inject_Z (Zpos m) * pow2 e)%Q.

(** Where [t] lies between the integers [m] and [m + 1]. *)
Definition located (m : Z) (l : location) (t : Q) : Prop :=
  match l with
  | loc_Exact => (t == inject_Z m)%Q
  | loc_Inexact Lt => (inject_Z m < t /\ t < inject_Z m + (1 # 2))%Q
  | loc_Inexact Eq => (t == inject_Z m + (1 # 2))%Q
  | loc_Inexact Gt => (inject_Z m + (1 # 2) < t /\ t < inject_Z m + 1)%Q
  end.

(** [m] is the integer nearest to [t], the even one of two. *)
Definition nearest_even (t : Q) (m : Z) : Prop :=
  (inject_Z m - (1 # 2) <= t /\ t <= inject_Z m + (1 # 2))%Q
  /\ ((t == inject_Z m - (1 # 2) \/ t == inject_Z m + (1 # 2))%Q ->
      Z.even m = true).

(** [e] is the exponent of the numbers of the format around [q]. *)
Definition cexp (prec emax : Z) (q : Q) (e : Z) : Prop :=
  emin prec emax <= e
  /\ (q < pow2 (e + prec))%Q
  /\ (e = emin prec emax \/ (pow2 (e + prec - 1) <= q)%Q).

(** The number of the format with the integer mantissa [m], of at most
    [prec + 1] bits, at the exponent [e]. *)
Definition finish (prec emax : Z) (s : bool) (m e : Z) : spec_float :=
  let '(mrs, e') := shr_fexp prec emax m e loc_Exact in
  match shr_m mrs with
  | Z0 => S754_zero s
  | Zpos m' =>
      if e' <=? emax - prec then S754_finite s m' e' else S754_infinity s
  | Zneg _ => S754_nan
  end.

(** [r] is the number of the format nearest to [q >= 0], with the sign
    [s]. *)
Definition rounds (prec emax : Z) (s : bool) (q : Q) (r : spec_float)
  : Prop :=
  exists e m,
    cexp prec emax q e
    /\ nearest_even (q / pow2 e) m
    /\ r = finish prec emax s m e.

End Round.

(** * Properties *)

(** ** Geometry reduction *)

Lemma truediv_ok a b :
  Float.is_zero b = false -> Float.truediv a b = Ok (SFdiv 53 1024 a b).
Proof. unfold Float.truediv. intros ->. reflexivity. Qed.

Lemma truediv_zero a b :
  Float.is_zero b = true -> Float.truediv a b = Raise ZeroDivisionError.
Proof. unfold Float.truediv. intros ->. reflexivity. Qed.

Lemma findPoints_cons b rest :
  findPoints (b :: rest) =
    if (Float.is_zero (xmax b) || Float.is_zero (ymax b))%bool
    then Raise ZeroDivisionError
    else Ok (Some (reduce_point b)).
Proof.
  unfold findPoints, reduce_point, Float.truediv.
  destruct (Float.is_zero (xmax b)); simpl; [reflexivity |].
  destruct (Float.is_zero (ymax b)); reflexivity.
Qed.

(** C4. For a box whose xmax and ymax are not zero, [findPoints] returns
    exactly [x = xmin / xmax] and [y = ymin / ymax], the quotients of the
    relative coordinates of the box as they stand (nothing is scaled to
    pixels), whatever boxes follow it in the list. *)
Theorem findPoints_ratio (b : Box) (rest : list Box) :
  Float.is_zero (xmax b) = false ->
  Float.is_zero (ymax b) = false ->
  findPoints (b :: rest)
  = Ok (Some [SFdiv 53 1024 (xmin b) (xmax b);
              SFdiv 53 1024 (ymin b) (ymax b)]).
Proof.
  intros Hx Hy. rewrite findPoints_cons, Hx, Hy. reflexivity.
Qed.

(** The box (ymin=0.1, xmin=0.2, ymax=0.4, xmax=0.8) reduces to
    (0.25, 0.25), both as a row of binary32 numbers read through
    [tolist] and as a row of Python floats. *)
Lemma findPoints_ratio_example :
  findPoints (tolist [mkBox (Float.f32 1 (-1)) (Float.f32 2 (-1))
                            (Float.f32 4 (-1)) (Float.f32 8 (-1))])
  = Ok (Some [Float.f64 25 (-2); Float.f64 25 (-2)])
  /\ findPoints [mkBox (Float.f64 1 (-1)) (Float.f64 2 (-1))
                       (Float.f64 4 (-1)) (Float.f64 8 (-1))]
     = Ok (Some [Float.f64 25 (-2); Float.f64 25 (-2)]).
Proof.
  split.
  - etransitivity; [apply findPoints_ratio; reflexivity |].
    vm_compute. reflexivity.
  - etransitivity; [apply findPoints_ratio; reflexivity |].
    vm_compute. reflexivity.
Defined.

(** C7. On a non-empty list [findPoints] divides by zero exactly when
    xmax or ymax of the first box is zero: then it raises
    ZeroDivisionError, and otherwise both divisions are carried out and a
    point is returned. *)
Theorem findPoints_degenerate (b : Box) (rest : list Box) :
  (Float.is_zero (xmax b) = false /\ Float.is_zero (ymax b) = false
   <-> exists x y, findPoints (b :: rest) = Ok (Some [x; y])
                   /\ Float.truediv (xmin b) (xmax b) = Ok x
                   /\ Float.truediv (ymin b) (ymax b) = Ok y)
  /\ (Float.is_zero (xmax b) = true \/ Float.is_zero (ymax b) = true
      <-> findPoints (b :: rest) = Raise ZeroDivisionError)
  /\ (findPoints (b :: rest) = Raise ZeroDivisionError
      <-> Float.truediv (xmin b) (xmax b) = Raise ZeroDivisionError
          \/ Float.truediv (ymin b) (ymax b) = Raise ZeroDivisionError).
Proof.
  rewrite findPoints_cons. unfold Float.truediv.
  destruct (Float.is_zero (xmax b)), (Float.is_zero (ymax b)); simpl;
    (split; [| split]); split;
    first [ intros [? ?]; discriminate
          | intros (? & ? & ? & ? & ?); discriminate
          | intros [? | ?]; discriminate
          | intros ?; discriminate
          | intros _; eexists _, _; repeat split; reflexivity
          | intros _; split; reflexivity
          | intros _; reflexivity
          | intros _; left; reflexivity
          | intros _; right; reflexivity ].
Qed.

(** ** Runs of [main] *)

Lemma bind_ok {A B} (m : prog A) (k : A -> prog B) t a :
  m = (t, Ok a) -> bind m k = ((t ++ fst (k a))%list, snd (k a)).
Proof. intros ->. simpl. destruct (k a). reflexivity. Qed.

Lemma bind_raise {A B} (m : prog A) (k : A -> prog B) t e :
  m = (t, Raise e) -> bind m k = (t, Raise e).
Proof. intros ->. reflexivity. Qed.

(** The start of [main] ends in one of three ways. *)
Lemma main_startup_cases w args :
  (exists e, load_labels (files w) (labels args) = Raise e
             /\ main_startup w args = ([ReadLabels (labels args)], Raise e))
  \/ (exists table, load_labels (files w) (labels args) = Ok table
             /\ loadable w (model args) = false
             /\ main_startup w args
                = ([ReadLabels (labels args); LoadModel (model args)],
                   Raise ValueError))
  \/ (exists table, load_labels (files w) (labels args) = Ok table
             /\ loadable w (model args) = true
             /\ main_startup w args
                = ([ReadLabels (labels args); LoadModel (model args)],
                   Ok table)).
Proof.
  unfold main_startup, lift, emit, ret. simpl.
  destruct (load_labels (files w) (labels args)) as [table | e]; simpl.
  - destruct (loadable w (model args)); simpl.
    + right; right. exists table. auto.
    + right; left. exists table. auto.
  - left. exists e. auto.
Qed.

(** A run that validation ends goes no further than the start and the
    usage error. *)
Lemma main_rejected w args msg :
  main_validate args = ([UsageError msg], Raise (SystemExit 2)) ->
  forallb (fun e => negb (opens_resource e)) (fst (main w args)) = true
  /\ (forall table,
        load_labels (files w) (labels args) = Ok table ->
        loadable w (model args) = true ->
        main w args
        = ([ReadLabels (labels args); LoadModel (model args); UsageError msg],
           Raise (SystemExit 2))).
Proof.
  intros Hv. unfold main.
  destruct (main_startup_cases w args)
    as [(e & Hl & Hs) | [(t & Hl & Hm & Hs) | (t & Hl & Hm & Hs)]].
  - rewrite (bind_raise _ _ _ _ Hs). split; [reflexivity |].
    intros table Ht. congruence.
  - rewrite (bind_raise _ _ _ _ Hs). split; [reflexivity |].
    intros table _ Hm'. congruence.
  - rewrite (bind_ok _ _ _ _ Hs), (bind_raise _ _ _ _ Hv). simpl.
    split; [reflexivity |]. intros table _ _. reflexivity.
Qed.

Lemma main_check_mode_publish args :
  mode args = "publish" -> main_check_mode args = ret tt.
Proof.
  intros H. unfold main_check_mode. rewrite bool_decide_eq_true_2; [reflexivity |].
  rewrite H. unfold AllowedActions. apply list_elem_of_singleton. reflexivity.
Qed.

Lemma main_check_mode_other args :
  mode args <> "publish" ->
  main_check_mode args
  = parser_error ("Unknown --mode option " +:+ mode args
                  +:+ ". Must be one of ['publish']").
Proof.
  intros H. unfold main_check_mode. rewrite bool_decide_eq_false_2; [reflexivity |].
  unfold AllowedActions. rewrite list_elem_of_singleton. assumption.
Qed.

(** C10, as the code has it.  A mode other than "publish" is rejected by
    the check of the mode with a usage error and exit status 2, and the
    run of [main] then contains no event on the network or the camera.
    [main] loads the label file and the model before it looks at the
    mode: when both have loaded, the run consists of the two loads and the
    usage error and ends with status 2.  The mode "publish" passes the
    check. *)
Theorem mode_validation (w : World) (args : Args) :
  (mode args <> "publish" ->
   let msg := "Unknown --mode option " +:+ mode args
              +:+ ". Must be one of ['publish']" in
   main_check_mode args = ([UsageError msg], Raise (SystemExit 2))
   /\ forallb (fun e => negb (opens_resource e)) (fst (main w args)) = true
   /\ (forall table,
         load_labels (files w) (labels args) = Ok table ->
         loadable w (model args) = true ->
         main w args
         = ([ReadLabels (labels args); LoadModel (model args); UsageError msg],
            Raise (SystemExit 2))
         /\ exit_status (snd (main w args)) = 2))
  /\ (mode args = "publish" -> main_check_mode args = ([], Ok tt)).
Proof.
  split.
  - intros Hm msg.
    assert (Hc : main_check_mode args = ([UsageError msg], Raise (SystemExit 2)))
      by (rewrite main_check_mode_other by assumption; reflexivity).
    assert (Hv : main_validate args = ([UsageError msg], Raise (SystemExit 2)))
      by (unfold main_validate; rewrite (bind_raise _ _ _ _ Hc); reflexivity).
    destruct (main_rejected w args msg Hv) as [Hq Hr].
    split; [assumption |]. split; [assumption |].
    intros table Hl Hlo. rewrite (Hr table Hl Hlo). split; reflexivity.
  - apply main_check_mode_publish.
Qed.

(** With the mode "subscribe" the run is the two loads and the usage
    error, and its status is 2. *)
Lemma mode_validation_example :
  main (Sample.world []) (Sample.with_mode Sample.args "subscribe")
  = ([ReadLabels "coco_labels.txt"; LoadModel "detect.tflite";
      UsageError
        "Unknown --mode option subscribe. Must be one of ['publish']"],
     Raise (SystemExit 2))
  /\ main_check_mode Sample.args = ([], Ok tt).
Proof.
  pose proof (mode_validation (Sample.world [])
                (Sample.with_mode Sample.args "subscribe")) as [H _].
  pose proof (mode_validation (Sample.world []) Sample.args) as [_ H'].
  split.
  - destruct H as (_ & _ & H); [discriminate |].
    eapply H; vm_compute; reflexivity.
  - apply H'. reflexivity.
Defined.

(** C10 as stated fails when the label file is missing: with the mode
    "subscribe" the run ends at the first load with IOError and the exit
    status 1, and no usage error is reported. *)
Lemma mode_validation_missing_labels :
  let w := mkWorld (fun _ => None) (fun _ => true) true [] in
  let args := Sample.with_mode Sample.args "subscribe" in
  mode args <> "publish"
  /\ main w args = ([ReadLabels "coco_labels.txt"], Raise IOError)
  /\ exit_status (snd (main w args)) = 1
  /\ (forall msg, ~ In (UsageError msg) (fst (main w args))).
Proof.
  vm_compute. split; [discriminate |]. split; [reflexivity |].
  split; [reflexivity |]. intros msg [H | []]. discriminate.
Qed.

(** ** Authentication mode *)

Lemma main_check_auth_both args :
  useWebsocket args = true ->
  truthy_str (certificatePath args) = true ->
  truthy_str (privateKeyPath args) = true ->
  main_check_auth args
  = parser_error
      "X.509 cert authentication and WebSocket are mutual exclusive. Please pick one.".
Proof. unfold main_check_auth. intros -> -> ->. reflexivity. Qed.

Lemma main_check_auth_missing args :
  useWebsocket args = false ->
  truthy_str (certificatePath args) = false
  \/ truthy_str (privateKeyPath args) = false ->
  main_check_auth args = parser_error "Missing credentials for authentication.".
Proof.
  unfold main_check_auth. intros -> [-> | ->]; simpl; [reflexivity |].
  destruct (truthy_str (certificatePath args)); reflexivity.
Qed.

Lemma main_validate_rejects args :
  conflicting args \/ incomplete args ->
  exists msg, main_validate args = ([UsageError msg], Raise (SystemExit 2)).
Proof.
  intros H. unfold main_validate, main_check_mode.
  destruct (negb (bool_decide (mode args ∈ AllowedActions))).
  - eexists. reflexivity.
  - destruct H as [(Hw & Hc & Hk) | (Hw & Hck)].
    + rewrite (main_check_auth_both args Hw Hc Hk). eexists. reflexivity.
    + rewrite (main_check_auth_missing args Hw Hck). eexists. reflexivity.
Qed.

(** C5, as the code has it.  A path counts when it is given and not
    empty.  Web-socket mode with a certificate path and a key path that
    both count, and the other mode with a certificate or key path that
    does not count, are rejected by the checks of the authentication mode
    with a usage error and exit status 2; whatever the mode argument is,
    the run of [main] then has no event on the network or the camera, and
    once the label file and the model have loaded it ends with a usage
    error and status 2. *)
Theorem auth_validation (w : World) (args : Args) :
  conflicting args \/ incomplete args ->
  (exists msg, main_check_auth args = ([UsageError msg], Raise (SystemExit 2)))
  /\ forallb (fun e => negb (opens_resource e)) (fst (main w args)) = true
  /\ (forall table,
        load_labels (files w) (labels args) = Ok table ->
        loadable w (model args) = true ->
        exists msg,
          main w args
          = ([ReadLabels (labels args); LoadModel (model args);
              UsageError msg], Raise (SystemExit 2))
          /\ exit_status (snd (main w args)) = 2).
Proof.
  intros H. destruct (main_validate_rejects args H) as [msg Hv].
  destruct (main_rejected w args msg Hv) as [Hq Hr].
  split; [| split; [assumption |]].
  - destruct H as [(Hw & Hc & Hk) | (Hw & Hck)].
    + rewrite (main_check_auth_both args Hw Hc Hk). eexists. reflexivity.
    + rewrite (main_check_auth_missing args Hw Hck). eexists. reflexivity.
  - intros table Hl Hlo. exists msg. rewrite (Hr table Hl Hlo).
    split; reflexivity.
Qed.

(** Both rejections on the sample command line. *)
Lemma auth_validation_example :
  (exists msg,
     main (Sample.world [])
       (Sample.with_auth Sample.args true (Some "c.pem") (Some "k.key"))
     = ([ReadLabels "coco_labels.txt"; LoadModel "detect.tflite";
         UsageError msg], Raise (SystemExit 2)))
  /\ (exists msg,
        main (Sample.world []) (Sample.with_auth Sample.args false None None)
        = ([ReadLabels "coco_labels.txt"; LoadModel "detect.tflite";
            UsageError msg], Raise (SystemExit 2))).
Proof.
  split.
  - destruct (auth_validation (Sample.world [])
                (Sample.with_auth Sample.args true (Some "c.pem")
                   (Some "k.key"))) as (_ & _ & H).
    + left. repeat split; reflexivity.
    + destruct (H (<[1 := "cat"]> (<[0 := "person"]> ∅))) as (msg & Hm & _);
        [vm_compute; reflexivity | reflexivity |].
      exists msg. exact Hm.
  - destruct (auth_validation (Sample.world [])
                (Sample.with_auth Sample.args false None None))
      as (_ & _ & H).
    + right. split; [reflexivity | left; reflexivity].
    + destruct (H (<[1 := "cat"]> (<[0 := "person"]> ∅))) as (msg & Hm & _);
        [vm_compute; reflexivity | reflexivity |].
      exists msg. exact Hm.
Defined.

(** C5 as stated fails for an empty path: web-socket mode with the
    certificate path given as the empty string and a key path given is not
    rejected; validation passes and [main] goes on to connect. *)
Lemma auth_validation_empty_path :
  let args := Sample.with_auth Sample.args true (Some EmptyString)
                (Some "camera.private.key") in
  useWebsocket args = true
  /\ is_Some (certificatePath args) /\ is_Some (privateKeyPath args)
  /\ main_validate args = ([], Ok tt)
  /\ In MqttConnect (fst (main (Sample.world []) args))
  /\ snd (main (Sample.world []) args) = Ok tt.
Proof.
  vm_compute. repeat split; eauto 15.
Qed.

(** ** Port defaults *)

(** C8, as the code has it.  Without a port on the command line the port
    is 443 in web-socket mode and 8883 otherwise; a port other than 0 is
    kept as it is in either mode; the port 0 counts as no port.  The port
    so chosen is the one [main] configures the endpoint with. *)
Theorem port_defaults (w : World) (args : Args) :
  let default := if useWebsocket args then 443 else 8883 in
  (port args = None -> main_port args = Some default)
  /\ (forall p, port args = Some p -> p <> 0 -> main_port args = Some p)
  /\ (port args = Some 0 -> main_port args = Some default)
  /\ (forall table,
        main_startup w args
        = ([ReadLabels (labels args); LoadModel (model args)], Ok table) ->
        main_validate args = ([], Ok tt) ->
        In (MqttConfigureEndpoint (host args) (main_port args))
           (fst (main w args))).
Proof.
  unfold main_port, truthy_int. repeat split.
  - intros ->. destruct (useWebsocket args); reflexivity.
  - intros p -> Hp. apply Z.eqb_neq in Hp. rewrite Hp.
    destruct (useWebsocket args); reflexivity.
  - intros ->. destruct (useWebsocket args); reflexivity.
  - intros table Hs Hv. unfold main.
    rewrite (bind_ok _ _ _ _ Hs), (bind_ok _ _ _ _ Hv).
    unfold main_connect at 1. cbn -[main_port main_camera].
    destruct (reachable w); cbn -[main_port main_camera].
    + destruct (main_camera w args table). simpl. auto.
    + auto.
Qed.

Lemma port_defaults_example :
  main_port (Sample.with_auth Sample.args true None None) = Some 443
  /\ main_port Sample.args = Some 8883
  /\ main_port (Sample.with_port Sample.args (Some 1883)) = Some 1883
  /\ In (MqttConfigureEndpoint "example.iot.amazonaws.com" (Some 8883))
        (fst (main (Sample.world []) Sample.args)).
Proof.
  pose proof (port_defaults (Sample.world [])
                (Sample.with_auth Sample.args true None None)) as (H1 & _).
  pose proof (port_defaults (Sample.world []) Sample.args) as (H2 & _ & _ & H4).
  pose proof (port_defaults (Sample.world [])
                (Sample.with_port Sample.args (Some 1883))) as (_ & H3 & _).
  split; [apply H1; reflexivity |].
  split; [apply H2; reflexivity |].
  split; [apply (H3 1883); [reflexivity | discriminate] |].
  apply (H4 (<[1 := "cat"]> (<[0 := "person"]> ∅))); vm_compute; reflexivity.
Defined.

(** C8 as stated fails for the port 0: given on the command line, it is
    not used; the default of the mode replaces it. *)
Lemma port_zero_replaced :
  let args := Sample.with_port Sample.args (Some 0) in
  port args = Some 0
  /\ main_port args = Some 8883
  /\ In (MqttConfigureEndpoint "example.iot.amazonaws.com" (Some 8883))
        (fst (main (Sample.world []) args))
  /\ ~ In (MqttConfigureEndpoint "example.iot.amazonaws.com" (Some 0))
          (fst (main (Sample.world []) args)).
Proof.
  vm_compute. repeat split; auto 15.
  intros H. repeat (destruct H as [H | H]; [discriminate |]). exact H.
Qed.

(** ** Detection filtering *)

Lemma getitem_lookup {A} (a : list A) i x : a !! i = Some x -> getitem a i = Ok x.
Proof. unfold getitem. intros ->. reflexivity. Qed.

Lemma detect_objects_loop_app it th r1 r2 acc :
  detect_objects_loop it th (r1 ++ r2) acc
  = acc' ← detect_objects_loop it th r1 acc; detect_objects_loop it th r2 acc'.
Proof.
  revert acc. induction r1 as [| i r1 IH]; intros acc; simpl; [reflexivity |].
  destruct (getitem (output_scores it) i) as [s |]; simpl; [| reflexivity].
  destruct (Float.ge (Float.widen s) th); [| apply IH].
  destruct (getitem (output_boxes it) i) as [b |]; simpl; [| reflexivity].
  destruct (getitem (output_classes it) i) as [c |]; simpl; [| reflexivity].
  apply IH.
Qed.

Lemma entries_lookup it i b c s :
  output_boxes it !! i = Some b ->
  output_classes it !! i = Some c ->
  output_scores it !! i = Some s ->
  entries it !! i = Some (mkDetection b c s).
Proof.
  intros Hb Hc Hs. unfold entries.
  rewrite !lookup_zip_with, Hb, Hc, Hs. reflexivity.
Qed.

(** The loop over [range(n)] collects the entries below [n] that clear
    the threshold, in order. *)
Lemma detect_objects_loop_seq it th n :
  (n <= length (output_boxes it))%nat ->
  (n <= length (output_classes it))%nat ->
  (n <= length (output_scores it))%nat ->
  detect_objects_loop it th (seq 0 n) [] = Ok (filtered_entries it th n).
Proof.
  induction n as [| n IH]; intros Hb Hc Hs; [reflexivity |].
  rewrite seq_S, detect_objects_loop_app, IH by lia. simpl.
  destruct (lookup_lt_is_Some_2 (output_boxes it) n) as [b Eb]; [lia |].
  destruct (lookup_lt_is_Some_2 (output_classes it) n) as [c Ec]; [lia |].
  destruct (lookup_lt_is_Some_2 (output_scores it) n) as [s Es]; [lia |].
  unfold filtered_entries.
  rewrite (take_S_r _ _ _ (entries_lookup it n b c s Eb Ec Es)), filter_app.
  rewrite (getitem_lookup _ _ _ Es). simpl.
  rewrite filter_singleton by exact [].
  unfold decide, clears_dec, clears. simpl.
  destruct (Float.ge (Float.widen s) th) eqn:Hge.
  - rewrite (getitem_lookup _ _ _ Eb), (getitem_lookup _ _ _ Ec). simpl.
    destruct (bool_eq_dec true true); [reflexivity | congruence].
  - destruct (bool_eq_dec false true); [discriminate |].
    rewrite app_nil_r. reflexivity.
Qed.

Lemma filter_none {A} (P : A -> Prop) `{forall x, Decision (P x)} (l : list A) :
  Forall (fun x => ~ P x) l -> filter P l = [].
Proof.
  induction 1 as [| x l Hx _ IH]; [reflexivity |].
  rewrite filter_cons_False by assumption. exact IH.
Qed.

(** C2. When the count tensor holds the integer [n] and each of the
    other three tensors has at least [n] entries, [detect_objects]
    returns the records of the entries among the first [n] whose score is
    at least the threshold, in the order of the model output, each with
    the box, class and score of its entry; it returns the empty list, and
    raises nothing, when no score among the first [n] reaches the
    threshold. *)
Theorem detect_objects_filters (it : Interpreter) (th : spec_float) (n : Z) :
  Float.to_int (output_count it) = Ok n ->
  (Z.to_nat n <= length (output_boxes it))%nat ->
  (Z.to_nat n <= length (output_classes it))%nat ->
  (Z.to_nat n <= length (output_scores it))%nat ->
  detect_objects it th = Ok (filtered_entries it th (Z.to_nat n))
  /\ (forall d, d ∈ filtered_entries it th (Z.to_nat n) <->
        clears th d /\ exists i, (i < Z.to_nat n)%nat
                                 /\ output_boxes it !! i = Some (bounding_box d)
                                 /\ output_classes it !! i = Some (class_id d)
                                 /\ output_scores it !! i = Some (score d))
  /\ (Forall (fun d => ~ clears th d) (take (Z.to_nat n) (entries it)) ->
      detect_objects it th = Ok []).
Proof.
  intros Hn Hb Hc Hs.
  assert (Hd : detect_objects it th = Ok (filtered_entries it th (Z.to_nat n))).
  { unfold detect_objects. rewrite Hn. simpl.
    apply detect_objects_loop_seq; assumption. }
  split; [exact Hd |]. split.
  - intros d. unfold filtered_entries.
    rewrite list_elem_of_filter, list_elem_of_lookup.
    split.
    + intros [Hcl [i Hi]]. split; [exact Hcl |].
      apply lookup_take_Some in Hi as [Hi Hlt].
      unfold entries in Hi.
      apply lookup_zip_with_Some in Hi as (bc & s & -> & Hbc & Hsc).
      apply lookup_zip_with_Some in Hbc as (b & c & -> & Hb' & Hc').
      exists i. simpl. auto.
    + intros [Hcl (i & Hlt & Hb' & Hc' & Hs')]. split; [exact Hcl |].
      exists i. rewrite lookup_take_lt by exact Hlt.  
      destruct d as [b c s]. simpl in *.
      apply entries_lookup; assumption.
  - intros Hnone. rewrite Hd. unfold filtered_entries.
    rewrite filter_none by exact Hnone. reflexivity.
Qed.

(** With the scores 0.9, 0.3, 0.5 and the threshold 0.4 the result is the
    entries at the indices 0 and 2, in that order; with the threshold
    0.95 it is empty. *)
Lemma detect_objects_filters_example :
  detect_objects Sample.three (Float.f64 4 (-1))
  = Ok [mkDetection Sample.box1 (Float.f32 0 0) (Float.f32 9 (-1));
        mkDetection Sample.box3 (Float.f32 0 0) (Float.f32 5 (-1))]
  /\ detect_objects Sample.three (Float.f64 95 (-2)) = Ok [].
Proof.
  destruct (detect_objects_filters Sample.three (Float.f64 4 (-1)) 3)
    as (H & _); [reflexivity | simpl; lia | simpl; lia | simpl; lia |].
  destruct (detect_objects_filters Sample.three (Float.f64 95 (-2)) 3)
    as (_ & _ & H'); [reflexivity | simpl; lia | simpl; lia | simpl; lia |].
  split.
  - rewrite H. vm_compute. reflexivity.
  - apply H'. vm_compute. repeat constructor; discriminate.
Defined.

(** ** Label parsing *)

Lemma append_assoc (a b c : string) : (a +:+ b) +:+ c = a +:+ b +:+ c.
Proof.
  induction a as [| x a IH]; [reflexivity |].
  change (String x ((a +:+ b) +:+ c) = String x (a +:+ b +:+ c)).
  rewrite IH. reflexivity.
Qed.

Lemma rstrip_idem s : Text.rstrip (Text.rstrip s) = Text.rstrip s.
Proof.
  induction s as [| c s IH]; [reflexivity |]. simpl.
  destruct (Text.rstrip s) as [| d r] eqn:E.
  - destruct (Text.isspace c) eqn:Hc; simpl; [reflexivity |].
    rewrite Hc. reflexivity.
  - simpl in IH |- *. rewrite IH. reflexivity.
Qed.

Lemma rstrip_suffix a b :
  Text.rstrip (a +:+ b) = a +:+ b -> Text.rstrip b = b.
Proof.
  induction a as [| c a IH]; simpl; [auto |].
  destruct (Text.rstrip (a +:+ b)) as [| d r] eqn:E.
  - destruct (Text.isspace c); intros H; [discriminate |].
    injection H as H. apply IH. exact H.
  - intros H. injection H as H. apply IH. exact H.
Qed.

Lemma lstrip_head c s :
  Text.isspace c = false -> Text.lstrip (String c s) = String c s.
Proof. simpl. intros ->. reflexivity. Qed.

Lemma rstrip_head c s :
  Text.isspace c = false ->
  exists r, Text.rstrip (String c s) = String c r.
Proof.
  intros Hc. simpl. destruct (Text.rstrip s); [rewrite Hc |]; eauto.
Qed.

Lemma lstrip_start s :
  Text.lstrip s = EmptyString
  \/ exists c r, Text.lstrip s = String c r /\ Text.isspace c = false.
Proof.
  induction s as [| c s IH]; simpl; [auto |].
  destruct (Text.isspace c) eqn:Hc; [exact IH |]. right. eauto.
Qed.

(** Stripping a stripped text changes nothing. *)
Lemma strip_idem s : Text.strip (Text.strip s) = Text.strip s.
Proof.
  unfold Text.strip.
  destruct (lstrip_start s) as [-> | (c & r & -> & Hc)]; [reflexivity |].
  destruct (rstrip_head c r Hc) as [r' E]. rewrite E.
  rewrite (lstrip_head c r' Hc), <- E. apply rstrip_idem.
Qed.

Lemma strip_rstrip s : Text.rstrip (Text.strip s) = Text.strip s.
Proof. unfold Text.strip. apply rstrip_idem. Qed.

Lemma isdecimal_not_sep c : Text.isdecimal c = true -> Text.is_sep c = false.
Proof.
  destruct c as [[] [] [] [] [] [] [] []]; vm_compute;
    solve [reflexivity | discriminate].
Qed.

Lemma isdecimal_isdigit c :
  Text.isdecimal c = true -> Text.isdigit_char c = true.
Proof. unfold Text.isdigit_char. intros ->. reflexivity. Qed.

Lemma not_sep_not_space c : Text.is_sep c = false -> Text.isspace c = false.
Proof.
  unfold Text.is_sep. intros H. apply orb_false_iff in H. tauto.
Qed.

Lemma re_split_one s :
  Text.forallb_str (fun c => negb (Text.is_sep c)) s = true ->
  Text.re_split s = [s].
Proof.
  induction s as [| c s IH]; simpl; [reflexivity |].
  intros H. apply andb_true_iff in H as [Hc Hs].
  apply negb_true_iff in Hc. rewrite Hc, (IH Hs). reflexivity.
Qed.

Lemma skip_seps_run sep name :
  Text.forallb_str Text.is_sep sep = true ->
  starts_field name = true ->
  Text.skip_seps (sep +:+ name) = name.
Proof.
  intros Hsep Hname. induction sep as [| c sep IH]; simpl in *.
  - destruct name as [| d name]; [reflexivity |]. simpl in *.
    apply negb_true_iff in Hname. rewrite Hname. reflexivity.
  - apply andb_true_iff in Hsep as [-> Hsep]. auto.
Qed.

Lemma re_split_two idx sep name :
  Text.forallb_str Text.isdecimal idx = true ->
  sep <> EmptyString ->
  Text.forallb_str Text.is_sep sep = true ->
  starts_field name = true ->
  Text.re_split (idx +:+ sep +:+ name) = [idx; name].
Proof.
  intros Hidx Hne Hsep Hname.
  induction idx as [| c idx IH]; simpl in *.
  - destruct sep as [| d sep]; [congruence |]. simpl in *.
    apply andb_true_iff in Hsep as [-> Hsep].
    rewrite skip_seps_run by assumption. reflexivity.
  - apply andb_true_iff in Hidx as [Hc Hidx].
    rewrite (isdecimal_not_sep c Hc), (IH Hidx). reflexivity.
Qed.

Lemma strip_digits idx :
  Text.forallb_str Text.isdecimal idx = true -> Text.strip idx = idx.
Proof.
  intros H. unfold Text.strip.
  assert (Hl : Text.lstrip idx = idx).
  { destruct idx as [| c idx]; [reflexivity |]. simpl in *.
    apply andb_true_iff in H as [Hc _].
    rewrite (not_sep_not_space c (isdecimal_not_sep c Hc)). reflexivity. }
  rewrite Hl. clear Hl.
  induction idx as [| c idx IH]; [reflexivity |]. simpl in *.
  apply andb_true_iff in H as [Hc H]. rewrite (IH H).
  destruct idx; [| reflexivity].
  rewrite (not_sep_not_space c (isdecimal_not_sep c Hc)). reflexivity.
Qed.

Lemma isdigit_digits idx :
  idx <> EmptyString ->
  Text.forallb_str Text.isdecimal idx = true -> Text.isdigit idx = true.
Proof.
  intros Hne H. destruct idx as [| c idx]; [congruence |].
  unfold Text.isdigit. clear Hne.
  induction (String c idx) as [| d s IH]; [reflexivity |]. simpl in *.
  apply andb_true_iff in H as [Hd H].
  rewrite (isdecimal_isdigit d Hd), (IH H). reflexivity.
Qed.

(** A line of one field is stored under its row number, whole. *)
Lemma load_labels_row_one row content :
  Text.forallb_str (fun c => negb (Text.is_sep c)) (Text.strip content) = true ->
  load_labels_row row content = Ok (row, Text.strip content).
Proof.
  intros H. unfold load_labels_row.
  rewrite (re_split_one _ H), strip_idem. reflexivity.
Qed.

(** A line of a number, separators and a name is stored under the number. *)
Lemma load_labels_row_two row content idx sep name :
  Text.strip content = idx +:+ sep +:+ name ->
  idx <> EmptyString ->
  Text.forallb_str Text.isdecimal idx = true ->
  sep <> EmptyString ->
  Text.forallb_str Text.is_sep sep = true ->
  starts_field name = true ->
  load_labels_row row content = Ok (Text.decimal_value 0 idx, name).
Proof.
  intros E Hne Hidx Hsne Hsep Hname. unfold load_labels_row.
  rewrite E, (re_split_two idx sep name Hidx Hsne Hsep Hname).
  rewrite (strip_digits idx Hidx), (isdigit_digits idx Hne Hidx).
  unfold Text.int. rewrite Hidx.
  assert (Hn : Text.strip name = name).
  { unfold Text.strip.
    assert (Hl : Text.lstrip name = name).
    { destruct name as [| c name]; [reflexivity |]. simpl in *.
      apply negb_true_iff in Hname.
      rewrite (not_sep_not_space c Hname). reflexivity. }
    rewrite Hl. apply (rstrip_suffix (idx +:+ sep)).
    rewrite append_assoc, <- E. apply strip_rstrip. }
  rewrite Hn. destruct idx; [congruence | reflexivity].
Qed.

Lemma load_labels_loop_snoc row lines line table :
  load_labels_loop row (lines ++ [line]) table
  = t ← load_labels_loop row lines table;
    '(k, name) ← load_labels_row (row + Z.of_nat (length lines)) line;
    Ok (<[k := name]> t).
Proof.
  revert row table. induction lines as [| l lines IH]; intros row table; simpl.
  - rewrite Z.add_0_r.
    destruct (load_labels_row row line) as [[k name] |]; reflexivity.
  - destruct (load_labels_row row l) as [[k name] |]; simpl; [| reflexivity].
    rewrite IH. replace (row + 1 + Z.of_nat (length lines))
      with (row + Z.pos (Pos.of_succ_nat (length lines))) by lia.
    reflexivity.
Qed.

(** C3, as the code has it.  The lines are stored in the order of the
    file, each over whatever the earlier lines stored under the same key
    (the last one wins).  For a line after lines that loaded into [table]:
    if its stripped text has no colon and no white space (one field), it
    is stored whole under its 0-based line number, also when it is a
    number; if its stripped text is a run of decimal digits, a run of
    colons and white space and a remainder, the remainder is stored under
    the number the digits denote. *)
Theorem load_labels_lines (fs : string -> option (list string))
    (path : string) (lines : list string) (line : string)
    (table : gmap Z string) :
  fs path = Some (lines ++ [line])%list ->
  load_labels_loop 0 lines ∅ = Ok table ->
  (Text.forallb_str (fun c => negb (Text.is_sep c)) (Text.strip line) = true ->
   load_labels fs path
   = Ok (<[Z.of_nat (length lines) := Text.strip line]> table))
  /\ (forall idx sep name,
        Text.strip line = idx +:+ sep +:+ name ->
        idx <> EmptyString ->
        Text.forallb_str Text.isdecimal idx = true ->
        sep <> EmptyString ->
        Text.forallb_str Text.is_sep sep = true ->
        starts_field name = true ->
        load_labels fs path
        = Ok (<[Text.decimal_value 0 idx := name]> table))
  /\ (forall k name,
        load_labels_row (Z.of_nat (length lines)) line = Ok (k, name) ->
        exists t, load_labels fs path = Ok t
                  /\ t !! k = Some name
                  /\ forall j, j <> k -> t !! j = table !! j).
Proof.
  intros Hfs Ht. unfold load_labels.
  rewrite Hfs, load_labels_loop_snoc, Ht, Z.add_0_l. simpl. repeat split.
  - intros H. rewrite (load_labels_row_one _ _ H). reflexivity.
  - intros idx sep name E H1 H2 H3 H4 H5.
    rewrite (load_labels_row_two _ _ idx sep name E H1 H2 H3 H4 H5).
    reflexivity.
  - intros k name ->. simpl. eexists. split; [reflexivity |].
    split; [apply lookup_insert_eq |].
    intros j Hj. apply lookup_insert_ne. congruence.
Qed.

(** The line "2: cat" gives {2: "cat"}, the line "dog" as line 0 gives
    {0: "dog"}, and of two lines with the id 1 the later one stays. *)
Lemma load_labels_lines_example :
  load_labels (fun _ => Some ["2: cat" +:+ Text.LF]) "labels.txt"
  = Ok {[ 2 := "cat" ]}
  /\ load_labels (fun _ => Some ["dog" +:+ Text.LF]) "labels.txt"
     = Ok {[ 0 := "dog" ]}
  /\ load_labels (fun _ => Some ["1 cat" +:+ Text.LF; "1 dog" +:+ Text.LF])
       "labels.txt"
     = Ok {[ 1 := "dog" ]}.
Proof.
  split; [| split].
  - destruct (load_labels_lines (fun _ => Some ["2: cat" +:+ Text.LF])
                "labels.txt" [] ("2: cat" +:+ Text.LF) ∅)
      as (_ & H & _); [reflexivity | reflexivity |].
    rewrite (H "2" ": " "cat"); try reflexivity; discriminate.
  - destruct (load_labels_lines (fun _ => Some ["dog" +:+ Text.LF])
                "labels.txt" [] ("dog" +:+ Text.LF) ∅)
      as (H & _); [reflexivity | reflexivity |].
    rewrite H; reflexivity.
  - destruct (load_labels_lines
                (fun _ => Some ["1 cat" +:+ Text.LF; "1 dog" +:+ Text.LF])
                "labels.txt" ["1 cat" +:+ Text.LF] ("1 dog" +:+ Text.LF)
                {[ 1 := "cat" ]})
      as (_ & H & _); [reflexivity | reflexivity |].
    rewrite (H "1" " " "dog"); try reflexivity; discriminate.
Defined.

(** C3 as stated fails on two kinds of line.  A line of two fields whose
    first is not a number is stored under its line number with the first
    field as its name, not the whole line; a line that is a number and
    nothing else is stored under its line number, not under the number. *)
Lemma load_labels_first_field :
  load_labels (fun _ => Some ["traffic light" +:+ Text.LF]) "labels.txt"
  = Ok {[ 0 := "traffic" ]}
  /\ Text.strip ("traffic light" +:+ Text.LF) = "traffic light"
  /\ load_labels (fun _ => Some ["dog" +:+ Text.LF; "7" +:+ Text.LF])
       "labels.txt"
     = Ok {[ 0 := "dog"; 1 := "7" ]}.
Proof. vm_compute. auto. Qed.

(** ** JSON round trip *)

Lemma append_nil_l (s : string) : EmptyString +:+ s = s.
Proof. reflexivity. Qed.

Lemma append_cons c (a b : string) : String c a +:+ b = String c (a +:+ b).
Proof. reflexivity. Qed.

Ltac push_append :=
  repeat (rewrite append_assoc || rewrite append_cons || rewrite append_nil_l).

Lemma scan_string_escape_char c rest :
  Json.scan_string (Json.escape_char c +:+ rest)
  = '(t, r) ← Json.scan_string rest; Some (String c t, r).
Proof.
  destruct c as [[] [] [] [] [] [] [] []]; reflexivity.
Qed.

(** The decoder reads an encoded string literal back as the string. *)
Lemma scan_string_escape s rest :
  Json.scan_string (Json.escape s +:+ String Json.dquote rest) = Some (s, rest).
Proof.
  induction s as [| c s IH].
  - reflexivity.
  - change (Json.escape (String c s)) with (Json.escape_char c +:+ Json.escape s).
    rewrite append_assoc, scan_string_escape_char, IH. reflexivity.
Qed.

Lemma append_nil_r (s : string) : s +:+ EmptyString = s.
Proof.
  induction s as [| c s IH]; [reflexivity |].
  rewrite append_cons, IH. reflexivity.
Qed.

Lemma span_split p s :
  s = fst (Text.span p s) +:+ snd (Text.span p s)
  /\ Text.forallb_str p (fst (Text.span p s)) = true.
Proof.
  induction s as [| c s [IH1 IH2]]; simpl; [auto |].
  destruct (p c) eqn:Hc; [| auto].
  destruct (Text.span p s) as [a b]. simpl in *.
  rewrite append_cons, <- IH1, Hc, IH2. auto.
Qed.

Lemma span_all p s rest :
  Text.forallb_str p s = true ->
  match rest with EmptyString => true | String c _ => negb (p c) end = true ->
  Text.span p (s +:+ rest) = (s, rest).
Proof.
  intros Hs Hr. induction s as [| c s IH].
  - rewrite append_nil_l. destruct rest as [| d rest]; [reflexivity |].
    simpl. apply negb_true_iff in Hr. rewrite Hr. reflexivity.
  - simpl in Hs. apply andb_true_iff in Hs as [Hc Hs].
    rewrite append_cons. simpl. rewrite Hc, (IH Hs). reflexivity.
Qed.

Lemma strip_prefix_exact p s :
  Json.strip_prefix p s = Some EmptyString -> s = p.
Proof.
  revert s. induction p as [| a p IH]; intros s; simpl.
  - intros [= ->]. reflexivity.
  - destruct s as [| b s]; [discriminate |].
    destruct (Ascii.eqb a b) eqn:E; [| discriminate].
    apply Ascii.eqb_eq in E as ->. intros H. rewrite (IH s H). reflexivity.
Qed.

(** The six names the decoder knows. *)
Lemma parse_name_exact t v :
  Json.parse_name t = Some (v, EmptyString) ->
  t = "null" \/ t = "true" \/ t = "false" \/ t = "NaN" \/ t = "Infinity"
  \/ t = "-Infinity".
Proof.
  unfold Json.parse_name.
  repeat match goal with
         | |- context [Json.strip_prefix ?p t] =>
             let E := fresh "E" in
             destruct (Json.strip_prefix p t) as [r |] eqn:E;
             [ intros [= <- ->]; apply strip_prefix_exact in E; auto 10 |]
         end.
  discriminate.
Qed.

Lemma number_of_token_nonempty tok v :
  Json.number_of_token tok = Some v ->
  exists c r, tok = String c r.
Proof.
  destruct tok as [| c r]; [discriminate | eauto].
Qed.

(** A value read from a whole text is read from the text with more after
    it, if what comes after cannot be part of a number. *)
Lemma parse_atom_extend t v rest :
  Json.parse_atom t = Some (v, EmptyString) ->
  delimited rest = true ->
  Json.parse_atom (t +:+ rest) = Some (v, rest).
Proof.
  unfold Json.parse_atom. intros H Hd.
  destruct (span_split Json.is_number_char t) as [Ht Hall].
  destruct (Text.span Json.is_number_char t) as [tok r]. simpl in *.
  destruct (Json.number_of_token tok) as [v' |] eqn:N.
  - injection H as -> ->. rewrite append_nil_r in Ht. subst tok.
    rewrite (span_all _ _ _ Hall Hd), N. reflexivity.
  - apply parse_name_exact in H as Hn.
    destruct Hn as [-> | [-> | [-> | [-> | [-> | ->]]]]];
      vm_compute in H; injection H as <-; reflexivity.
Qed.

(** Such a text starts with a character that opens neither a string, an
    array nor an object and is no white space, and it has no line break. *)
Lemma parse_atom_head t v :
  Json.parse_atom t = Some (v, EmptyString) ->
  (exists c r, t = String c r
               /\ Ascii.eqb c Json.dquote = false
               /\ Ascii.eqb c "[" = false
               /\ Ascii.eqb c "{" = false
               /\ Json.is_ws c = false)
  /\ single_line t = true.
Proof.
  unfold Json.parse_atom. intros H.
  destruct (span_split Json.is_number_char t) as [Ht Hall].
  destruct (Text.span Json.is_number_char t) as [tok r]. simpl in *.
  destruct (Json.number_of_token tok) as [v' |] eqn:N.
  - injection H as -> ->. rewrite append_nil_r in Ht. subst tok.
    split.
    + destruct (number_of_token_nonempty _ _ N) as (c & r & ->).
      exists c, r. simpl in Hall. apply andb_true_iff in Hall as [Hc _].
      split; [reflexivity |]. revert Hc. clear.
      destruct c as [[] [] [] [] [] [] [] []]; vm_compute; intros H;
        solve [discriminate | auto].
    + clear N. unfold single_line.
      induction t as [| c t IH]; [reflexivity |]. simpl in *.
      apply andb_true_iff in Hall as [Hc Hall]. rewrite (IH Hall).
      rewrite andb_true_r. revert Hc. clear.
      destruct c as [[] [] [] [] [] [] [] []]; vm_compute; intros H;
        solve [discriminate | auto].
  - apply parse_name_exact in H as Hn.
    destruct Hn as [-> | [-> | [-> | [-> | [-> | ->]]]]];
      (split; [eexists _, _; repeat split; reflexivity | reflexivity]).
Qed.

Lemma parse_value_atom fuel t v rest :
  Json.parse_atom t = Some (v, EmptyString) ->
  delimited rest = true ->
  Json.parse_value (S fuel) (t +:+ rest) = Some (v, rest)
  /\ Json.skip_ws (t +:+ rest) = t +:+ rest.
Proof.
  intros H Hd.
  destruct (parse_atom_head t v H) as [(c & r & -> & H1 & H2 & H3 & H4) _].
  pose proof (parse_atom_extend _ _ _ H Hd) as He.
  rewrite append_cons in *. simpl. rewrite H1, H2, H3, H4.
  split; [exact He | reflexivity].
Qed.

Lemma parse_value_quote fuel s rest :
  Json.parse_value (S fuel) (Json.quote s +:+ rest) = Some (Json.Str s, rest)
  /\ Json.skip_ws (Json.quote s +:+ rest) = Json.quote s +:+ rest.
Proof.
  unfold Json.quote. push_append. simpl.
  rewrite scan_string_escape. split; reflexivity.
Qed.

(** One member of an object and one item of an array, read from the text
    [T] that starts with its value. *)
Lemma parse_members_more pv fuel k T v rest acc :
  pv T = Some (v, String "," rest) ->
  Json.skip_ws T = T ->
  Json.parse_members pv (S fuel)
    (Json.quote k +:+ String ":" (String " " T)) acc
  = Json.parse_members pv fuel (Json.skip_ws rest) (Json.dict_set acc k v).
Proof.
  intros Hv Hw. unfold Json.quote. push_append. simpl.
  rewrite scan_string_escape. simpl. rewrite Hw, Hv. reflexivity.
Qed.

Lemma parse_members_last pv fuel k T v rest acc :
  pv T = Some (v, String "}" rest) ->
  Json.skip_ws T = T ->
  Json.parse_members pv (S fuel)
    (Json.quote k +:+ String ":" (String " " T)) acc
  = Some (Json.Dict (Json.dict_set acc k v), rest).
Proof.
  intros Hv Hw. unfold Json.quote. push_append. simpl.
  rewrite scan_string_escape. simpl. rewrite Hw, Hv. reflexivity.
Qed.

Lemma parse_elements_more pv fuel T v rest acc :
  pv T = Some (v, String "," rest) ->
  Json.parse_elements pv (S fuel) T acc
  = Json.parse_elements pv fuel (Json.skip_ws rest) (acc ++ [v]).
Proof. intros Hv. simpl. rewrite Hv. reflexivity. Qed.

Lemma parse_elements_last pv fuel T v rest acc :
  pv T = Some (v, String "]" rest) ->
  Json.parse_elements pv (S fuel) T acc
  = Some (Json.List (acc ++ [v]), rest).
Proof. intros Hv. simpl. rewrite Hv. reflexivity. Qed.

Lemma skip_ws_space s : Json.skip_ws (String " " s) = Json.skip_ws s.
Proof. reflexivity. Qed.

Lemma parse_value_quote_value fuel s rest :
  Json.parse_value (S fuel) (Json.quote s +:+ rest) = Some (Json.Str s, rest).
Proof. apply parse_value_quote. Qed.

Lemma skip_ws_quote s rest :
  Json.skip_ws (Json.quote s +:+ rest) = Json.quote s +:+ rest.
Proof. apply (parse_value_quote 0). Qed.

Lemma parse_value_number fuel x rest :
  reads_back x -> delimited rest = true ->
  Json.parse_value (S fuel) (Json.number_text x +:+ rest)
  = Some (Json.Number x, rest).
Proof. intros H Hd. apply parse_value_atom; assumption. Qed.

Lemma skip_ws_number x rest :
  reads_back x -> delimited rest = true ->
  Json.skip_ws (Json.number_text x +:+ rest) = Json.number_text x +:+ rest.
Proof. intros H Hd. apply (parse_value_atom 0 _ _ _ H Hd). Qed.

(** An array of two numbers. *)
Lemma parse_value_pair fuel x y rest :
  reads_back x -> reads_back y ->
  Json.parse_value (S (S (S fuel)))
    (String "[" (Json.number_text x
                 +:+ String "," (String " " (Json.number_text y
                                             +:+ String "]" rest))))
  = Some (Json.List [Json.Number x; Json.Number y], rest).
Proof.
  intros Hx Hy.
  destruct (parse_atom_head _ _ Hx) as [(c & r & E & _ & _ & _ & Hw) _].
  assert (Hc : Ascii.eqb c "]" = false).
  { unfold reads_back in Hx. rewrite E in Hx. revert Hx. clear.
    destruct (Ascii.eqb c "]") eqn:Hc; [| reflexivity].
    apply Ascii.eqb_eq in Hc as ->. vm_compute. discriminate. }
  change (Json.parse_value (S (S (S fuel))) (String "[" ?T))
    with (match Json.skip_ws T with
          | String c' rest' =>
              if Ascii.eqb c' "]" then Some (Json.List [], rest')
              else Json.parse_elements (Json.parse_value (S (S fuel)))
                     (S (S fuel)) (Json.skip_ws T) []
          | EmptyString => None
          end).
  rewrite skip_ws_number by (assumption || reflexivity).
  rewrite E at 1. rewrite append_cons, Hc.
  erewrite parse_elements_more
    by (apply parse_value_number; [assumption | reflexivity]).
  rewrite skip_ws_space, skip_ws_number by (assumption || reflexivity).
  erewrite parse_elements_last
    by (apply parse_value_number; [assumption | reflexivity]).
  reflexivity.
Qed.

Lemma parse_value_object fuel k X :
  Json.parse_value (S fuel) (String "{" (Json.quote k +:+ X))
  = Json.parse_members (Json.parse_value fuel) fuel (Json.quote k +:+ X) [].
Proof.
  change (Json.parse_value (S fuel) (String "{" ?T))
    with (match Json.skip_ws T with
          | String c' rest' =>
              if Ascii.eqb c' "}" then Some (Json.Dict [], rest')
              else Json.parse_members (Json.parse_value fuel) fuel
                     (Json.skip_ws T) []
          | EmptyString => None
          end).
  rewrite skip_ws_quote. unfold Json.quote. rewrite append_cons. reflexivity.
Qed.

Lemma post_text_length point label score :
  exists n, String.length (Json.dumps (post point label score))
            = S (S (S (S n))).
Proof. eexists. reflexivity. Qed.

(** The decoder reads the encoded message back as the dictionary. *)
Lemma loads_post x y label score :
  reads_back x -> reads_back y ->
  Json.loads (Json.dumps (post (Some [x; y]) label score))
  = Some (post (Some [x; y]) label score).
Proof.
  intros Hx Hy. unfold Json.loads.
  destruct (post_text_length (Some [x; y]) label score) as [n ->].
  unfold post. cbn [Json.dumps List.map map Json.join].
  push_append.
  change (Json.skip_ws (String "{" ?T)) with (String "{" T).
  rewrite parse_value_object.
  erewrite parse_members_more
    by first [apply parse_value_quote_value | apply skip_ws_quote].
  rewrite skip_ws_space, skip_ws_quote.
  erewrite parse_members_more
    by first [apply parse_value_quote_value | apply skip_ws_quote].
  rewrite skip_ws_space, skip_ws_quote.
  erewrite parse_members_more
    by first [apply parse_value_pair; assumption | reflexivity].
  rewrite skip_ws_space, skip_ws_quote.
  erewrite parse_members_last
    by first [apply parse_value_quote_value | apply skip_ws_quote].
  reflexivity.
Qed.

Lemma single_line_append a b :
  single_line (a +:+ b) = (single_line a && single_line b)%bool.
Proof.
  unfold single_line. induction a as [| c a IH]; [reflexivity |].
  rewrite append_cons. simpl. rewrite IH, andb_assoc. reflexivity.
Qed.

Lemma single_line_escape s : single_line (Json.escape s) = true.
Proof.
  induction s as [| c s IH]; [reflexivity |].
  change (Json.escape (String c s)) with (Json.escape_char c +:+ Json.escape s).
  rewrite single_line_append, IH, andb_true_r.
  destruct c as [[] [] [] [] [] [] [] []]; reflexivity.
Qed.

Lemma single_line_quote s : single_line (Json.quote s) = true.
Proof.
  unfold Json.quote.
  change (String Json.dquote ?X) with (String Json.dquote EmptyString +:+ X).
  rewrite !single_line_append, single_line_escape. reflexivity.
Qed.

Lemma single_line_number x : reads_back x -> single_line (Json.number_text x) = true.
Proof. intros H. apply (parse_atom_head _ _ H). Qed.

(** The encoded message has no line break. *)
Lemma single_line_post x y label score :
  reads_back x -> reads_back y ->
  single_line (Json.dumps (post (Some [x; y]) label score)) = true.
Proof.
  intros Hx Hy. unfold post. cbn [Json.dumps List.map map Json.join].
  rewrite !single_line_append, !single_line_quote,
    (single_line_number x Hx), (single_line_number y Hy).
  reflexivity.
Qed.

(** ** Powers of two as rationals *)

Lemma pow2_pos e : (0 < Round.pow2 e)%Q.
Proof. apply Qpower_0_lt. reflexivity. Qed.

Lemma pow2_add a b : (Round.pow2 (a + b) == Round.pow2 a * Round.pow2 b)%Q.
Proof. apply Qpower_plus. discriminate. Qed.

Lemma pow2_succ a : (Round.pow2 (a + 1) == 2 * Round.pow2 a)%Q.
Proof. rewrite pow2_add. change (Round.pow2 1) with 2%Q. ring. Qed.

Lemma pow2_le a b : a <= b -> (Round.pow2 a <= Round.pow2 b)%Q.
Proof. intros H. apply Qpower_le_compat_l; [exact H | discriminate]. Qed.

Lemma pow2_lt a b : a < b -> (Round.pow2 a < Round.pow2 b)%Q.
Proof. intros H. apply Qpower_lt_compat_l; [exact H | reflexivity]. Qed.

Lemma pow2_lt_inv a b : (Round.pow2 a < Round.pow2 b)%Q -> a < b.
Proof. intros H. apply (Qpower_lt_compat_l_inv 2); [exact H | reflexivity]. Qed.

Lemma pow2_Z e : 0 <= e -> (Round.pow2 e == inject_Z (2 ^ e))%Q.
Proof. intros H. symmetry. apply (Zpower_Qpower 2 e H). Qed.

Lemma pow2_0 : (Round.pow2 0 == 1)%Q.
Proof. reflexivity. Qed.

(** [q / 2^e] against a power of two. *)
Lemma div_pow2 q a b :
  (q / Round.pow2 a / Round.pow2 b == q / Round.pow2 (a + b))%Q.
Proof.
  rewrite pow2_add. pose proof (pow2_pos a). pose proof (pow2_pos b).
  field. split; lra.
Qed.

Lemma div_pow2_lt q e a :
  (q / Round.pow2 e < Round.pow2 a)%Q <-> (q < Round.pow2 (a + e))%Q.
Proof.
  rewrite pow2_add. pose proof (pow2_pos e) as He.
  assert (E : (q / Round.pow2 e * Round.pow2 e == q)%Q) by (field; lra).
  revert E. generalize (q / Round.pow2 e)%Q (Round.pow2 a) (Round.pow2 e) He.
  intros t A p Hp E. split; intros H; nra.
Qed.

Lemma div_pow2_le q e a :
  (Round.pow2 a <= q / Round.pow2 e)%Q <-> (Round.pow2 (a + e) <= q)%Q.
Proof.
  rewrite pow2_add. pose proof (pow2_pos e) as He.
  assert (E : (q / Round.pow2 e * Round.pow2 e == q)%Q) by (field; lra).
  revert E. generalize (q / Round.pow2 e)%Q (Round.pow2 a) (Round.pow2 e) He.
  intros t A p Hp E. split; intros H; nra.
Qed.

(** ** The number of bits of a mantissa *)

Lemma digits2_pos_bounds m :
  2 ^ (Zpos (digits2_pos m) - 1) <= Zpos m < 2 ^ Zpos (digits2_pos m).
Proof.
  induction m as [m IH | m IH |]; simpl digits2_pos.
  - rewrite Pos2Z.inj_succ. change (Z.pos m~1) with (2 * Z.pos m + 1).
    replace (Z.succ (Zpos (digits2_pos m)) - 1)
      with (Z.succ (Zpos (digits2_pos m) - 1)) by lia.
    rewrite !Z.pow_succ_r by lia.
    revert IH. generalize (2 ^ (Z.pos (digits2_pos m) - 1))
      (2 ^ Z.pos (digits2_pos m)) (Z.pos m). intros a b c. lia.
  - rewrite Pos2Z.inj_succ. change (Z.pos m~0) with (2 * Z.pos m).
    replace (Z.succ (Zpos (digits2_pos m)) - 1)
      with (Z.succ (Zpos (digits2_pos m) - 1)) by lia.
    rewrite !Z.pow_succ_r by lia.
    revert IH. generalize (2 ^ (Z.pos (digits2_pos m) - 1))
      (2 ^ Z.pos (digits2_pos m)) (Z.pos m). intros a b c. lia.
  - split; [intros H; discriminate H | reflexivity].
Qed.

Lemma Zdigits2_nonneg m : 0 <= Zdigits2 m.
Proof. destruct m; simpl; lia. Qed.

Lemma Zdigits2_upper m : 0 <= m -> m < 2 ^ Zdigits2 m.
Proof.
  destruct m as [| p | p]; simpl; [lia | | lia].
  intros _. apply digits2_pos_bounds.
Qed.

Lemma Zdigits2_lower m : 0 < m -> 2 ^ (Zdigits2 m - 1) <= m.
Proof.
  destruct m as [| p | p]; simpl; [lia | | lia].
  intros _. apply digits2_pos_bounds.
Qed.

(** A number of [k] bits or more. *)
Lemma Zdigits2_ge m k : 0 <= m -> 2 ^ (k - 1) <= m -> 1 <= k -> k <= Zdigits2 m.
Proof.
  intros Hm Hk H1. pose proof (Zdigits2_upper m Hm) as Hu.
  pose proof (Zdigits2_nonneg m).
  destruct (Z_lt_le_dec (Zdigits2 m) k) as [Hlt | Hge]; [| exact Hge].
  exfalso. assert (2 ^ Zdigits2 m <= 2 ^ (k - 1))
    by (apply Z.pow_le_mono_r; lia). lia.
Qed.

Lemma Zdigits2_le m k : 0 <= m -> m < 2 ^ k -> 0 <= k -> Zdigits2 m <= k.
Proof.
  intros Hm Hk H0.
  destruct (Z.eq_dec m 0) as [-> | Hne]; [simpl; lia |].
  pose proof (Zdigits2_lower m ltac:(lia)) as Hl.
  destruct (Z_lt_le_dec k (Zdigits2 m)) as [Hlt | Hge]; [| exact Hge].
  exfalso. assert (2 ^ k <= 2 ^ (Zdigits2 m - 1))
    by (apply Z.pow_le_mono_r; lia). lia.
Qed.

(** ** Shifting a mantissa to the right *)

Lemma located_ext m l t t' :
  (t == t')%Q -> Round.located m l t -> Round.located m l t'.
Proof.
  intros E. destruct l as [| []]; simpl; intros H; lra.
Qed.

Lemma located_bounds m l t :
  Round.located m l t -> (inject_Z m <= t /\ t < inject_Z m + 1)%Q.
Proof. destruct l as [| []]; simpl; intros H; lra. Qed.

Lemma loc_of_shr_record_of_loc m l :
  loc_of_shr_record (shr_record_of_loc m l) = l
  /\ shr_m (shr_record_of_loc m l) = m.
Proof. destruct l as [| []]; split; reflexivity. Qed.

Lemma shr_1_spec mrs t :
  0 <= shr_m mrs ->
  Round.located (shr_m mrs) (loc_of_shr_record mrs) t ->
  Round.located (shr_m (shr_1 mrs)) (loc_of_shr_record (shr_1 mrs)) (t / 2)
  /\ shr_m (shr_1 mrs) = shr_m mrs / 2.
Proof.
  destruct mrs as [m r s]. cbn [shr_m]. intros Hm H.
  unfold Qdiv. change (/ 2)%Q with (1 # 2)%Q.
  destruct m as [| p | p]; [| | lia].
  - change (inject_Z 0) with 0%Q in *.
    destruct r, s;
      cbn [Round.located loc_of_shr_record shr_1 shr_m orb] in *;
      change (inject_Z 0) with 0%Q in *; split; try reflexivity; lra.
  - destruct p as [p | p |].
    + assert (E : (inject_Z (Z.pos p~1) == 2 * inject_Z (Z.pos p) + 1)%Q).
      { change (Z.pos p~1) with (2 * Z.pos p + 1).
        rewrite inject_Z_plus, inject_Z_mult. reflexivity. }
      split.
      * destruct r, s;
          cbn [Round.located loc_of_shr_record shr_1 shr_m orb] in *; lra.
      * destruct r, s; cbn [shr_1 shr_m orb];
          change (Z.pos p~1) with (2 * Z.pos p + 1);
          apply Z.div_unique with 1; lia.
    + assert (E : (inject_Z (Z.pos p~0) == 2 * inject_Z (Z.pos p))%Q).
      { change (Z.pos p~0) with (2 * Z.pos p).
        rewrite inject_Z_mult. reflexivity. }
      split.
      * destruct r, s;
          cbn [Round.located loc_of_shr_record shr_1 shr_m orb] in *; lra.
      * destruct r, s; cbn [shr_1 shr_m orb];
          change (Z.pos p~0) with (2 * Z.pos p);
          apply Z.div_unique with 0; lia.
    + split.
      * destruct r, s;
          cbn [Round.located loc_of_shr_record shr_1 shr_m orb] in *;
          change (inject_Z 0) with 0%Q in *;
          change (inject_Z 1) with 1%Q in *; lra.
      * destruct r, s; reflexivity.
Qed.

Lemma iter_shr_1_spec p :
  forall mrs t,
    0 <= shr_m mrs ->
    Round.located (shr_m mrs) (loc_of_shr_record mrs) t ->
    Round.located (shr_m (SpecFloat.iter_pos shr_1 p mrs))
      (loc_of_shr_record (SpecFloat.iter_pos shr_1 p mrs)) (t / Round.pow2 (Zpos p))
    /\ shr_m (SpecFloat.iter_pos shr_1 p mrs) = shr_m mrs / 2 ^ Zpos p.
Proof.
  induction p as [p IH | p IH |]; intros mrs t Hm H; simpl SpecFloat.iter_pos.
  - destruct (shr_1_spec mrs t Hm H) as [H1 E1].
    assert (Hm1 : 0 <= shr_m (shr_1 mrs))
      by (rewrite E1; apply Z.div_pos; lia).
    destruct (IH _ _ Hm1 H1) as [H2 E2].
    assert (Hm2 : 0 <= shr_m (SpecFloat.iter_pos shr_1 p (shr_1 mrs)))
      by (rewrite E2; apply Z.div_pos; lia).
    destruct (IH _ _ Hm2 H2) as [H3 E3].
    split.
    + eapply located_ext; [| exact H3].
      rewrite div_pow2. change 2%Q with (Round.pow2 1).
      rewrite div_pow2. replace (Z.pos p~1) with (1 + (Z.pos p + Z.pos p)) by lia.
      reflexivity.
    + rewrite E3, E2, E1, !Z.div_div by lia.
      rewrite <- Z.pow_add_r by lia. rewrite <- (Z.pow_1_r 2) at 1.
      rewrite <- Z.pow_add_r by lia. f_equal. f_equal. lia.
  - destruct (IH _ _ Hm H) as [H2 E2].
    assert (Hm2 : 0 <= shr_m (SpecFloat.iter_pos shr_1 p mrs))
      by (rewrite E2; apply Z.div_pos; lia).
    destruct (IH _ _ Hm2 H2) as [H3 E3].
    split.
    + eapply located_ext; [| exact H3].
      rewrite div_pow2. replace (Z.pos p~0) with (Z.pos p + Z.pos p) by lia.
      reflexivity.
    + rewrite E3, E2, !Z.div_div by lia.
      rewrite <- Z.pow_add_r by lia. f_equal. f_equal. lia.
  - destruct (shr_1_spec mrs t Hm H) as [H1 E1]. split; [exact H1 |].
    rewrite E1. reflexivity.
Qed.

(** ** [binary_round_aux] rounds to nearest, ties to even *)

Section Rounding.
Variables prec emax : Z.
Hypothesis Hprec : 0 < prec.

Lemma fexp_mono a b : a <= b -> fexp prec emax a <= fexp prec emax b.
Proof. unfold fexp. lia. Qed.

Lemma fexp_ge_emin a : emin prec emax <= fexp prec emax a.
Proof. unfold fexp. lia. Qed.

Lemma shr_fexp_spec mx ex lx q :
  0 <= mx ->
  Round.located mx lx (q / Round.pow2 ex) ->
  ex <= fexp prec emax (Zdigits2 mx + ex) ->
  exists mrs,
    shr_fexp prec emax mx ex lx = (mrs, fexp prec emax (Zdigits2 mx + ex))
    /\ Round.located (shr_m mrs) (loc_of_shr_record mrs)
         (q / Round.pow2 (fexp prec emax (Zdigits2 mx + ex)))
    /\ 0 <= shr_m mrs < 2 ^ prec.
Proof.
  intros Hm Hl He. unfold shr_fexp, shr.
  remember (fexp prec emax (Zdigits2 mx + ex)) as e' eqn:Ee'.
  pose proof (Zdigits2_upper mx Hm) as Hu.
  pose proof (Zdigits2_nonneg mx) as Hd.
  assert (Hdg : Zdigits2 mx <= prec + (e' - ex))
    by (subst e'; unfold fexp; lia).
  destruct (loc_of_shr_record_of_loc mx lx) as [E1 E2].
  destruct (e' - ex) as [| p | p] eqn:En; [| | lia].
  - exists (shr_record_of_loc mx lx).
    assert (Eex : e' = ex) by lia. rewrite Eex in *.
    split; [reflexivity |]. rewrite E1, E2. split; [exact Hl |].
    split; [exact Hm |].
    assert (2 ^ Zdigits2 mx <= 2 ^ prec) by (apply Z.pow_le_mono_r; lia).
    lia.
  - destruct (iter_shr_1_spec p (shr_record_of_loc mx lx)
                (q / Round.pow2 ex)) as [H1 H2].
    + rewrite E2. exact Hm.
    + rewrite E1, E2. exact Hl.
    + exists (SpecFloat.iter_pos shr_1 p (shr_record_of_loc mx lx)).
      split; [f_equal; lia |]. split.
      * eapply located_ext; [| exact H1]. rewrite div_pow2.
        replace (ex + Z.pos p) with e' by lia. reflexivity.
      * rewrite H2, E2. split; [apply Z.div_pos; lia |].
        apply Z.div_lt_upper_bound; [lia |].
        assert (2 ^ Zdigits2 mx <= 2 ^ (Z.pos p + prec))
          by (apply Z.pow_le_mono_r; lia).
        rewrite Z.pow_add_r in H by lia. lia.
Qed.

Lemma round_nearest_even_spec m l t :
  Round.located m l t ->
  Round.nearest_even t (round_nearest_even m l)
  /\ (round_nearest_even m l = m \/ round_nearest_even m l = m + 1).
Proof.
  unfold Round.nearest_even.
  destruct l as [| []]; cbn [Round.located round_nearest_even]; intros H.
  - split; [| left; reflexivity]. split; [lra |]. intros [E | E]; lra.
  - destruct (Z.even m) eqn:Ev.
    + split; [| left; reflexivity]. split; [lra |]. intros _. exact Ev.
    + split; [| right; reflexivity].
      rewrite inject_Z_plus. change (inject_Z 1) with 1%Q.
      split; [lra |]. intros _.
      rewrite Z.even_add, Ev. reflexivity.
  - split; [| left; reflexivity]. split; [lra |]. intros [E | E]; lra.
  - split; [| right; reflexivity].
    rewrite inject_Z_plus. change (inject_Z 1) with 1%Q.
    split; [lra |]. intros [E | E]; lra.
Qed.

Lemma binary_round_aux_finish s mx ex lx :
  binary_round_aux prec emax s mx ex lx
  = let '(mrs, e') := shr_fexp prec emax mx ex lx in
    Round.finish prec emax s
      (round_nearest_even (shr_m mrs) (loc_of_shr_record mrs)) e'.
Proof.
  unfold binary_round_aux, Round.finish.
  destruct (shr_fexp prec emax mx ex lx) as [mrs e']. reflexivity.
Qed.

(** The rounding at the heart of every operation: from a mantissa, an
    exponent and the place of the exact value after the mantissa to the
    nearest number of the format. *)
Lemma binary_round_aux_rounds s mx ex lx q :
  0 <= mx ->
  Round.located mx lx (q / Round.pow2 ex) ->
  ex <= fexp prec emax (Zdigits2 mx + ex) ->
  Round.rounds prec emax s q (binary_round_aux prec emax s mx ex lx).
Proof.
  intros Hm Hl He.
  destruct (shr_fexp_spec mx ex lx q Hm Hl He) as (mrs & E & Hl' & Hb).
  rewrite binary_round_aux_finish, E.
  remember (fexp prec emax (Zdigits2 mx + ex)) as e' eqn:Ee'.
  destruct (round_nearest_even_spec _ _ _ Hl') as [Hn _].
  exists e', (round_nearest_even (shr_m mrs) (loc_of_shr_record mrs)).
  split; [| split; [exact Hn | reflexivity]].
  pose proof (located_bounds _ _ _ Hl) as [Hlo Hhi].
  pose proof (Zdigits2_upper mx Hm) as Hu.
  pose proof (Zdigits2_nonneg mx) as Hd.
  assert (Hup : (inject_Z mx + 1 <= Round.pow2 (Zdigits2 mx))%Q).
  { rewrite pow2_Z by exact Hd.
    change 1%Q with (inject_Z 1). rewrite <- inject_Z_plus, <- Zle_Qle. lia. }
  split; [subst e'; apply fexp_ge_emin |]. split.
  - assert (Hq : (q / Round.pow2 ex < Round.pow2 (Zdigits2 mx))%Q) by lra.
    apply (proj1 (div_pow2_lt q ex (Zdigits2 mx))) in Hq.
    eapply Qlt_le_trans; [exact Hq |]. apply pow2_le.
    subst e'. unfold fexp. lia.
  - destruct (Z.eq_dec e' (emin prec emax)) as [Ee | Ene]; [left; exact Ee |].
    right.
    assert (Ee : e' = Zdigits2 mx + ex - prec)
      by (rewrite Ee' in *; unfold fexp in *; lia).
    assert (Hpos : 0 < mx).
    { destruct (Z.eq_dec mx 0) as [-> | Hne]; [| lia].
      simpl in Ee. lia. }
    pose proof (Zdigits2_lower mx Hpos) as Hlow.
    assert (Hd1 : 1 <= Zdigits2 mx).
    { destruct mx; simpl; lia. }
    assert (Hq : (Round.pow2 (Zdigits2 mx - 1) <= q / Round.pow2 ex)%Q).
    { rewrite pow2_Z by lia. eapply Qle_trans; [| exact Hlo].
      rewrite <- Zle_Qle. exact Hlow. }
    apply (proj1 (div_pow2_le q ex (Zdigits2 mx - 1))) in Hq.
    replace (e' + prec - 1) with (Zdigits2 mx - 1 + ex) by lia. exact Hq.
Qed.

End Rounding.

(** ** The nearest number is unique *)

Lemma nearest_even_unique t m1 m2 :
  Round.nearest_even t m1 -> Round.nearest_even t m2 -> m1 = m2.
Proof.
  assert (H : forall a b, Round.nearest_even t a -> Round.nearest_even t b ->
                          a < b -> False).
  { intros a b [[Ha1 Ha2] Ha] [[Hb1 Hb2] Hb] Hlt.
    assert (Hab : (inject_Z a + 1 <= inject_Z b)%Q).
    { change 1%Q with (inject_Z 1). rewrite <- inject_Z_plus, <- Zle_Qle. lia. }
    assert (Eb : (inject_Z b == inject_Z a + 1)%Q) by lra.
    assert (b = a + 1).
    { apply inject_Z_injective. rewrite inject_Z_plus. exact Eb. }
    subst b.
    assert (Z.even a = true) by (apply Ha; right; lra).
    assert (Z.even (a + 1) = true) by (apply Hb; left; lra).
    rewrite Z.even_add in *. destruct (Z.even a); discriminate. }
  intros H1 H2.
  destruct (Z.lt_trichotomy m1 m2) as [Hlt | [E | Hgt]]; [| exact E |].
  - destruct (H m1 m2 H1 H2 Hlt).
  - destruct (H m2 m1 H2 H1 Hgt).
Qed.

Lemma nearest_even_ext t t' m :
  (t == t')%Q -> Round.nearest_even t m -> Round.nearest_even t' m.
Proof.
  intros E [[H1 H2] H]. split; [lra |]. intros [E' | E']; apply H; lra.
Qed.

Section Unique.
Variables prec emax : Z.
Hypothesis Hprec : 0 < prec.

Lemma cexp_unique q e1 e2 :
  Round.cexp prec emax q e1 -> Round.cexp prec emax q e2 -> e1 = e2.
Proof.
  assert (H : forall a b, Round.cexp prec emax q a -> Round.cexp prec emax q b ->
                          a < b -> False).
  { intros a b (Ha1 & Ha2 & Ha3) (Hb1 & Hb2 & Hb3) Hlt.
    destruct Hb3 as [-> | Hb3]; [lia |].
    assert (Hp : (Round.pow2 (b + prec - 1) < Round.pow2 (a + prec))%Q) by lra.
    apply pow2_lt_inv in Hp. lia. }
  intros H1 H2.
  destruct (Z.lt_trichotomy e1 e2) as [Hlt | [E | Hgt]]; [| exact E |].
  - destruct (H e1 e2 H1 H2 Hlt).
  - destruct (H e2 e1 H2 H1 Hgt).
Qed.

Lemma finish_sign s m e m' e' :
  Round.finish prec emax false m e = S754_finite false m' e' ->
  Round.finish prec emax s m e = S754_finite s m' e'.
Proof.
  unfold Round.finish.
  destruct (shr_fexp prec emax m e loc_Exact) as [mrs e1].
  destruct (shr_m mrs); [discriminate | | discriminate].
  destruct (e1 <=? emax - prec); [| discriminate].
  intros [= -> ->]. reflexivity.
Qed.

(** A number has one nearest number of the format. *)
Lemma rounds_unique s q r1 r2 :
  Round.rounds prec emax s q r1 -> Round.rounds prec emax s q r2 -> r1 = r2.
Proof.
  intros (e1 & m1 & Hc1 & Hn1 & ->) (e2 & m2 & Hc2 & Hn2 & ->).
  assert (e1 = e2) as -> by (eapply cexp_unique; eassumption).
  assert (m1 = m2) as -> by (eapply nearest_even_unique; eassumption).
  reflexivity.
Qed.

Lemma rounds_finite s q r m e :
  Round.rounds prec emax s q r ->
  Round.rounds prec emax false q (S754_finite false m e) ->
  r = S754_finite s m e.
Proof.
  intros (e1 & m1 & Hc1 & Hn1 & ->) (e2 & m2 & Hc2 & Hn2 & E).
  assert (e1 = e2) as -> by (eapply cexp_unique; eassumption).
  assert (m1 = m2) as -> by (eapply nearest_even_unique; eassumption).
  apply finish_sign. symmetry. exact E.
Qed.

(** ** The last step of a rounding *)

Lemma finish_canonical s m e :
  bounded prec emax m e = true ->
  Round.finish prec emax s (Zpos m) e = S754_finite s m e.
Proof.
  unfold bounded, canonical_mantissa. intros H.
  apply andb_true_iff in H as [Hc Hb].
  apply Z.eqb_eq in Hc. apply Z.leb_le in Hb.
  unfold Round.finish, shr_fexp, shr. cbn [Zdigits2].
  rewrite Hc, Z.sub_diag. cbn [shr_record_of_loc shr_m].
  apply Z.leb_le in Hb. rewrite Hb. reflexivity.
Qed.

Lemma finish_carry s e :
  emin prec emax <= e ->
  e + 1 <= emax - prec ->
  Round.finish prec emax s (2 ^ prec) e
  = S754_finite s (Z.to_pos (2 ^ (prec - 1))) (e + 1).
Proof.
  intros He Hb. unfold Round.finish, shr_fexp, shr.
  assert (Hd : Zdigits2 (2 ^ prec) = prec + 1).
  { apply Z.le_antisymm.
    - apply Zdigits2_le; [lia | | lia].
      rewrite Z.pow_add_r by lia. lia.
    - apply Zdigits2_ge; [lia | | lia].
      replace (prec + 1 - 1) with prec by lia. lia. }
  rewrite Hd.
  replace (fexp prec emax (prec + 1 + e) - e) with 1 by (unfold fexp; lia).
  cbn [SpecFloat.iter_pos shr_record_of_loc].
  destruct (shr_1_spec (Build_shr_record (2 ^ prec) false false)
              (inject_Z (2 ^ prec))) as [_ E].
  - cbn [shr_m]. lia.
  - cbn [shr_m loc_of_shr_record Round.located]. reflexivity.
  - cbn [shr_m] in E. rewrite E.
    assert (E2 : 2 ^ prec / 2 = 2 ^ (prec - 1)).
    { replace prec with (prec - 1 + 1) at 1 by lia.
      rewrite Z.pow_add_r by lia. change (2 ^ 1) with 2.
      apply Z.div_mul. lia. }
    rewrite E2.
    assert (0 < 2 ^ (prec - 1)) by (apply Z.pow_pos_nonneg; lia).
    destruct (2 ^ (prec - 1)) as [| p | p] eqn:Ep; [lia | | lia].
    apply Z.leb_le in Hb. rewrite Hb. reflexivity.
Qed.

End Unique.

(** ** [binary_round] and [SFdiv] round to nearest *)

Lemma iter_xO_spec d m :
  Zpos (Pos.iter xO m d) = Zpos m * 2 ^ Zpos d
  /\ Zpos (digits2_pos (Pos.iter xO m d)) = Zpos (digits2_pos m) + Zpos d.
Proof.
  induction d as [| d IH] using Pos.peano_ind.
  - cbn [Pos.iter]. split; [change (2 ^ 1) with 2; lia |].
    cbn [digits2_pos]. lia.
  - rewrite Pos.iter_succ. destruct IH as [IH1 IH2].
    change (Z.pos (Pos.iter xO m d)~0) with (2 * Z.pos (Pos.iter xO m d)).
    cbn [digits2_pos]. rewrite Pos2Z.inj_succ, IH1.
    split; [rewrite Z.pow_succ_r by lia; lia |].
    rewrite Pos2Z.inj_succ, IH2. lia.
Qed.

Lemma shl_align_spec mx ex ex' :
  let '(mz, ez) := shl_align mx ex ex' in
  ez = Z.min ex ex'
  /\ Zpos mz = Zpos mx * 2 ^ (ex - ez)
  /\ Zpos (digits2_pos mz) = Zpos (digits2_pos mx) + (ex - ez).
Proof.
  unfold shl_align. destruct (ex' - ex) as [| d | d] eqn:E.
  - replace (ex - ex) with 0 by lia. split; [lia |]. split; [| lia].
    change (2 ^ 0) with 1. lia.
  - replace (ex - ex) with 0 by lia. split; [lia |]. split; [| lia].
    change (2 ^ 0) with 1. lia.
  - destruct (iter_xO_spec d mx) as [H1 H2].
    replace (ex - ex') with (Zpos d) by lia. split; [lia |]. split; assumption.
Qed.

Lemma value_div m e e' :
  e' <= e ->
  (Round.value m e / Round.pow2 e' == inject_Z (Zpos m * 2 ^ (e - e')))%Q.
Proof.
  intros H. unfold Round.value. rewrite inject_Z_mult, <- pow2_Z by lia.
  replace e with ((e - e') + e') at 1 by lia. rewrite pow2_add.
  pose proof (pow2_pos e'). field. lra.
Qed.

Section Operations.
Variables prec emax : Z.
Hypothesis Hprec : 0 < prec.

Lemma binary_round_rounds s mx ex :
  Round.rounds prec emax s (Round.value mx ex) (binary_round prec emax s mx ex).
Proof.
  unfold binary_round.
  pose proof (shl_align_spec mx ex (fexp prec emax (Zpos (digits2_pos mx) + ex)))
    as H.
  destruct (shl_align mx ex (fexp prec emax (Zpos (digits2_pos mx) + ex)))
    as [mz ez].
  destruct H as (Ez & Em & Ed).
  apply (binary_round_aux_rounds prec emax Hprec).
  - lia.
  - cbn [Round.located]. rewrite Em. apply value_div. lia.
  - cbn [Zdigits2]. rewrite Ed.
    replace (Z.pos (digits2_pos mx) + (ex - ez) + ez)
      with (Z.pos (digits2_pos mx) + ex) by lia.
    lia.
Qed.

Lemma new_location_spec nb k :
  0 < nb -> 0 <= k < nb ->
  forall u, (u * inject_Z nb == inject_Z k)%Q ->
  Round.located 0 (new_location nb k) u.
Proof.
  intros Hnb Hk u Hu.
  assert (Hn : (0 < inject_Z nb)%Q)
    by (change 0%Q with (inject_Z 0); rewrite <- Zlt_Qlt; exact Hnb).
  assert (Hk0 : (0 <= inject_Z k)%Q)
    by (change 0%Q with (inject_Z 0); rewrite <- Zle_Qle; lia).
  assert (Hkn : (inject_Z k < inject_Z nb)%Q) by (rewrite <- Zlt_Qlt; lia).
  assert (Cmp : forall a b : Z, a < b -> (inject_Z a < inject_Z b)%Q)
    by (intros a b; rewrite <- Zlt_Qlt; auto).
  unfold new_location.
  destruct (Z.even nb) eqn:Ev.
  - unfold new_location_even. destruct (Z.eqb_spec k 0) as [-> | Hk1].
    + cbn [Round.located]. change (inject_Z 0) with 0%Q in *. nra.
    + assert (Hk2 : (0 < inject_Z k)%Q)
        by (change 0%Q with (inject_Z 0); rewrite <- Zlt_Qlt; lia).
      change (Z.pos 2) with 2.
      destruct (Z.compare_spec (2 * k) nb) as [E | L | G];
        cbn [Round.located]; change (inject_Z 0) with 0%Q.
      * assert (E' : (2 * inject_Z k == inject_Z nb)%Q)
          by (rewrite <- E, inject_Z_mult; reflexivity).
        nra.
      * apply Cmp in L. rewrite inject_Z_mult in L.
        change (inject_Z 2) with 2%Q in L. nra.
      * apply Cmp in G. rewrite inject_Z_mult in G.
        change (inject_Z 2) with 2%Q in G. nra.
  - unfold new_location_odd. destruct (Z.eqb_spec k 0) as [-> | Hk1].
    + cbn [Round.located]. change (inject_Z 0) with 0%Q in *. nra.
    + assert (Hk2 : (0 < inject_Z k)%Q)
        by (change 0%Q with (inject_Z 0); rewrite <- Zlt_Qlt; lia).
      assert (Hodd : 2 * k <> nb).
      { intros <-. rewrite Z.even_mul in Ev. discriminate. }
      change (Z.pos 2) with 2. change (Z.pos 1) with 1.
      destruct (Z.compare_spec (2 * k + 1) nb) as [E | L | G];
        cbn [Round.located]; change (inject_Z 0) with 0%Q.
      * assert (L : 2 * k < nb) by lia.
        apply Cmp in L. rewrite inject_Z_mult in L.
        change (inject_Z 2) with 2%Q in L. nra.
      * assert (L' : 2 * k < nb) by lia.
        apply Cmp in L'. rewrite inject_Z_mult in L'.
        change (inject_Z 2) with 2%Q in L'. nra.
      * assert (G' : nb < 2 * k) by lia.
        apply Cmp in G'. rewrite inject_Z_mult in G'.
        change (inject_Z 2) with 2%Q in G'. nra.
Qed.

Lemma located_shift m l u :
  Round.located 0 l u -> Round.located m l (inject_Z m + u).
Proof.
  destruct l as [| []]; cbn [Round.located]; change (inject_Z 0) with 0%Q;
    intros H; lra.
Qed.

Lemma SFdiv_rounds sx mx ex sy my ey :
  Round.rounds prec emax (xorb sx sy)
    (Round.value mx ex / Round.value my ey)
    (SFdiv prec emax (S754_finite sx mx ex) (S754_finite sy my ey)).
Proof.
  cbn [SFdiv]. unfold SFdiv_core_binary.
  set (d1 := Zdigits2 (Z.pos mx)). set (d2 := Zdigits2 (Z.pos my)).
  remember (Z.min (fexp prec emax (d1 + ex - (d2 + ey))) (ex - ey)) as e'
    eqn:Ee'.
  remember (ex - ey - e') as s eqn:Es.
  assert (Hs : 0 <= s) by lia.
  assert (Em : match s with
               | 0 => Z.pos mx
               | Z.pos _ => Z.shiftl (Z.pos mx) s
               | Z.neg _ => 0
               end = Z.pos mx * 2 ^ s).
  { destruct s as [| p | p]; [change (2 ^ 0) with 1; lia | | lia].
    apply Z.shiftl_mul_pow2. lia. }
  rewrite Em. clear Em.
  pose proof (Z_div_mod (Z.pos mx * 2 ^ s) (Z.pos my) ltac:(lia)) as Hdiv.
  destruct (Z.div_eucl (Z.pos mx * 2 ^ s) (Z.pos my)) as [qz r].
  destruct Hdiv as [Hqr Hr].
  assert (H2s : 0 < 2 ^ s) by (apply Z.pow_pos_nonneg; lia).
  assert (Hqz : 0 <= qz) by nia.
  assert (Hmy : (0 < inject_Z (Z.pos my))%Q)
    by (change 0%Q with (inject_Z 0); rewrite <- Zlt_Qlt; lia).
  apply (binary_round_aux_rounds prec emax Hprec).
  - exact Hqz.
  - eapply located_ext;
      [| apply (located_shift qz _ (inject_Z r / inject_Z (Z.pos my)));
         apply new_location_spec; [lia | exact Hr | field; lra]].
    unfold Round.value.
    assert (E1 : (Round.pow2 ex
                  == Round.pow2 ey * Round.pow2 e' * inject_Z (2 ^ s))%Q).
    { rewrite <- pow2_Z, <- !pow2_add by exact Hs.
      replace (ey + e' + s) with ex by lia. reflexivity. }
    assert (E2 : (inject_Z (Z.pos mx) * inject_Z (2 ^ s)
                  == inject_Z (Z.pos my) * inject_Z qz + inject_Z r)%Q).
    { rewrite <- !inject_Z_mult, <- inject_Z_plus, <- Hqr. reflexivity. }
    pose proof (pow2_pos ey). pose proof (pow2_pos e').
    rewrite E1.
    transitivity (inject_Z (Z.pos mx) * inject_Z (2 ^ s)
                  / inject_Z (Z.pos my))%Q.
    + rewrite E2. field. lra.
    + field. repeat split; lra.
  - fold d1 d2 in Ee'.
    assert (Hdz : d1 + s - d2 <= Zdigits2 qz).
    { pose proof (Zdigits2_nonneg qz).
      destruct (Z_le_gt_dec (d1 + s - d2) 0) as [Hle | Hgt]; [lia |].
      apply Zdigits2_ge; [exact Hqz | | lia].
      pose proof (Zdigits2_lower (Z.pos mx) ltac:(lia)) as H1.
      pose proof (Zdigits2_upper (Z.pos my) ltac:(lia)) as H2.
      fold d1 in H1. fold d2 in H2.
      assert (Hd1 : 1 <= d1) by (unfold d1; simpl; lia).
      assert (Hd2 : 1 <= d2) by (unfold d2; simpl; lia).
      assert (Hp : 2 ^ (d1 + s - d2 - 1) * 2 ^ d2 = 2 ^ (d1 - 1) * 2 ^ s).
      { rewrite <- !Z.pow_add_r by lia. f_equal. lia. }
      assert (Hk : 0 < 2 ^ (d1 + s - d2 - 1))
        by (apply Z.pow_pos_nonneg; lia).
      destruct (Z_le_gt_dec (2 ^ (d1 + s - d2 - 1)) qz) as [Hok | Hbad];
        [exact Hok |].
      exfalso.
      assert (Z.pos my * qz + r < Z.pos my * 2 ^ (d1 + s - d2 - 1)) by nia.
      assert (2 ^ (d1 + s - d2 - 1) * Z.pos my
              < 2 ^ (d1 + s - d2 - 1) * 2 ^ d2) by nia.
      nia. }
    apply Z.le_trans with (fexp prec emax (d1 + ex - (d2 + ey))); [lia |].
    apply fexp_mono. lia.
Qed.

End Operations.

(** ** Powers of ten *)

Lemma pow10_pos e : (0 < Round.pow10 e)%Q.
Proof. apply Qpower_0_lt. reflexivity. Qed.

Lemma pow10_add a b : (Round.pow10 (a + b) == Round.pow10 a * Round.pow10 b)%Q.
Proof. apply Qpower_plus. discriminate. Qed.

Lemma pow10_Z e : 0 <= e -> (Round.pow10 e == inject_Z (10 ^ e))%Q.
Proof. intros H. symmetry. apply (Zpower_Qpower 10 e H). Qed.

Lemma pow10_opp e : (Round.pow10 (- e) == / Round.pow10 e)%Q.
Proof. apply Qpower_opp. Qed.

Lemma pow10_le a b : a <= b -> (Round.pow10 a <= Round.pow10 b)%Q.
Proof. intros H. apply Qpower_le_compat_l; [exact H | discriminate]. Qed.

(** ** Rounding respects equality of rationals *)

Lemma rounds_ext prec emax s q q' r :
  (q == q')%Q -> Round.rounds prec emax s q r -> Round.rounds prec emax s q' r.
Proof.
  intros E (e & m & (H1 & H2 & H3) & Hn & ->). exists e, m.
  split; [| split; [| reflexivity]].
  - split; [exact H1 |]. split; [lra |].
    destruct H3 as [H3 | H3]; [left; exact H3 | right; lra].
  - eapply nearest_even_ext; [| exact Hn]. rewrite E. reflexivity.
Qed.

(** ** A decimal close to a binary64 number rounds to it *)

Lemma rounds_near m e q :
  bounded 53 1024 m e = true ->
  (Round.value m e * (1 - (1 # 20000000000000000)) <= q)%Q ->
  (q <= Round.value m e * (1 + (1 # 20000000000000000)))%Q ->
  Round.rounds 53 1024 false q (S754_finite false m e).
Proof.
  intros Hb Hlo Hhi.
  pose proof Hb as Hb'. unfold bounded, canonical_mantissa in Hb'.
  apply andb_true_iff in Hb' as [Hc He]. apply Z.eqb_eq in Hc.
  apply Z.leb_le in He.
  pose proof (digits2_pos_bounds m) as [Hd1 Hd2].
  set (dg := Z.pos (digits2_pos m)) in *.
  assert (Hdg : 1 <= dg) by (unfold dg; lia).
  unfold fexp, emin in Hc.
  assert (Hm53 : Z.pos m < 9007199254740992).
  { change 9007199254740992 with (2 ^ 53).
    eapply Z.lt_le_trans; [exact Hd2 |]. apply Z.pow_le_mono_r; lia. }
  pose proof (pow2_pos e) as Hpe.
  set (t := (q / Round.pow2 e)%Q).
  assert (Et : (t * Round.pow2 e == q)%Q) by (unfold t; field; lra).
  assert (Hm0 : (1 <= inject_Z (Z.pos m))%Q)
    by (change 1%Q with (inject_Z 1); rewrite <- Zle_Qle; lia).
  assert (Hm1 : (inject_Z (Z.pos m) <= 9007199254740991)%Q).
  { change 9007199254740991%Q with (inject_Z 9007199254740991).
    rewrite <- Zle_Qle. lia. }
  unfold Round.value in Hlo, Hhi.
  assert (Ht1 : (inject_Z (Z.pos m) * (1 - (1 # 20000000000000000)) <= t)%Q)
    by nra.
  assert (Ht2 : (t <= inject_Z (Z.pos m) * (1 + (1 # 20000000000000000)))%Q)
    by nra.
  assert (Hnear : Round.nearest_even t (Z.pos m)).
  { split; [lra |]. intros [E | E]; lra. }
  destruct (Qlt_le_dec t 4503599627370496) as [Hsmall | Hbig].
  - (* below 2^52 *)
    destruct (Z.eq_dec e (-1074)) as [Ee | Ene].
    + exists e, (Z.pos m). split; [| split; [exact Hnear |]].
      * split; [unfold emin; lia |]. split; [| left; unfold emin; lia].
        replace (e + 53) with (53 + e) by lia.
        apply (proj1 (div_pow2_lt q e 53)).
        fold t. change (Round.pow2 53) with 9007199254740992%Q. lra.
      * symmetry. apply finish_canonical. exact Hb.
    + assert (Edg : dg = 53) by lia.
      assert (Hm52 : 4503599627370496 <= Z.pos m).
      { change 4503599627370496 with (2 ^ (53 - 1)). rewrite <- Edg.
        exact Hd1. }
      assert (Hm2 : (4503599627370496 <= inject_Z (Z.pos m))%Q).
      { change 4503599627370496%Q with (inject_Z 4503599627370496).
        rewrite <- Zle_Qle. exact Hm52. }
      assert (Em : Z.pos m = 4503599627370496).
      { destruct (Z.eq_dec (Z.pos m) 4503599627370496) as [E | Hne];
          [exact E | exfalso].
        assert (Hm3 : (4503599627370497 <= inject_Z (Z.pos m))%Q).
        { change 4503599627370497%Q with (inject_Z 4503599627370497).
          rewrite <- Zle_Qle. lia. }
        lra. }
      exists (e - 1), 9007199254740992.
      split; [| split].
      * split; [unfold emin; lia |]. split.
        -- replace (e - 1 + 53) with (52 + e) by lia.
           apply (proj1 (div_pow2_lt q e 52)). fold t.
           change (Round.pow2 52) with 4503599627370496%Q. exact Hsmall.
        -- right. replace (e - 1 + 53 - 1) with (51 + e) by lia.
           apply (proj1 (div_pow2_le q e 51)). fold t.
           change (Round.pow2 51) with 2251799813685248%Q. lra.
      * assert (E2 : (q / Round.pow2 (e - 1) == 2 * t)%Q).
        { unfold t. replace e with ((e - 1) + 1) at 2 by lia.
          rewrite pow2_succ. pose proof (pow2_pos (e - 1)). field. lra. }
        eapply nearest_even_ext; [symmetry; exact E2 |].
        rewrite Em in Ht1, Ht2.
        change (inject_Z 4503599627370496) with 4503599627370496%Q in *.
        split; [change (inject_Z 9007199254740992) with 9007199254740992%Q;
                lra |].
        change (inject_Z 9007199254740992) with 9007199254740992%Q.
        intros [E | E]; lra.
      * change 9007199254740992 with (2 ^ 53).
        rewrite finish_carry by (unfold emin; lia).
        replace (e - 1 + 1) with e by lia.
        change (2 ^ (53 - 1)) with 4503599627370496. rewrite <- Em.
        reflexivity.
  - exists e, (Z.pos m). split; [| split; [exact Hnear |]].
    + split; [unfold emin; lia |]. split.
      * replace (e + 53) with (53 + e) by lia.
        apply (proj1 (div_pow2_lt q e 53)).
        fold t. change (Round.pow2 53) with 9007199254740992%Q. lra.
      * right. replace (e + 53 - 1) with (52 + e) by lia.
        apply (proj1 (div_pow2_le q e 52)). fold t.
        change (Round.pow2 52) with 4503599627370496%Q. exact Hbig.
    + symmetry. apply finish_canonical. exact Hb.
Qed.

(** ** Reading a decimal *)

Lemma inject_Z_pos_pow (b p : positive) :
  inject_Z (Z.pos (b ^ p)) = inject_Z (Z.pos b ^ Z.pos p).
Proof. rewrite Pos2Z.inj_pow. reflexivity. Qed.

Lemma value_0 m : (Round.value m 0 == inject_Z (Z.pos m))%Q.
Proof. unfold Round.value. rewrite pow2_0. ring. Qed.

(** [of_decimal] gives the number of the format nearest to [d * 10^k]. *)
Lemma of_decimal_rounds prec emax s d k :
  0 < prec ->
  Round.rounds prec emax s (inject_Z (Z.pos d) * Round.pow10 k)
    (Float.of_decimal prec emax s d k).
Proof.
  intros Hprec. unfold Float.of_decimal. destruct k as [| p | p].
  - eapply rounds_ext; [| apply binary_round_rounds; exact Hprec].
    rewrite value_0. change (Round.pow10 0) with 1%Q. ring.
  - eapply rounds_ext; [| apply binary_round_rounds; exact Hprec].
    rewrite value_0, pow10_Z by lia.
    rewrite Pos2Z.inj_mul, inject_Z_mult, inject_Z_pos_pow. reflexivity.
  - pose proof (SFdiv_rounds prec emax Hprec s d 0 false (10 ^ p) 0) as H.
    rewrite Bool.xorb_false_r in H.
    eapply rounds_ext; [| exact H].
    rewrite !value_0, inject_Z_pos_pow.
    change (Z.neg p) with (- Z.pos p). rewrite pow10_opp, pow10_Z by lia.
    reflexivity.
Qed.

(** ** The shortest decimal of a number *)

Lemma fraction_value m e :
  let '(num, den) := Float.fraction m e in
  (Round.value m e == inject_Z (Z.pos num) / inject_Z (Z.pos den))%Q.
Proof.
  unfold Float.fraction, Round.value. destruct e as [| p | p].
  - rewrite pow2_0. change (inject_Z 1) with 1%Q. field.
  - rewrite pow2_Z by lia. rewrite Pos2Z.inj_mul, inject_Z_mult, inject_Z_pos_pow.
    change (inject_Z 1) with 1%Q. field.
  - change (Z.neg p) with (- Z.pos p). unfold Round.pow2.
    rewrite Qpower_opp. fold (Round.pow2 (Z.pos p)).
    rewrite pow2_Z by lia. rewrite inject_Z_pos_pow. reflexivity.
Qed.

Lemma scale10_value num den s :
  let '(a, b) := Float.scale10 num den s in
  (inject_Z (Z.pos a) / inject_Z (Z.pos b)
   == inject_Z (Z.pos num) / inject_Z (Z.pos den) * Round.pow10 s)%Q.
Proof.
  assert (Hpos : forall x : positive, (0 < inject_Z (Z.pos x))%Q).
  { intros x. change 0%Q with (inject_Z 0). rewrite <- Zlt_Qlt. lia. }
  pose proof (Hpos num). pose proof (Hpos den).
  unfold Float.scale10. destruct s as [| p | p].
  - change (Round.pow10 0) with 1%Q. field. lra.
  - rewrite pow10_Z by lia. rewrite Pos2Z.inj_mul, inject_Z_mult, inject_Z_pos_pow.
    field. lra.
  - change (Z.neg p) with (- Z.pos p). rewrite pow10_opp, pow10_Z by lia.
    rewrite Pos2Z.inj_mul, inject_Z_mult, inject_Z_pos_pow.
    pose proof (Hpos (10 ^ p)%positive) as H10.
    rewrite inject_Z_pos_pow in H10. field. split; lra.
Qed.

Lemma magnitude_above_spec fuel :
  forall q p v,
    1 <= q ->
    (inject_Z q * Round.pow10 (p - 1) <= v)%Q ->
    (Round.pow10 (Float.magnitude_above fuel q p - 1) <= v)%Q.
Proof.
  assert (Hone : forall q p v, 1 <= q ->
                   (inject_Z q * Round.pow10 (p - 1) <= v)%Q ->
                   (Round.pow10 (p - 1) <= v)%Q).
  { intros q p v Hq Hv. pose proof (pow10_pos (p - 1)).
    assert ((1 <= inject_Z q)%Q)
      by (change 1%Q with (inject_Z 1); rewrite <- Zle_Qle; exact Hq).
    nra. }
  induction fuel as [| fuel IH]; intros q p v Hq Hv; cbn [Float.magnitude_above].
  - eapply Hone; eassumption.
  - destruct (Z.ltb_spec q 10) as [Hlt | Hge]; [eapply Hone; eassumption |].
    apply IH.
    + apply Z.div_le_lower_bound; lia.
    + replace (p + 1 - 1) with ((p - 1) + 1) by lia.
      rewrite pow10_add. change (Round.pow10 1) with 10%Q.
      pose proof (pow10_pos (p - 1)).
      assert (Hq10 : (inject_Z (q / 10) * 10 <= inject_Z q)%Q).
      { change 10%Q with (inject_Z 10).
        rewrite <- inject_Z_mult, <- Zle_Qle.
        pose proof (Z.mul_div_le q 10 ltac:(lia)). lia. }
      nra.
Qed.

Lemma magnitude_below_spec fuel :
  forall num den p v,
    (num < den)%positive ->
    Z.pos den <= Z.pos num * 10 ^ Z.of_nat fuel ->
    (inject_Z (Z.pos num) / inject_Z (Z.pos den) == v * Round.pow10 (- p))%Q ->
    (Round.pow10 (Float.magnitude_below fuel num den p - 1) <= v)%Q.
Proof.
  assert (Hpos : forall x : positive, (0 < inject_Z (Z.pos x))%Q).
  { intros x. change 0%Q with (inject_Z 0). rewrite <- Zlt_Qlt. lia. }
  induction fuel as [| fuel IH]; intros num den p v Hlt Hfuel Hv;
    cbn [Float.magnitude_below].
  - change (10 ^ Z.of_nat 0) with 1 in Hfuel. lia.
  - destruct (Pos.leb_spec den (num * 10)) as [Hle | Hgt].
    + pose proof (Hpos num). pose proof (Hpos den).
      assert (H10 : (inject_Z (Z.pos den) <= inject_Z (Z.pos num) * 10)%Q).
      { change 10%Q with (inject_Z 10).
        rewrite <- inject_Z_mult, <- Zle_Qle. lia. }
      replace (p - 1) with (p + - (1)) by lia.
      rewrite pow10_add. change (Round.pow10 (- (1))) with (1 # 10)%Q.
      assert (Ep : (Round.pow10 p * Round.pow10 (- p) == 1)%Q).
      { rewrite <- pow10_add. replace (p + - p) with 0 by lia. reflexivity. }
      pose proof (pow10_pos p). pose proof (pow10_pos (- p)).
      assert (Hu : (inject_Z (Z.pos num)
                    == v * Round.pow10 (- p) * inject_Z (Z.pos den))%Q).
      { rewrite <- Hv. field. lra. }
      set (A := Round.pow10 p) in *. set (B := Round.pow10 (- p)) in *.
      set (n := inject_Z (Z.pos num)) in *.
      set (dn := inject_Z (Z.pos den)) in *.
      assert (Hvb : (1 # 10 <= v * B)%Q) by nra.
      nra.
    + apply IH.
      * lia.
      * rewrite Nat2Z.inj_succ, Z.pow_succ_r in Hfuel by lia. lia.
      * rewrite Pos2Z.inj_mul, inject_Z_mult.
        replace (- (p - 1)) with (- p + 1) by lia.
        rewrite pow10_add. change (Round.pow10 1) with 10%Q.
        change (inject_Z 10) with 10%Q.
        pose proof (Hpos den).
        transitivity (inject_Z (Z.pos num) / inject_Z (Z.pos den) * 10)%Q;
          [field; lra |].
        rewrite Hv. ring.
Qed.

Lemma pos_size_pow10 den : Z.pos den <= 10 ^ Z.of_nat (Pos.to_nat (Pos.size den)).
Proof.
  rewrite positive_nat_Z.
  pose proof (Pos.size_gt den) as H.
  apply Pos2Z.pos_lt_pos in H. rewrite Pos2Z.inj_pow in H.
  assert (2 ^ Z.pos (Pos.size den) <= 10 ^ Z.pos (Pos.size den))
    by (apply Z.pow_le_mono_l; lia).
  lia.
Qed.

(** The magnitude is not above the number: [10^(p-1) <= num/den]. *)
Lemma magnitude_spec num den :
  (Round.pow10 (Float.magnitude num den - 1)
   <= inject_Z (Z.pos num) / inject_Z (Z.pos den))%Q.
Proof.
  assert (Hpos : forall x : positive, (0 < inject_Z (Z.pos x))%Q).
  { intros x. change 0%Q with (inject_Z 0). rewrite <- Zlt_Qlt. lia. }
  pose proof (Hpos num). pose proof (Hpos den).
  unfold Float.magnitude. destruct (Pos.leb_spec den num) as [Hle | Hgt].
  - apply magnitude_above_spec.
    + apply Z.div_le_lower_bound; lia.
    + change (Round.pow10 (1 - 1)) with 1%Q.
      apply Qle_shift_div_l; [lra |].
      rewrite Qmult_1_r, <- inject_Z_mult, <- Zle_Qle.
      pose proof (Z.mul_div_le (Z.pos num) (Z.pos den) ltac:(lia)). lia.
  - apply magnitude_below_spec.
    + exact Hgt.
    + pose proof (pos_size_pow10 den). nia.
    + change (Round.pow10 (- 0)) with 1%Q. ring.
Qed.

(** The first of the two neighbours is the nearer one. *)
Lemma neighbours_hd num den p n :
  exists c0,
    hd (0, 0) (Float.neighbours num den p n) = (c0, p - n)
    /\ (inject_Z c0 - (1 # 2)
        <= inject_Z (Z.pos num) / inject_Z (Z.pos den) * Round.pow10 (n - p))%Q
    /\ (inject_Z (Z.pos num) / inject_Z (Z.pos den) * Round.pow10 (n - p)
        <= inject_Z c0 + (1 # 2))%Q.
Proof.
  unfold Float.neighbours.
  pose proof (scale10_value num den (n - p)) as Hs.
  destruct (Float.scale10 num den (n - p)) as [a b].
  revert Hs.
  generalize (inject_Z (Z.pos num) / inject_Z (Z.pos den)
              * Round.pow10 (n - p))%Q.
  intros w Hs.
  assert (Hb : (0 < inject_Z (Z.pos b))%Q)
    by (change 0%Q with (inject_Z 0); rewrite <- Zlt_Qlt; lia).
  pose proof (Z.div_mod (Z.pos a) (Z.pos b) ltac:(lia)) as Hdm.
  pose proof (Z.mod_pos_bound (Z.pos a) (Z.pos b) ltac:(lia)) as Hr.
  set (lo := Z.pos a / Z.pos b) in *. set (r := Z.pos a mod Z.pos b) in *.
  assert (Ea : (inject_Z (Z.pos a) / inject_Z (Z.pos b)
                == inject_Z lo + inject_Z r / inject_Z (Z.pos b))%Q).
  { rewrite Hdm at 1. rewrite inject_Z_plus, inject_Z_mult. field. lra. }
  assert (Ew : (w == inject_Z lo + inject_Z r / inject_Z (Z.pos b))%Q)
    by (rewrite <- Hs; exact Ea).
  clear Ea Hs.
  assert (Eu : (inject_Z r / inject_Z (Z.pos b) * inject_Z (Z.pos b)
                == inject_Z r)%Q) by (field; lra).
  revert Ew Eu. generalize (inject_Z r / inject_Z (Z.pos b))%Q. intros u Ew Eu.
  assert (Hr0 : (0 <= inject_Z r)%Q)
    by (change 0%Q with (inject_Z 0); rewrite <- Zle_Qle; lia).
  assert (Hr1 : (inject_Z r < inject_Z (Z.pos b))%Q)
    by (rewrite <- Zlt_Qlt; lia).
  destruct (Z.leb_spec (2 * r) (Z.pos b)) as [Hle | Hgt].
  - exists lo. split; [reflexivity |].
    assert (H2 : (2 * inject_Z r <= inject_Z (Z.pos b))%Q).
    { change 2%Q with (inject_Z 2). rewrite <- inject_Z_mult, <- Zle_Qle.
      exact Hle. }
    split; nra.
  - exists (lo + 1). split; [reflexivity |].
    assert (H2 : (inject_Z (Z.pos b) < 2 * inject_Z r)%Q).
    { change 2%Q with (inject_Z 2). rewrite <- inject_Z_mult, <- Zlt_Qlt.
      exact Hgt. }
    rewrite inject_Z_plus. change (inject_Z 1) with 1%Q. split; nra.
Qed.

Lemma shortest_from_cases prec emax x num den p fuel :
  forall n,
    Float.reads_as prec emax x (Float.shortest_from prec emax fuel x num den p n)
    = true
    \/ Float.shortest_from prec emax fuel x num den p n
       = hd (0, 0) (Float.neighbours num den p (n + Z.of_nat fuel)).
Proof.
  induction fuel as [| fuel IH]; intros n; cbn [Float.shortest_from].
  - right. rewrite Z.add_0_r. reflexivity.
  - destruct (filter (fun c => Is_true (Float.reads_as prec emax x c))
                (Float.neighbours num den p n)) as [| c l] eqn:E.
    + destruct (IH (n + 1)) as [H | H]; [left; exact H | right].
      rewrite H. f_equal. f_equal. lia.
    + left.
      assert (Hc : c ∈ filter (fun c => Is_true (Float.reads_as prec emax x c))
                     (Float.neighbours num den p n))
        by (rewrite E; left).
      apply list_elem_of_filter in Hc as [Hc _].
      apply Is_true_true. exact Hc.
Qed.

Lemma same_eq x y : Float.same x y = true -> x = y.
Proof.
  destruct x as [a | a | | a m e], y as [b | b | | b n f]; simpl;
    try discriminate; try reflexivity.
  - intros H. apply Bool.eqb_prop in H. congruence.
  - intros H. apply Bool.eqb_prop in H. congruence.
  - intros H. apply andb_true_iff in H as [H He].
    apply andb_true_iff in H as [Hs Hm].
    apply Bool.eqb_prop in Hs. apply Pos.eqb_eq in Hm. apply Z.eqb_eq in He.
    congruence.
Qed.

(** The decimal [repr] writes for a binary64 number rounds to it. *)
Lemma shortest_rounds m e :
  bounded 53 1024 m e = true ->
  exists d k,
    Float.shortest 53 1024 17 m e = (Z.pos d, k)
    /\ Round.rounds 53 1024 false (inject_Z (Z.pos d) * Round.pow10 k)
         (S754_finite false m e).
Proof.
  intros Hb. unfold Float.shortest.
  pose proof (fraction_value m e) as Hv.
  destruct (Float.fraction m e) as [num den].
  pose proof (magnitude_spec num den) as Hmag.
  set (p := Float.magnitude num den) in *.
  destruct (shortest_from_cases 53 1024 (S754_finite false m e) num den p
              (Nat.pred 17) 1) as [H | H].
  - unfold Float.reads_as in H.
    destruct (Float.shortest_from 53 1024 (Nat.pred 17)
                (S754_finite false m e) num den p 1) as [c k].
    cbn [fst snd] in H. destruct c as [| d | d]; try discriminate.
    exists d, k. split; [reflexivity |].
    apply same_eq in H. rewrite <- H.
    apply of_decimal_rounds. lia.
  - rewrite H. change (1 + Z.of_nat (Nat.pred 17)) with 17.
    destruct (neighbours_hd num den p 17) as (c0 & E & Hlo & Hhi).
    rewrite E.
    assert (Hpos : forall x : positive, (0 < inject_Z (Z.pos x))%Q).
    { intros x. change 0%Q with (inject_Z 0). rewrite <- Zlt_Qlt. lia. }
    set (v := (inject_Z (Z.pos num) / inject_Z (Z.pos den))%Q) in *.
    assert (E16 : (Round.pow10 (17 - p) * Round.pow10 (p - 1)
                   == 10000000000000000)%Q).
    { rewrite <- pow10_add. replace (17 - p + (p - 1)) with 16 by lia.
      reflexivity. }
    assert (E17 : (Round.pow10 (17 - p) * Round.pow10 (p - 17) == 1)%Q).
    { rewrite <- pow10_add. replace (17 - p + (p - 17)) with 0 by lia.
      reflexivity. }
    pose proof (pow10_pos (17 - p)) as HA.
    pose proof (pow10_pos (p - 17)) as HB.
    pose proof (pow10_pos (p - 1)) as HC.
    set (A := Round.pow10 (17 - p)) in *.
    set (B := Round.pow10 (p - 17)) in *.
    set (C := Round.pow10 (p - 1)) in *.
    assert (HvA : (10000000000000000 <= v * A)%Q) by nra.
    assert (Hc0 : 0 < c0).
    { apply Z.lt_le_trans with 1; [lia |].
      destruct (Z_lt_le_dec c0 1) as [Hlt | Hge]; [| exact Hge].
      exfalso.
      assert ((inject_Z c0 <= 0)%Q)
        by (change 0%Q with (inject_Z 0); rewrite <- Zle_Qle; lia).
      lra. }
    destruct c0 as [| d | d]; try lia.
    exists d, (p - 17). split; [reflexivity |].
    apply rounds_near; [exact Hb | |]; rewrite Hv; fold v; fold B.
    + set (c := inject_Z (Z.pos d)) in *.
      assert (Hvb : (v == v * A * B)%Q) by (rewrite <- Qmult_assoc, E17; ring).
      assert (Hd : (c * B <= v * A * B + (1 # 2) * B)%Q) by nra.
      assert (Hd2 : ((1 # 2) * B * 20000000000000000 <= v * A * B)%Q) by nra.
      nra.
    + set (c := inject_Z (Z.pos d)) in *.
      assert (Hvb : (v == v * A * B)%Q) by (rewrite <- Qmult_assoc, E17; ring).
      assert (Hd : (v * A * B - (1 # 2) * B <= c * B)%Q) by nra.
      assert (Hd2 : ((1 # 2) * B * 20000000000000000 <= v * A * B)%Q) by nra.
      nra.
Qed.

(** ** The result of a division is a number of the format *)

Section Valid.
Variables prec emax : Z.
Hypothesis Hprec : 0 < prec.

Lemma finish_valid s m e :
  0 <= m <= 2 ^ prec ->
  emin prec emax <= e ->
  e = emin prec emax \/ 2 ^ (prec - 1) <= m ->
  valid_binary prec emax (Round.finish prec emax s m e) = true.
Proof.
  intros Hm He Hnorm.
  assert (Hp : 0 < 2 ^ (prec - 1)) by (apply Z.pow_pos_nonneg; lia).
  assert (E2 : 2 ^ prec = 2 * 2 ^ (prec - 1)).
  { replace prec with (prec - 1 + 1) at 1 by lia.
    rewrite Z.pow_add_r by lia. change (2 ^ 1) with 2. lia. }
  destruct (Z.eq_dec m (2 ^ prec)) as [-> | Hne].
  - (* a carry into the next binade *)
    unfold Round.finish, shr_fexp, shr.
    assert (Hd : Zdigits2 (2 ^ prec) = prec + 1).
    { apply Z.le_antisymm.
      - apply Zdigits2_le; [lia | | lia].
        rewrite Z.pow_add_r by lia. lia.
      - apply Zdigits2_ge; [lia | | lia].
        replace (prec + 1 - 1) with prec by lia. lia. }
    rewrite Hd.
    replace (fexp prec emax (prec + 1 + e) - e) with 1 by (unfold fexp; lia).
    cbn [SpecFloat.iter_pos shr_record_of_loc].
    destruct (shr_1_spec (Build_shr_record (2 ^ prec) false false)
                (inject_Z (2 ^ prec))) as [_ E].
    + cbn [shr_m]. lia.
    + cbn [shr_m loc_of_shr_record Round.located]. reflexivity.
    + cbn [shr_m] in E. rewrite E.
      assert (E3 : 2 ^ prec / 2 = 2 ^ (prec - 1)).
      { rewrite E2. rewrite Z.mul_comm. apply Z.div_mul. lia. }
      rewrite E3.
      destruct (2 ^ (prec - 1)) as [| p | p] eqn:Ep; [lia | | lia].
      destruct (Z.leb_spec (e + 1) (emax - prec)) as [Hle | Hgt];
        [| reflexivity].
      cbn [valid_binary]. unfold bounded, canonical_mantissa.
      apply andb_true_iff. split; [| apply Z.leb_le; exact Hle].
      apply Z.eqb_eq.
      assert (Hdp : Z.pos (digits2_pos p) = prec).
      { change (Z.pos (digits2_pos p)) with (Zdigits2 (Z.pos p)).
        rewrite <- Ep. apply Z.le_antisymm.
        - apply Zdigits2_le; [lia | | lia]. lia.
        - apply Zdigits2_ge; [lia | lia | lia]. }
      rewrite Hdp. unfold fexp. lia.
  - unfold Round.finish, shr_fexp, shr.
    assert (Hdg : Zdigits2 m <= prec).
    { apply Zdigits2_le; lia. }
    pose proof (Zdigits2_nonneg m) as Hd0.
    assert (Hn : fexp prec emax (Zdigits2 m + e) - e <= 0)
      by (unfold fexp; lia).
    destruct (fexp prec emax (Zdigits2 m + e) - e) as [| p | p] eqn:En;
      [| lia |].
    + cbn [shr_record_of_loc shr_m].
      destruct m as [| p | p]; [reflexivity | | lia].
      destruct (Z.leb_spec e (emax - prec)) as [Hle | Hgt]; [| reflexivity].
      cbn [valid_binary]. unfold bounded, canonical_mantissa.
      apply andb_true_iff. split; [| apply Z.leb_le; exact Hle].
      apply Z.eqb_eq. cbn [Zdigits2] in En. lia.
    + cbn [shr_record_of_loc shr_m].
      destruct m as [| q | q]; [reflexivity | | lia].
      destruct (Z.leb_spec e (emax - prec)) as [Hle | Hgt]; [| reflexivity].
      cbn [valid_binary]. unfold bounded, canonical_mantissa.
      apply andb_true_iff. split; [| apply Z.leb_le; exact Hle].
      apply Z.eqb_eq. cbn [Zdigits2] in *.
      destruct Hnorm as [-> | Hbig]; [unfold fexp in *; lia |].
      assert (prec <= Z.pos (digits2_pos q)).
      { change (Z.pos (digits2_pos q)) with (Zdigits2 (Z.pos q)).
        apply Zdigits2_ge; lia. }
      unfold fexp in *. lia.
Qed.

Lemma rounds_valid s q r :
  (0 <= q)%Q ->
  Round.rounds prec emax s q r ->
  valid_binary prec emax r = true.
Proof.
  intros Hq (e & m & (He & Hup & Hlow) & [[Hn1 Hn2] _] & ->).
  pose proof (pow2_pos e) as Hpe.
  assert (Ht0 : (0 <= q / Round.pow2 e)%Q).
  { apply Qle_shift_div_l; [exact Hpe | lra]. }
  assert (Ht1 : (q / Round.pow2 e < Round.pow2 prec)%Q).
  { apply div_pow2_lt. replace (prec + e) with (e + prec) by lia. exact Hup. }
  pose proof (pow2_Z prec ltac:(lia)) as Ep.
  apply finish_valid.
  - split.
    + destruct (Z_lt_le_dec m 0) as [Hneg | Hok]; [exfalso | exact Hok].
      assert ((inject_Z m <= - (1))%Q).
      { change (- (1))%Q with (inject_Z (-1)). rewrite <- Zle_Qle. lia. }
      lra.
    + destruct (Z_lt_le_dec (2 ^ prec) m) as [Hbig | Hok]; [exfalso | exact Hok].
      assert ((inject_Z (2 ^ prec) + 1 <= inject_Z m)%Q).
      { change 1%Q with (inject_Z 1). rewrite <- inject_Z_plus, <- Zle_Qle.
        lia. }
      lra.
  - exact He.
  - destruct Hlow as [-> | Hlow]; [left; reflexivity | right].
    assert (Ht2 : (Round.pow2 (prec - 1) <= q / Round.pow2 e)%Q).
    { apply div_pow2_le. replace (prec - 1 + e) with (e + prec - 1) by lia.
      exact Hlow. }
    pose proof (pow2_Z (prec - 1) ltac:(lia)) as Ep1.
    destruct (Z_lt_le_dec m (2 ^ (prec - 1))) as [Hsmall | Hok];
      [exfalso | exact Hok].
    assert ((inject_Z m + 1 <= inject_Z (2 ^ (prec - 1)))%Q).
    { change 1%Q with (inject_Z 1). rewrite <- inject_Z_plus, <- Zle_Qle.
      lia. }
    lra.
Qed.

Lemma value_pos m e : (0 < Round.value m e)%Q.
Proof.
  unfold Round.value. pose proof (pow2_pos e).
  assert ((0 < inject_Z (Z.pos m))%Q)
    by (change 0%Q with (inject_Z 0); rewrite <- Zlt_Qlt; lia).
  nra.
Qed.

(** Whatever is divided, the quotient is a number of the format. *)
Lemma SFdiv_valid a b : valid_binary prec emax (SFdiv prec emax a b) = true.
Proof.
  destruct a as [sa | sa | | sa ma ea], b as [sb | sb | | sb mb eb];
    try reflexivity.
  apply (rounds_valid (xorb sa sb) (Round.value ma ea / Round.value mb eb)).
  - pose proof (value_pos ma ea). pose proof (value_pos mb eb).
    apply Qle_shift_div_l; [assumption | lra].
  - apply SFdiv_rounds. exact Hprec.
Qed.

End Valid.

(** The two numbers of a reduced point are binary64 numbers. *)
Lemma findPoints_valid coordinates x y :
  findPoints coordinates = Ok (Some [x; y]) ->
  valid_binary 53 1024 x = true /\ valid_binary 53 1024 y = true.
Proof.
  destruct coordinates as [| b rest]; [discriminate |].
  rewrite findPoints_cons.
  destruct (Float.is_zero (xmax b) || Float.is_zero (ymax b))%bool;
    [discriminate |].
  unfold reduce_point. intros [= <- <-].
  split; apply SFdiv_valid; lia.
Qed.

(** ** The digits of a number *)

Lemma forallb_str_app p a b :
  Text.forallb_str p (a +:+ b)
  = (Text.forallb_str p a && Text.forallb_str p b)%bool.
Proof.
  induction a as [| c a IH]; [reflexivity |].
  rewrite append_cons. simpl. rewrite IH, andb_assoc. reflexivity.
Qed.

Lemma string_length_app (a b : string) :
  String.length (a +:+ b) = (String.length a + String.length b)%nat.
Proof.
  induction a as [| c a IH]; [reflexivity |].
  rewrite append_cons. simpl. rewrite IH. reflexivity.
Qed.

Lemma decimal_value_app acc a b :
  Text.decimal_value acc (a +:+ b)
  = Text.decimal_value (Text.decimal_value acc a) b.
Proof.
  revert acc. induction a as [| c a IH]; intros acc; [reflexivity |].
  rewrite append_cons. simpl. apply IH.
Qed.

Lemma decimal_value_acc acc s :
  Text.decimal_value acc s
  = acc * 10 ^ Z.of_nat (String.length s) + Text.decimal_value 0 s.
Proof.
  revert acc. induction s as [| c s IH]; intros acc.
  - simpl. lia.
  - cbn [Text.decimal_value String.length].
    rewrite IH, (IH (10 * 0 + Text.digit_value c)).
    rewrite Nat2Z.inj_succ, Z.pow_succ_r by lia. ring.
Qed.

Lemma digit_char_spec d :
  0 <= d < 10 ->
  Text.isdecimal (Text.digit_char d) = true
  /\ Text.digit_value (Text.digit_char d) = d
  /\ Ascii.eqb (Text.digit_char d) "0" = (d =? 0).
Proof.
  intros H.
  assert (d = 0 \/ d = 1 \/ d = 2 \/ d = 3 \/ d = 4 \/ d = 5 \/ d = 6
          \/ d = 7 \/ d = 8 \/ d = 9) as Hd by lia.
  repeat (destruct Hd as [-> | Hd]; [repeat split; reflexivity |]).
  subst. repeat split; reflexivity.
Qed.

(** What [digits_from] puts before the digits it was given. *)
Lemma digits_from_spec fuel :
  forall n acc,
    fuel <> O ->
    0 <= n < 10 ^ Z.of_nat fuel ->
    exists c r,
      Text.digits_from fuel n acc = String c r +:+ acc
      /\ Text.forallb_str Text.isdecimal (String c r) = true
      /\ Text.decimal_value 0 (String c r) = n
      /\ Ascii.eqb c "0" = (n =? 0).
Proof.
  induction fuel as [| fuel IH]; intros n acc Hf Hn; [congruence |].
  cbn [Text.digits_from].
  pose proof (Z.mod_pos_bound n 10 ltac:(lia)) as Hmod.
  destruct (digit_char_spec (n mod 10) Hmod) as (Hc1 & Hc2 & Hc3).
  destruct (Z.ltb_spec n 10) as [Hlt | Hge].
  - exists (Text.digit_char (n mod 10)), EmptyString.
    rewrite Z.mod_small in * by lia.
    split; [reflexivity |]. split; [simpl; rewrite Hc1; reflexivity |].
    split; [simpl; rewrite Hc2; lia | exact Hc3].
  - assert (Hq : 0 <= n / 10 < 10 ^ Z.of_nat fuel).
    { rewrite Nat2Z.inj_succ, Z.pow_succ_r in Hn by lia.
      split; [apply Z.div_pos; lia |].
      apply Z.div_lt_upper_bound; lia. }
    assert (Hf' : fuel <> O).
    { intros ->. change (10 ^ Z.of_nat 0) with 1 in Hq.
      assert (0 < n / 10) by (apply Z.div_str_pos; lia). lia. }
    destruct (IH (n / 10) (String (Text.digit_char (n mod 10)) acc) Hf' Hq)
      as (c & r & E & Hd & Hv & Hz).
    exists c, (r +:+ String (Text.digit_char (n mod 10)) EmptyString).
    split.
    + rewrite E. rewrite !append_cons, append_assoc, append_cons, append_nil_l.
      reflexivity.
    + change (String c (r +:+ String (Text.digit_char (n mod 10)) EmptyString))
        with (String c r +:+ String (Text.digit_char (n mod 10)) EmptyString).
      rewrite forallb_str_app, Hd, decimal_value_app, Hv.
      split; [simpl; rewrite Hc1; reflexivity |].
      split.
      * simpl. rewrite Hc2. pose proof (Z.div_mod n 10 ltac:(lia)). lia.
      * rewrite Hz. assert (0 < n / 10) by (apply Z.div_str_pos; lia).
        destruct (Z.eqb_spec (n / 10) 0), (Z.eqb_spec n 0); lia || reflexivity.
Qed.

Lemma digits_spec n :
  0 <= n ->
  exists c r,
    Text.digits n = String c r
    /\ Text.forallb_str Text.isdecimal (String c r) = true
    /\ Text.decimal_value 0 (String c r) = n
    /\ Ascii.eqb c "0" = (n =? 0).
Proof.
  intros Hn. unfold Text.digits.
  destruct (digits_from_spec (S (Z.to_nat (Z.log2 n))) n EmptyString)
    as (c & r & E & H); [congruence | |].
  - split; [exact Hn |].
    rewrite Nat2Z.inj_succ, Z2Nat.id by apply Z.log2_nonneg.
    destruct (Z.eq_dec n 0) as [-> | Hne]; [simpl; lia |].
    pose proof (Z.log2_spec n ltac:(lia)) as [_ Hlt].
    assert (2 ^ Z.succ (Z.log2 n) <= 10 ^ Z.succ (Z.log2 n)).
    { apply Z.pow_le_mono_l. lia. }
    lia.
  - exists c, r. rewrite E, append_nil_r. split; [reflexivity | exact H].
Qed.

Lemma text_replicate_length n c : String.length (Text.replicate n c) = n.
Proof. induction n as [| n IH]; simpl; congruence. Qed.

Lemma replicate_zeros_decimal n :
  Text.forallb_str Text.isdecimal (Text.replicate n "0") = true.
Proof. induction n as [| n IH]; [reflexivity |]. simpl. exact IH. Qed.

Lemma decimal_value_zeros acc n :
  Text.decimal_value acc (Text.replicate n "0") = acc * 10 ^ Z.of_nat n.
Proof.
  revert acc. induction n as [| n IH]; intros acc.
  - simpl. lia.
  - cbn [Text.replicate Text.decimal_value]. rewrite IH.
    rewrite Nat2Z.inj_succ, Z.pow_succ_r by lia.
    change (Text.digit_value "0") with 0. ring.
Qed.

(** [rstrip_zeros] takes zeros from the end, and only those. *)
Lemma rstrip_zeros_spec s :
  exists z, s = Text.rstrip_zeros s +:+ Text.replicate z "0".
Proof.
  induction s as [| c s [z IH]]; [exists O; reflexivity |].
  cbn [Text.rstrip_zeros].
  destruct (Text.rstrip_zeros s) as [| c' r] eqn:E.
  - rewrite append_nil_l in IH.
    destruct (Ascii.eqb_spec c "0") as [-> | Hne].
    + exists (S z). rewrite append_nil_l, IH. reflexivity.
    + exists z. rewrite append_cons, append_nil_l, <- IH. reflexivity.
  - exists z. rewrite append_cons, <- IH. reflexivity.
Qed.

Lemma rstrip_zeros_head c r :
  Ascii.eqb c "0" = false ->
  exists r', Text.rstrip_zeros (String c r) = String c r'.
Proof.
  intros Hc. cbn [Text.rstrip_zeros].
  destruct (Text.rstrip_zeros r) as [| c' r'].
  - rewrite Hc. eauto.
  - eauto.
Qed.

(** ** Cutting a text in two *)

Lemma substring_split a s :
  (a <= String.length s)%nat ->
  s = substring 0 a s +:+ substring a (String.length s - a) s.
Proof.
  revert a. induction s as [| c s IH]; intros a Ha.
  - destruct a; [reflexivity | simpl in Ha; lia].
  - destruct a as [| a].
    + cbn [substring String.length]. rewrite append_nil_l.
      change (String c s = String c (substring 0 (String.length s) s)).
      f_equal. clear. induction s as [| d s IH]; [reflexivity |].
      simpl. f_equal. exact IH.
    + cbn [substring String.length Nat.sub]. rewrite append_cons.
      f_equal. apply IH. simpl in Ha. lia.
Qed.

Lemma substring_length_0 a s :
  (a <= String.length s)%nat -> String.length (substring 0 a s) = a.
Proof.
  revert a. induction s as [| c s IH]; intros a Ha.
  - destruct a; [reflexivity | simpl in Ha; lia].
  - destruct a as [| a]; [reflexivity |]. simpl. f_equal. apply IH.
    simpl in Ha. lia.
Qed.

Lemma substring_head a c r :
  exists r', substring 0 (S a) (String c r) = String c r'.
Proof. simpl. eauto. Qed.

Lemma span_decimal s rest :
  Text.forallb_str Text.isdecimal s = true ->
  match rest with
  | EmptyString => true
  | String c _ => negb (Text.isdecimal c)
  end = true ->
  Text.span Text.isdecimal (s +:+ rest) = (s, rest).
Proof. apply span_all. Qed.

(** ** Reading back the text of a number *)

Lemma forallb_str_impl (p q : ascii -> bool) s :
  (forall c, p c = true -> q c = true) ->
  Text.forallb_str p s = true -> Text.forallb_str q s = true.
Proof.
  intros Hpq. induction s as [| c s IH]; [reflexivity |]. simpl.
  intros H. apply andb_true_iff in H as [Hc Hs].
  rewrite (Hpq c Hc), (IH Hs). reflexivity.
Qed.

Lemma decimal_number_chars s :
  Text.forallb_str Text.isdecimal s = true ->
  Text.forallb_str Json.is_number_char s = true.
Proof.
  apply forallb_str_impl. intros c Hc. unfold Json.is_number_char.
  rewrite Hc. reflexivity.
Qed.

(** The exponent part [repr] writes: e, a sign and at least two digits. *)
Lemma read_exponent_text ex :
  let E := "e" +:+ (if ex <? 0 then "-" else "+")
           +:+ (if Z.abs ex <? 10 then "0" else EmptyString)
           +:+ Text.digits (Z.abs ex) in
  Json.read_exponent E = Some (Some ex)
  /\ Text.forallb_str Json.is_number_char E = true
  /\ exists E', E = String "e" E'.
Proof.
  destruct (digits_spec (Z.abs ex) ltac:(lia)) as (c & r & Ed & Hd & Hv & _).
  rewrite Ed. cbv zeta.
  pose proof (decimal_number_chars _ Hd) as Hn.
  assert (Hpad : forall pad : string,
             pad = "0" \/ pad = EmptyString ->
             exists c' r',
               pad +:+ String c r = String c' r'
               /\ Text.forallb_str Text.isdecimal (String c' r') = true
               /\ Text.decimal_value 0 (String c' r') = Z.abs ex).
  { intros pad [-> | ->].
    - exists "0"%char, (String c r). rewrite append_cons, append_nil_l.
      split; [reflexivity |]. split.
      + change (Text.forallb_str Text.isdecimal (String "0" (String c r)))
          with (Text.forallb_str Text.isdecimal (String c r)). exact Hd.
      + exact Hv.
    - exists c, r. rewrite append_nil_l. auto. }
  destruct (Hpad (if Z.abs ex <? 10 then "0" else EmptyString))
    as (c' & r' & Ep & Hd' & Hv').
  { destruct (Z.abs ex <? 10); auto. }
  rewrite Ep. pose proof (decimal_number_chars _ Hd') as Hn'.
  destruct (Z.ltb_spec ex 0) as [Hneg | Hpos];
    rewrite !append_cons, !append_nil_l.
  - split; [| split; [| eauto]].
    + cbn -[Text.forallb_str Text.decimal_value].
      rewrite Hd', Hv'. cbn. f_equal. f_equal. lia.
    + change (Text.forallb_str Json.is_number_char (String c' r') = true).
      exact Hn'.
  - split; [| split; [| eauto]].
    + cbn -[Text.forallb_str Text.decimal_value].
      rewrite Hd', Hv'. cbn. f_equal. f_equal. lia.
    + change (Text.forallb_str Json.is_number_char (String c' r') = true).
      exact Hn'.
Qed.

Lemma is_int_part_head ip :
  Json.is_int_part ip = true ->
  exists c r, ip = String c r /\ Text.isdecimal c = true.
Proof.
  destruct ip as [| c r]; [discriminate |]. simpl.
  intros H. apply andb_true_iff in H as [Hc _]. eauto.
Qed.

Lemma decimal_not_minus c :
  Text.isdecimal c = true -> Ascii.eqb c "-" = false.
Proof.
  destruct c as [[] [] [] [] [] [] [] []]; vm_compute;
    solve [reflexivity | discriminate].
Qed.

(** The sign of a literal is read first. *)
Lemma read_literal_sign neg c r :
  Text.isdecimal c = true ->
  Json.read_literal (Float.sign_text neg +:+ String c r)
  = let '(ip, s2) := Text.span Text.isdecimal (String c r) in
    if Json.is_int_part ip then
      match s2 with
      | String c' r' =>
          if Ascii.eqb c' "." then
            let '(fp, s3) := Text.span Text.isdecimal r' in
            if Json.nonempty fp then
              e ← Json.read_exponent s3;
              Some (Float.Literal neg ip (Some fp) e)
            else None
          else e ← Json.read_exponent s2; Some (Float.Literal neg ip None e)
      | EmptyString => Some (Float.Literal neg ip None None)
      end
    else None.
Proof.
  intros Hc. destruct neg; unfold Float.sign_text.
  - rewrite append_cons, append_nil_l. reflexivity.
  - rewrite append_nil_l. unfold Json.read_literal.
    rewrite (decimal_not_minus c Hc). reflexivity.
Qed.

(** A literal with a fraction. *)
Lemma read_literal_frac neg ip fp E e :
  Text.forallb_str Text.isdecimal ip = true ->
  Json.is_int_part ip = true ->
  Text.forallb_str Text.isdecimal fp = true ->
  fp <> EmptyString ->
  match E with
  | EmptyString => true
  | String c _ => negb (Text.isdecimal c)
  end = true ->
  Text.forallb_str Json.is_number_char E = true ->
  Json.read_exponent E = Some e ->
  Json.read_literal (Float.sign_text neg +:+ ip +:+ "." +:+ fp +:+ E)
  = Some (Float.Literal neg ip (Some fp) e)
  /\ Text.forallb_str Json.is_number_char
       (Float.sign_text neg +:+ ip +:+ "." +:+ fp +:+ E) = true.
Proof.
  intros Hip Hint Hfp Hne HE HEn He.
  destruct (is_int_part_head ip Hint) as (c & r & Eip & Hc).
  split.
  - rewrite Eip at 1. rewrite append_cons, read_literal_sign by exact Hc.
    rewrite <- append_cons, <- Eip.
    rewrite (span_decimal ip ("." +:+ fp +:+ E) Hip)
      by (rewrite append_cons; reflexivity).
    rewrite Hint, append_cons, append_nil_l.
    change (Ascii.eqb "." ".") with true. cbv iota.
    rewrite (span_decimal fp E Hfp HE).
    destruct fp as [| f fp']; [congruence |]. cbn [Json.nonempty].
    rewrite He. reflexivity.
  - rewrite !forallb_str_app, (decimal_number_chars _ Hip),
      (decimal_number_chars _ Hfp), HEn.
    destruct neg; reflexivity.
Qed.

(** A literal with an exponent and no fraction. *)
Lemma read_literal_exp neg ip E' e :
  Text.forallb_str Text.isdecimal ip = true ->
  Json.is_int_part ip = true ->
  Text.forallb_str Json.is_number_char (String "e" E') = true ->
  Json.read_exponent (String "e" E') = Some e ->
  Json.read_literal (Float.sign_text neg +:+ ip +:+ String "e" E')
  = Some (Float.Literal neg ip None e)
  /\ Text.forallb_str Json.is_number_char
       (Float.sign_text neg +:+ ip +:+ String "e" E') = true.
Proof.
  intros Hip Hint HEn He.
  destruct (is_int_part_head ip Hint) as (c & r & Eip & Hc).
  split.
  - rewrite Eip at 1. rewrite append_cons, read_literal_sign by exact Hc.
    rewrite <- append_cons, <- Eip.
    rewrite (span_decimal ip (String "e" E') Hip) by reflexivity.
    rewrite Hint. change (Ascii.eqb "e" ".") with false. cbv iota.
    rewrite He. reflexivity.
  - rewrite !forallb_str_app, (decimal_number_chars _ Hip), HEn.
    destruct neg; reflexivity.
Qed.

(** What [float()] reads in the text [repr] lays out for the digits
    [String c r] and the position [decpt] of the point: a literal that
    denotes [0.cr * 10^decpt]. *)
Lemma read_layout neg c r decpt :
  Text.forallb_str Text.isdecimal (String c r) = true ->
  Ascii.eqb c "0" = false ->
  exists ip fp ex j,
    Json.read_literal (Float.sign_text neg +:+ Float.layout (String c r) decpt)
    = Some (Float.Literal neg ip fp ex)
    /\ Text.forallb_str Json.is_number_char
         (Float.sign_text neg +:+ Float.layout (String c r) decpt) = true
    /\ (fp = None -> ex = None -> False)
    /\ 0 <= j
    /\ Text.decimal_value 0 (ip +:+ default EmptyString fp)
       = Text.decimal_value 0 (String c r) * 10 ^ j
    /\ default 0 ex - Z.of_nat (String.length (default EmptyString fp))
       = decpt - Z.of_nat (String.length (String c r)) - j.
Proof.
  intros Hd Hc0.
  assert (Hc : Text.isdecimal c = true).
  { simpl in Hd. apply andb_true_iff in Hd as [Hc _]. exact Hc. }
  assert (Hr : Text.forallb_str Text.isdecimal r = true).
  { simpl in Hd. apply andb_true_iff in Hd as [_ Hr]. exact Hr. }
  unfold Float.layout. cbv zeta.
  destruct ((decpt <=? -4) || (16 <? decpt))%bool eqn:Hexp.
  - (* exponent notation *)
    destruct (read_exponent_text (decpt - 1)) as (He & HEn & E' & EE).
    cbv zeta in He, HEn, EE. rewrite EE in *.
    assert (Hint : Json.is_int_part (String c EmptyString) = true).
    { simpl. rewrite Hc, Hc0. reflexivity. }
    assert (Hd1 : Text.forallb_str Text.isdecimal (String c EmptyString) = true).
    { simpl. rewrite Hc. reflexivity. }
    destruct r as [| c2 r2].
    + destruct (read_literal_exp neg (String c EmptyString) E'
                  (Some (decpt - 1)) Hd1 Hint HEn He) as [H1 H2].
      exists (String c EmptyString), None, (Some (decpt - 1)), 0.
      split; [exact H1 |]. split; [exact H2 |].
      split; [discriminate |]. split; [lia |].
      cbn [from_option String.length]. unfold id. rewrite append_nil_r.
      split; [change (10 ^ 0) with 1; lia | lia].
    + destruct (read_literal_frac neg (String c EmptyString) (String c2 r2)
                  (String "e" E') (Some (decpt - 1)) Hd1 Hint Hr
                  ltac:(discriminate) eq_refl HEn He) as [H1 H2].
      assert (Et : String c ("." +:+ String c2 r2) +:+ String "e" E'
                   = String c EmptyString +:+ "." +:+ String c2 r2
                     +:+ String "e" E').
      { rewrite !append_cons, !append_nil_l, !append_cons. reflexivity. }
      rewrite Et.
      exists (String c EmptyString), (Some (String c2 r2)),
        (Some (decpt - 1)), 0.
      split; [exact H1 |]. split; [exact H2 |].
      split; [discriminate |]. split; [lia |].
      cbn [from_option]. unfold id. rewrite append_cons, append_nil_l.
      split; [change (10 ^ 0) with 1; lia |].
      cbn [String.length]. lia.
  - apply orb_false_iff in Hexp as [Hlo Hhi].
    apply Z.leb_gt in Hlo. apply Z.ltb_ge in Hhi.
    destruct (Z.leb_spec decpt 0) as [Hle | Hgt].
    + (* zeros after the point *)
      set (zs := Text.replicate (Z.to_nat (- decpt)) "0").
      assert (Hfp : Text.forallb_str Text.isdecimal (zs +:+ String c r) = true).
      { rewrite forallb_str_app, Hd. unfold zs.
        rewrite replicate_zeros_decimal. reflexivity. }
      assert (Hne : zs +:+ String c r <> EmptyString).
      { intros E. apply (f_equal String.length) in E.
        rewrite string_length_app in E. simpl in E. lia. }
      destruct (read_literal_frac neg "0" (zs +:+ String c r) EmptyString None
                  eq_refl eq_refl Hfp Hne eq_refl eq_refl eq_refl) as [H1 H2].
      assert (Et : "0." +:+ zs +:+ String c r
                   = "0" +:+ "." +:+ (zs +:+ String c r) +:+ EmptyString).
      { rewrite append_nil_r, !append_cons, !append_nil_l. reflexivity. }
      rewrite Et.
      exists "0", (Some (zs +:+ String c r)), None, 0.
      split; [exact H1 |]. split; [exact H2 |].
      split; [discriminate |]. split; [lia |].
      cbn [from_option]. unfold id. split.
      * rewrite append_cons, append_nil_l.
        change (Text.decimal_value 0 (String "0" (zs +:+ String c r)))
          with (Text.decimal_value 0 (zs +:+ String c r)).
        rewrite decimal_value_app. unfold zs. rewrite decimal_value_zeros.
        rewrite Z.mul_0_l. change (10 ^ 0) with 1. lia.
      * rewrite string_length_app. unfold zs. rewrite text_replicate_length.
        rewrite Nat2Z.inj_add, Z2Nat.id by lia. lia.
    + set (n := Z.of_nat (String.length (String c r))).
      destruct (Z.leb_spec n decpt) as [Hnle | Hngt].
      * (* zeros before the point *)
        set (zs := Text.replicate (Z.to_nat (decpt - n)) "0").
        assert (Hip : Text.forallb_str Text.isdecimal (String c r +:+ zs) = true).
        { rewrite forallb_str_app, Hd. unfold zs.
          rewrite replicate_zeros_decimal. reflexivity. }
        assert (Hint : Json.is_int_part (String c r +:+ zs) = true).
        { rewrite append_cons. simpl. rewrite Hc, Hc0. reflexivity. }
        destruct (read_literal_frac neg (String c r +:+ zs) "0" EmptyString None
                    Hip Hint eq_refl ltac:(discriminate) eq_refl eq_refl eq_refl)
          as [H1 H2].
        assert (Et : String c r +:+ zs +:+ ".0"
                     = (String c r +:+ zs) +:+ "." +:+ "0" +:+ EmptyString).
        { rewrite append_nil_r, !append_assoc. reflexivity. }
        rewrite Et.
        exists (String c r +:+ zs), (Some "0"), None, (decpt - n + 1).
        split; [exact H1 |]. split; [exact H2 |].
        split; [discriminate |]. split; [lia |].
        cbn [from_option]. unfold id. split.
        -- rewrite !decimal_value_app. unfold zs. rewrite decimal_value_zeros.
           rewrite Z2Nat.id by lia. rewrite Z.pow_add_r by lia.
           cbn [Text.decimal_value]. change (Text.digit_value "0") with 0.
           change (10 ^ 1) with 10. ring.
        -- cbn [String.length]. fold n. change (Z.of_nat 1) with 1. lia.
      * (* the point inside the digits *)
        set (a := Z.to_nat decpt).
        assert (Ha : (a <= String.length (String c r))%nat) by (unfold a, n in *; lia).
        assert (Ha0 : (0 < a)%nat) by (unfold a; lia).
        assert (Hlen : Z.to_nat (n - decpt)
                       = (String.length (String c r) - a)%nat)
          by (unfold a, n; lia).
        rewrite Hlen.
        pose proof (substring_split a (String c r) Ha) as Es.
        pose proof (substring_length_0 a (String c r) Ha) as El.
        set (pre := substring 0 a (String c r)) in *.
        set (suf := substring a (String.length (String c r) - a) (String c r))
          in *.
        assert (Hps : Text.forallb_str Text.isdecimal pre = true
                      /\ Text.forallb_str Text.isdecimal suf = true).
        { rewrite Es, forallb_str_app in Hd.
          apply andb_true_iff in Hd. exact Hd. }
        destruct Hps as [Hpre Hsuf].
        assert (Hint : Json.is_int_part pre = true).
        { unfold pre. destruct a as [| a']; [lia |].
          destruct (substring_head a' c r) as [r' ->].
          simpl. rewrite Hc, Hc0. reflexivity. }
        assert (Hsl : String.length (String c r)
                      = (a + String.length suf)%nat).
        { rewrite Es at 1. rewrite string_length_app, El. reflexivity. }
        assert (Hne : suf <> EmptyString).
        { intros E. rewrite E in Hsl. change (String.length EmptyString) with O in Hsl.
          unfold a, n in *. lia. }
        destruct (read_literal_frac neg pre suf EmptyString None
                    Hpre Hint Hsuf Hne eq_refl eq_refl eq_refl) as [H1 H2].
        assert (Et : pre +:+ "." +:+ suf
                     = pre +:+ "." +:+ suf +:+ EmptyString).
        { rewrite append_nil_r. reflexivity. }
        rewrite Et.
        exists pre, (Some suf), None, 0.
        split; [exact H1 |]. split; [exact H2 |].
        split; [discriminate |]. split; [lia |].
        cbn [from_option]. unfold id. rewrite <- Es.
        split; [change (10 ^ 0) with 1; lia |].
        unfold n in *. rewrite Hsl, Nat2Z.inj_add. unfold a. lia.
Qed.

(** ** [float(repr(x)) == x] *)

Lemma reads_back_finite s m e :
  bounded 53 1024 m e = true -> reads_back (S754_finite s m e).
Proof.
  intros Hb. unfold reads_back.
  change (Json.number_text (S754_finite s m e))
    with (Float.repr 53 1024 17 (S754_finite s m e)).
  cbn [Float.repr].
  destruct (shortest_rounds m e Hb) as (d & k & Es & Hr).
  rewrite Es.
  destruct (digits_spec (Z.pos d) ltac:(lia)) as (c & r & Ed & Hd & Hv & Hc0).
  change (Z.pos d =? 0) with false in Hc0.
  rewrite Ed.
  destruct (rstrip_zeros_head c r Hc0) as [r' Er].
  destruct (rstrip_zeros_spec (String c r)) as [z Ez].
  rewrite Er in *.
  assert (Hd' : Text.forallb_str Text.isdecimal (String c r') = true).
  { rewrite Ez, forallb_str_app in Hd. apply andb_true_iff in Hd. tauto. }
  assert (Hlen : String.length (String c r)
                 = (String.length (String c r') + z)%nat).
  { rewrite Ez at 1. rewrite string_length_app, text_replicate_length. reflexivity. }
  assert (HV : Z.pos d = Text.decimal_value 0 (String c r') * 10 ^ Z.of_nat z).
  { rewrite <- Hv. rewrite Ez at 1.
    rewrite decimal_value_app, decimal_value_zeros. reflexivity. }
  set (V := Text.decimal_value 0 (String c r')) in *.
  set (decpt := k + Z.of_nat (String.length (String c r))).
  destruct (read_layout s c r' decpt Hd' Hc0)
    as (ip & fp & ex & j & Hread & Hnum & Hnn & Hj & HD & HK).
  fold V in HD.
  set (text := Float.sign_text s +:+ Float.layout (String c r') decpt) in *.
  unfold Json.parse_atom.
  rewrite <- (append_nil_r text) at 1.
  rewrite (span_all Json.is_number_char text EmptyString Hnum eq_refl).
  unfold Json.number_of_token. rewrite Hread.
  assert (Hnumber :
            (match Float.lit_frac (Float.Literal s ip fp ex),
                   Float.lit_exp (Float.Literal s ip fp ex) with
             | None, None =>
                 Some (Json.Int
                         (cond_Zopp (Float.lit_neg (Float.Literal s ip fp ex))
                            (Text.decimal_value 0
                               (Float.lit_int (Float.Literal s ip fp ex)))))
             | _, _ =>
                 Some (Json.Number
                         (Float.of_literal 53 1024 (Float.Literal s ip fp ex)))
             end)
            = Some (Json.Number
                      (Float.of_literal 53 1024 (Float.Literal s ip fp ex)))).
  { cbn [Float.lit_frac Float.lit_exp].
    destruct fp; [reflexivity |]. destruct ex; [reflexivity |].
    destruct (Hnn eq_refl eq_refl). }
  cbn [mbind option_bind]. rewrite Hnumber.
  unfold Float.of_literal.
  cbn [Float.lit_frac Float.lit_exp Float.lit_int Float.lit_neg].
  rewrite HD, HK.
  assert (HVpos : 0 < V).
  { assert (Hz : 0 < 10 ^ Z.of_nat z) by (apply Z.pow_pos_nonneg; lia).
    revert HV Hz. generalize (10 ^ Z.of_nat z). intros P HV Hz. nia. }
  assert (Hjpos : 0 < 10 ^ j) by (apply Z.pow_pos_nonneg; lia).
  assert (HDpos : 0 < V * 10 ^ j) by (apply Z.mul_pos_pos; assumption).
  destruct (V * 10 ^ j) as [| D | D] eqn:ED; [lia | | lia].
  f_equal. f_equal. f_equal.
  apply (rounds_finite 53 1024 s
           (inject_Z (Z.pos D)
            * Round.pow10 (decpt - Z.of_nat (String.length (String c r')) - j))).
  - apply of_decimal_rounds. lia.
  - eapply rounds_ext; [| exact Hr].
    rewrite <- ED, HV, !inject_Z_mult.
    unfold decpt. rewrite Hlen, Nat2Z.inj_add.
    replace (k + (Z.of_nat (String.length (String c r')) + Z.of_nat z)
             - Z.of_nat (String.length (String c r')) - j)
      with (k + Z.of_nat z + - j) by lia.
    rewrite !pow10_add, pow10_opp, <- !pow10_Z by lia.
    pose proof (pow10_pos j). field. lra.
Qed.

(** The text [json.dumps] writes for a number is read back by
    [json.loads] as that number. *)
Lemma reads_back_valid x : valid_binary 53 1024 x = true -> reads_back x.
Proof.
  destruct x as [s | s | | s m e]; intros H.
  - destruct s; reflexivity.
  - destruct s; reflexivity.
  - reflexivity.
  - apply reads_back_finite. exact H.
Qed.

(** C9. The message of a reduced point [x, y] (the result of
    [findPoints] on any rows of boxes), a label and a score is the JSON
    text of the dictionary with the sensor name "CameraPi", the text of
    the score, the list of the two coordinates and the text of the label.
    The text has no line break, and decoding it gives that dictionary
    again, with the two coordinates as the same numbers and with the score
    and the label as strings. *)
Theorem telemetry_roundtrip (coordinates : list Box) (x y : spec_float)
    (label : string) (score : spec_float) :
  findPoints coordinates = Ok (Some [x; y]) ->
  let message := Json.dumps (post (Some [x; y]) (Some label) (Some score)) in
  Json.loads message
  = Some (Json.Dict [("Sensor Name", Json.Str "CameraPi");
                     ("Score", Json.Str (Float.float32_str score));
                     ("Coordinates", Json.List [Json.Number x; Json.Number y]);
                     ("Class_ID", Json.Str label)])
  /\ single_line message = true.
Proof.
  intros Hp message.
  destruct (findPoints_valid coordinates x y Hp) as [Hx Hy].
  apply reads_back_valid in Hx. apply reads_back_valid in Hy.
  split.
  - apply (loads_post x y (Some label) (Some score) Hx Hy).
  - apply single_line_post; assumption.
Qed.

(** The box (ymin=0.1, xmin=0.2, ymax=0.4, xmax=0.8) reduces to the
    point [0.25, 0.25]; with the label "cat" and the score 0.9 the message
    decodes to the sensor name "CameraPi", the score "0.9", the
    coordinates [0.25, 0.25] and the class "cat". *)
Lemma telemetry_roundtrip_example :
  Json.loads
    (Json.dumps (post (Some [Float.f64 25 (-2); Float.f64 25 (-2)])
                   (Some "cat") (Some (Float.f32 9 (-1)))))
  = Some (Json.Dict [("Sensor Name", Json.Str "CameraPi");
                     ("Score", Json.Str "0.9");
                     ("Coordinates",
                      Json.List [Json.Number (Float.f64 25 (-2));
                                 Json.Number (Float.f64 25 (-2))]);
                     ("Class_ID", Json.Str "cat")])
  /\ Json.number_text (Float.f64 25 (-2)) = "0.25".
Proof.
  split.
  - destruct (telemetry_roundtrip (tolist [Sample.box1])
                (Float.f64 25 (-2)) (Float.f64 25 (-2))
                "cat" (Float.f32 9 (-1))) as [H _];
      [vm_compute; reflexivity |].
    rewrite H. vm_compute. reflexivity.
  - vm_compute. reflexivity.
Defined.

(** ** One frame *)

Lemma main_frame_empty labels th topic it :
  detect_objects it th = Ok [] ->
  main_frame labels th topic it
  = match findPoints (tolist (output_boxes it)) with
    | Ok point =>
        let p := post point None None in
        ([AnnotatorClear; DrawLatency; AnnotatorUpdate; PrettyPrint p;
          MqttPublish topic (Json.dumps p) 1; Sleep 1], Ok tt)
    | Raise e => ([AnnotatorClear; DrawLatency; AnnotatorUpdate], Raise e)
    end.
Proof.
  intros H. unfold main_frame. rewrite H. simpl.
  destruct (findPoints (tolist (output_boxes it))); reflexivity.
Qed.

(** A frame with detections that is drawn and reduced without an error:
    the label and the score published are those of the first detection,
    the point is the one of the first row of the boxes tensor. *)
Lemma main_frame_publishes labels th topic it d ds drawn point name :
  detect_objects it th = Ok (d :: ds) ->
  annotate_objects (d :: ds) labels = (drawn, Ok tt) ->
  findPoints (tolist (output_boxes it)) = Ok point ->
  labels_getitem labels (class_id d) = Ok name ->
  published (fst (main_frame labels th topic it))
  = [Json.dumps (post point (Some name) (Some (score d)))].
Proof.
  intros Hd Ha Hp Hl. unfold main_frame. rewrite Hd.
  cbn -[annotate_objects findPoints post Json.dumps].
  rewrite Ha. cbn -[findPoints post Json.dumps findLabels].
  rewrite Hp. cbn -[post Json.dumps]. rewrite Hl.
  cbn -[post Json.dumps]. unfold published.
  rewrite omap_app. cbn -[post Json.dumps].
  assert (Hn : omap (fun e => match e with
                              | MqttPublish _ payload _ => Some payload
                              | _ => None
                              end) drawn = []).
  { clear -Ha. revert drawn Ha.
    induction (d :: ds) as [| o l IH]; intros drawn Ha.
    - injection Ha as <-. reflexivity.
    - simpl in Ha. unfold lift, bind in Ha.
      destruct (to_pixels (xmin (bounding_box o)) CAMERA_WIDTH); [| discriminate].
      destruct (to_pixels (xmax (bounding_box o)) CAMERA_WIDTH); [| discriminate].
      destruct (to_pixels (ymin (bounding_box o)) CAMERA_HEIGHT); [| discriminate].
      destruct (to_pixels (ymax (bounding_box o)) CAMERA_HEIGHT); [| discriminate].
      simpl in Ha.
      destruct (labels_getitem labels (class_id o)); [| discriminate].
      simpl in Ha.
      destruct (annotate_objects l labels) as [t [[] | e]] eqn:E;
        [| discriminate].
      injection Ha as <-. simpl. apply (IH t). reflexivity. }
  rewrite Hn. reflexivity.
Qed.

(** C1 at a frame whose first entry does not clear the threshold.  The
    only detection is the second entry, and the label "cat" and the score
    "0.9" published are its own; the point published is (0.25, 0.25),
    the reduction of the first row of the boxes tensor, while the
    reduction of the detection's own box is (0.5, 0.4000000059604645). *)
Theorem frame_point_from_first_box :
  let d := mkDetection Sample.box2 (Float.f32 1 0) (Float.f32 9 (-1)) in
  detect_objects Sample.mixed (Float.f64 4 (-1)) = Ok [d]
  /\ findPoints (tolist [bounding_box d])
     = Ok (Some [Float.f64 5 (-1); Float.f64 4000000059604645 (-16)])
  /\ findLabels [d] Sample.table = Ok (Some "cat")
  /\ findScore [d] Sample.table = Ok (Some (Float.f32 9 (-1)))
  /\ published
       (fst (main_frame Sample.table (Float.f64 4 (-1)) "home" Sample.mixed))
     = [Json.dumps (post (Some [Float.f64 25 (-2); Float.f64 25 (-2)])
                      (Some "cat") (Some (Float.f32 9 (-1))))]
  /\ findPoints (tolist [Sample.box1])
     = Ok (Some [Float.f64 25 (-2); Float.f64 25 (-2)]).
Proof. vm_compute. repeat split; reflexivity. Qed.

(** ** Frames without a detection *)

(** C6, as the code has it.  When no detection clears the threshold,
    [findLabels] and [findScore] raise nothing and return None, and when
    the point reduction of the frame raises nothing either, the frame
    ends normally with one message published, whose Score and Class_ID
    are the string "None". *)
Theorem empty_detections (labels : gmap Z string) (th : spec_float)
    (topic : string) (it : Interpreter) (point : option (list spec_float)) :
  detect_objects it th = Ok [] ->
  findPoints (tolist (output_boxes it)) = Ok point ->
  let p := Json.Dict
             [("Sensor Name", Json.Str "CameraPi");
              ("Score", Json.Str "None");
              ("Coordinates", match point with
                              | Some xy => Json.List (map Json.Number xy)
                              | None => Json.Null
                              end);
              ("Class_ID", Json.Str "None")] in
  findLabels [] labels = Ok None
  /\ findScore [] labels = Ok None
  /\ main_frame labels th topic it
     = ([AnnotatorClear; DrawLatency; AnnotatorUpdate; PrettyPrint p;
         MqttPublish topic (Json.dumps p) 1; Sleep 1], Ok tt)
  /\ published (fst (main_frame labels th topic it)) = [Json.dumps p].
Proof.
  intros Hd Hp p. rewrite (main_frame_empty labels th topic it Hd), Hp.
  repeat split; reflexivity.
Qed.

(** A frame of two faint entries: the message goes out with the point of
    the first box and "None" twice. *)
Lemma empty_detections_example :
  published
    (fst (main_frame Sample.table (Float.f64 4 (-1)) "home" Sample.faint))
  = [Json.dumps
       (Json.Dict
          [("Sensor Name", Json.Str "CameraPi");
           ("Score", Json.Str "None");
           ("Coordinates", Json.List [Json.Number (Float.f64 25 (-2));
                                      Json.Number (Float.f64 25 (-2))]);
           ("Class_ID", Json.Str "None")])].
Proof.
  destruct (empty_detections Sample.table (Float.f64 4 (-1)) "home"
              Sample.faint
              (Some [Float.f64 25 (-2); Float.f64 25 (-2)]))
    as (_ & _ & _ & H); [reflexivity | reflexivity |].
  exact H.
Defined.

(** C6 as stated fails when the first row of the boxes tensor has a zero
    xmax or ymax: no detection clears the threshold, the point reduction
    raises ZeroDivisionError, the frame ends with that error and nothing
    is published. *)
Lemma empty_detections_zero_box :
  detect_objects Sample.blank (Float.f64 4 (-1)) = Ok []
  /\ main_frame Sample.table (Float.f64 4 (-1)) "home" Sample.blank
     = ([AnnotatorClear; DrawLatency; AnnotatorUpdate],
        Raise ZeroDivisionError)
  /\ published
       (fst (main_frame Sample.table (Float.f64 4 (-1)) "home" Sample.blank))
     = []
  /\ forallb (fun e => match e with MqttPublish _ _ _ => false | _ => true end)
       (fst (main (Sample.world [Sample.blank]) Sample.args)) = true
  /\ snd (main (Sample.world [Sample.blank]) Sample.args)
     = Raise ZeroDivisionError.
Proof. vm_compute. repeat split; reflexivity. Qed.

(** ** More on the label table *)

Lemma forallb_str_lstrip P s :
  Text.forallb_str P s = true -> Text.forallb_str P (Text.lstrip s) = true.
Proof.
  induction s as [| c s IH]; simpl; [auto |].
  intros H. destruct (Text.isspace c); [| exact H].
  apply andb_true_iff in H as [_ H]. auto.
Qed.

Lemma forallb_str_rstrip P s :
  Text.forallb_str P s = true -> Text.forallb_str P (Text.rstrip s) = true.
Proof.
  induction s as [| c s IH]; simpl; [auto |].
  intros H. apply andb_true_iff in H as [Hc H]. specialize (IH H).
  destruct (Text.rstrip s) as [| d r].
  - destruct (Text.isspace c); simpl; [reflexivity |].
    rewrite Hc. reflexivity.
  - simpl in *. rewrite Hc, IH. reflexivity.
Qed.

Lemma forallb_str_strip P s :
  Text.forallb_str P s = true -> Text.forallb_str P (Text.strip s) = true.
Proof.
  intros H. unfold Text.strip. apply forallb_str_rstrip, forallb_str_lstrip, H.
Qed.

Lemma forallb_str_skip_seps P s :
  Text.forallb_str P s = true -> Text.forallb_str P (Text.skip_seps s) = true.
Proof.
  induction s as [| c s IH]; simpl; [auto |].
  intros H. destruct (Text.is_sep c); [| exact H].
  apply andb_true_iff in H as [_ H]. auto.
Qed.

(** The split gives one field, the text itself, or two, of which the
    first has no separator; the fields hold characters of the text. *)
Lemma re_split_cases s :
  (Text.re_split s = [s] /\ no_sep s = true)
  \/ (exists a b,
        Text.re_split s = [a; b] /\ no_sep a = true
        /\ forall P, Text.forallb_str P s = true ->
                     Text.forallb_str P a = true /\ Text.forallb_str P b = true).
Proof.
  unfold no_sep. induction s as [| c s IH]; simpl; [left; auto |].
  destruct (Text.is_sep c) eqn:Hc.
  - right. exists EmptyString, (Text.skip_seps s).
    split; [reflexivity |]. split; [reflexivity |].
    intros P H. split; [reflexivity |].
    apply andb_true_iff in H as [_ H]. apply forallb_str_skip_seps, H.
  - destruct IH as [[-> Hs] | (a & b & -> & Ha & Hab)].
    + left. simpl. rewrite Hs. auto.
    + right. exists (String c a), b. simpl. rewrite Ha, Hc.
      split; [reflexivity |]. split; [reflexivity |].
      intros P H. apply andb_true_iff in H as [HP H].
      destruct (Hab P H) as [H1 H2]. rewrite HP, H1. auto.
Qed.

Lemma strip_no_sep s : no_sep s = true -> Text.strip s = s.
Proof.
  unfold no_sep. intros H. unfold Text.strip.
  assert (Hl : Text.lstrip s = s).
  { destruct s as [| c s]; [reflexivity |]. simpl in *.
    apply andb_true_iff in H as [Hc _]. apply negb_true_iff in Hc.
    rewrite (not_sep_not_space c Hc). reflexivity. }
  rewrite Hl. clear Hl.
  induction s as [| c s IH]; [reflexivity |]. simpl in *.
  apply andb_true_iff in H as [Hc H]. rewrite (IH H).
  destruct s; [| reflexivity].
  apply negb_true_iff in Hc. rewrite (not_sep_not_space c Hc). reflexivity.
Qed.

Lemma int_result s :
  (Text.int s = Ok (Text.decimal_value 0 s)
   /\ s <> EmptyString /\ Text.forallb_str Text.isdecimal s = true)
  \/ (Text.int s = Raise ValueError
      /\ (s = EmptyString \/ Text.forallb_str Text.isdecimal s = false)).
Proof.
  unfold Text.int. destruct s as [| c s]; [right; auto |].
  destruct (Text.forallb_str Text.isdecimal (String c s)) eqn:E.
  - left. repeat split. discriminate.
  - right. auto.
Qed.

(** A line is stored, or its number cannot be read: no other error. *)
Lemma load_labels_row_raise row content e :
  load_labels_row row content = Raise e -> e = ValueError.
Proof.
  unfold load_labels_row.
  destruct (re_split_cases (Text.strip content))
    as [[-> _] | (a & b & -> & _ & _)]; [discriminate |].
  destruct (Text.isdigit (Text.strip a)); [| discriminate].
  destruct (int_result a) as [(-> & _) | (-> & _)]; simpl; congruence.
Qed.

Lemma load_labels_loop_raise row lines table e :
  load_labels_loop row lines table = Raise e -> e = ValueError.
Proof.
  revert row table. induction lines as [| l lines IH]; intros row table; simpl;
    [discriminate |].
  destruct (load_labels_row row l) as [[k name] | e'] eqn:E; simpl.
  - apply IH.
  - intros [= <-]. apply (load_labels_row_raise _ _ _ E).
Qed.

(** X1. [load_labels] fails in two ways only: with IOError, exactly when
    the file cannot be opened, and with ValueError, from [int], when the
    file was read.  It never fails with IndexError on [pair[0]]: the
    split always gives a first field. *)
Theorem load_labels_errors (fs : string -> option (list string))
    (path : string) (e : exn) :
  load_labels fs path = Raise e ->
  (e = IOError /\ fs path = None)
  \/ (e = ValueError /\ exists lines, fs path = Some lines /\ lines <> []).
Proof.
  unfold load_labels. destruct (fs path) as [lines |].
  - intros H. right. split; [apply (load_labels_loop_raise _ _ _ _ H) |].
    exists lines. split; [reflexivity |]. intros ->. discriminate.
  - intros [= <-]. left. auto.
Qed.

Lemma load_labels_errors_example :
  load_labels (fun _ => None) "labels.txt" = Raise IOError
  /\ load_labels (fun _ => Some [String (ascii_of_nat 178) " cat"]) "labels.txt"
     = Raise ValueError.
Proof.
  split.
  - destruct (load_labels_errors (fun _ => None) "labels.txt" IOError)
      as [[_ _] | [H _]]; [reflexivity | reflexivity | discriminate].
  - destruct (load_labels_errors
                (fun _ => Some [String (ascii_of_nat 178) " cat"])
                "labels.txt" ValueError)
      as [[H _] | [_ _]]; [reflexivity | discriminate | reflexivity].
Defined.

Lemma isdigit_ascii_decimal c :
  Text.isdigit_char c = true -> is_ascii c = true -> Text.isdecimal c = true.
Proof.
  destruct c as [[] [] [] [] [] [] [] []]; vm_compute;
    solve [reflexivity | discriminate].
Qed.

Lemma isdigit_ascii s :
  Text.isdigit s = true -> ascii_text s = true ->
  s <> EmptyString /\ Text.forallb_str Text.isdecimal s = true.
Proof.
  unfold Text.isdigit, ascii_text. destruct s as [| c s]; [discriminate |].
  intros Hd Ha. split; [discriminate |].
  induction (String c s) as [| d r IH]; [reflexivity |]. simpl in *.
  apply andb_true_iff in Hd as [Hd Hr]. apply andb_true_iff in Ha as [Ha Hr'].
  rewrite (isdigit_ascii_decimal d Hd Ha), (IH Hr Hr'). reflexivity.
Qed.

(** A line of ASCII is always stored. *)
Lemma load_labels_row_ascii row content :
  ascii_text content = true ->
  exists k name, load_labels_row row content = Ok (k, name).
Proof.
  intros Ha. unfold load_labels_row.
  pose proof (forallb_str_strip _ _ Ha) as Hs.
  destruct (re_split_cases (Text.strip content))
    as [[-> _] | (a & b & -> & Hna & Hab)]; [eauto |].
  rewrite (strip_no_sep a Hna).
  destruct (Text.isdigit a) eqn:Hd; [| eauto].
  destruct (Hab _ Hs) as [Haa _].
  destruct (isdigit_ascii a Hd Haa) as [Hne Hdec].
  destruct (int_result a) as [(-> & _) | (_ & [-> | H])];
    [simpl; eauto | congruence | congruence].
Qed.

Lemma load_labels_loop_ascii row lines table :
  Forall (fun l => ascii_text l = true) lines ->
  exists table', load_labels_loop row lines table = Ok table'.
Proof.
  intros H. revert row table.
  induction H as [| l lines Hl _ IH]; intros row table; simpl; [eauto |].
  destruct (load_labels_row_ascii row l Hl) as (k & name & ->). simpl.
  apply IH.
Qed.

(** X2. A label file that can be opened and holds ASCII only is always
    loaded: no line of it makes [load_labels] raise. *)
Theorem load_labels_ascii (fs : string -> option (list string))
    (path : string) (lines : list string) :
  fs path = Some lines ->
  Forall (fun l => ascii_text l = true) lines ->
  exists table, load_labels fs path = Ok table.
Proof.
  intros Hfs Ha. unfold load_labels. rewrite Hfs.
  apply load_labels_loop_ascii, Ha.
Qed.

Lemma load_labels_ascii_example :
  exists table,
    load_labels (fun _ => Some ["0  person" +:+ Text.LF; ": odd line";
                                EmptyString; "traffic light"]) "labels.txt"
    = Ok table.
Proof.
  apply (load_labels_ascii _ "labels.txt"
           ["0  person" +:+ Text.LF; ": odd line"; EmptyString;
            "traffic light"]).
  - reflexivity.
  - repeat constructor.
Defined.

Lemma isdigit_char_not_sep c :
  Text.isdigit_char c = true -> Text.is_sep c = false.
Proof.
  destruct c as [[] [] [] [] [] [] [] []]; vm_compute;
    solve [reflexivity | discriminate].
Qed.

Lemma isdigit_no_sep s : Text.isdigit s = true -> no_sep s = true.
Proof.
  unfold Text.isdigit, no_sep. destruct s as [| c s]; [discriminate |].
  induction (String c s) as [| d r IH]; [reflexivity |]. simpl.
  intros H. apply andb_true_iff in H as [Hd Hr].
  rewrite (isdigit_char_not_sep d Hd), (IH Hr). reflexivity.
Qed.

Lemma re_split_fields a sep b :
  no_sep a = true ->
  sep <> EmptyString ->
  Text.forallb_str Text.is_sep sep = true ->
  starts_field b = true ->
  Text.re_split (a +:+ sep +:+ b) = [a; b].
Proof.
  unfold no_sep. intros Ha Hne Hsep Hb.
  induction a as [| c a IH].
  - rewrite append_nil_l. destruct sep as [| d sep]; [congruence |].
    rewrite append_cons. simpl in *.
    apply andb_true_iff in Hsep as [-> Hsep].
    rewrite skip_seps_run by assumption. reflexivity.
  - rewrite append_cons. simpl in *.
    apply andb_true_iff in Ha as [Hc Ha]. apply negb_true_iff in Hc.
    rewrite Hc, (IH Ha). reflexivity.
Qed.

Lemma load_labels_loop_app row l1 l2 table :
  load_labels_loop row (l1 ++ l2) table
  = t ← load_labels_loop row l1 table;
    load_labels_loop (row + Z.of_nat (length l1)) l2 t.
Proof.
  revert row table. induction l1 as [| l l1 IH]; intros row table; simpl.
  - rewrite Z.add_0_r. reflexivity.
  - destruct (load_labels_row row l) as [[k name] |]; simpl; [| reflexivity].
    rewrite IH. replace (row + 1 + Z.of_nat (length l1))
      with (row + Z.pos (Pos.of_succ_nat (length l1))) by lia.
    reflexivity.
Qed.

(** X3. A line whose first field passes [isdigit] but is not made of the
    decimal digits 0..9 (it holds a superscript two, three or one) makes
    [load_labels] raise ValueError, wherever it stands in the file after
    lines that load: [int] rejects what [isdigit] let through. *)
Theorem load_labels_superscript (fs : string -> option (list string))
    (path : string) (before after : list string) (line : string)
    (table : gmap Z string) (idx sep name : string) :
  fs path = Some (before ++ line :: after)%list ->
  load_labels_loop 0 before ∅ = Ok table ->
  Text.strip line = idx +:+ sep +:+ name ->
  Text.isdigit idx = true ->
  Text.forallb_str Text.isdecimal idx = false ->
  sep <> EmptyString ->
  Text.forallb_str Text.is_sep sep = true ->
  starts_field name = true ->
  load_labels fs path = Raise ValueError.
Proof.
  intros Hfs Ht E Hd Hnd Hne Hsep Hname. unfold load_labels.
  rewrite Hfs, load_labels_loop_app, Ht. simpl.
  unfold load_labels_row.
  rewrite E, (re_split_fields idx sep name (isdigit_no_sep idx Hd) Hne Hsep Hname).
  rewrite (strip_no_sep idx (isdigit_no_sep idx Hd)), Hd.
  destruct (int_result idx) as [(_ & _ & H) | (-> & _)]; [congruence |].
  reflexivity.
Qed.

Lemma load_labels_superscript_example :
  load_labels
    (fun _ => Some ["0 person"; String (ascii_of_nat 178) " cat"; "2 dog"])
    "labels.txt"
  = Raise ValueError.
Proof.
  apply (load_labels_superscript _ "labels.txt" ["0 person"] ["2 dog"]
           (String (ascii_of_nat 178) " cat") {[ 0 := "person" ]}
           (String (ascii_of_nat 178) EmptyString) " " "cat");
    try reflexivity; discriminate.
Defined.

Lemma digit_value_nonneg c : Text.isdecimal c = true -> 0 <= Text.digit_value c.
Proof.
  intros H. apply Z.leb_le. revert H.
  destruct c as [[] [] [] [] [] [] [] []]; vm_compute;
    solve [reflexivity | discriminate].
Qed.

Lemma decimal_value_nonneg acc s :
  0 <= acc -> Text.forallb_str Text.isdecimal s = true ->
  0 <= Text.decimal_value acc s.
Proof.
  revert acc. induction s as [| c s IH]; intros acc Hacc H; simpl in *; [exact Hacc |].
  apply andb_true_iff in H as [Hc H]. apply IH; [| exact H].
  pose proof (digit_value_nonneg c Hc). lia.
Qed.

(** The key of a line is its row number or a number read from digits. *)
Lemma load_labels_row_key row content k name :
  load_labels_row row content = Ok (k, name) -> 0 <= row -> 0 <= k.
Proof.
  unfold load_labels_row.
  destruct (re_split_cases (Text.strip content))
    as [[-> _] | (a & b & -> & _ & _)]; [intros [= <- _]; auto |].
  destruct (Text.isdigit (Text.strip a)); [| intros [= <- _]; auto].
  destruct (int_result a) as [(-> & _ & Hd) | (-> & _)]; simpl; [| discriminate].
  intros [= <- _] _. apply decimal_value_nonneg; [lia | exact Hd].
Qed.

Lemma load_labels_loop_bounds row lines table table' :
  load_labels_loop row lines table = Ok table' ->
  0 <= row ->
  (size table' <= size table + length lines)%nat
  /\ (map_Forall (fun k _ => 0 <= k) table ->
      map_Forall (fun k _ => 0 <= k) table').
Proof.
  revert row table. induction lines as [| l lines IH]; intros row table; simpl.
  - intros [= <-] _. split; [lia | auto].
  - destruct (load_labels_row row l) as [[k name] |] eqn:E; simpl; [| discriminate].
    intros H Hrow. destruct (IH _ _ H ltac:(lia)) as [Hs Hk]. split.
    + rewrite map_size_insert in Hs. destruct (table !! k); simpl in Hs; lia.
    + intros Ht. apply Hk. apply map_Forall_insert_2; [| exact Ht].
      apply (load_labels_row_key _ _ _ _ E Hrow).
Qed.

(** X4. The table [load_labels] returns has at most as many entries as
    the file has lines, and every id in it is a non-negative integer. *)
Theorem load_labels_bounds (fs : string -> option (list string))
    (path : string) (lines : list string) (table : gmap Z string) :
  fs path = Some lines ->
  load_labels fs path = Ok table ->
  (size table <= length lines)%nat
  /\ forall k name, table !! k = Some name -> 0 <= k.
Proof.
  intros Hfs. unfold load_labels. rewrite Hfs. intros H.
  destruct (load_labels_loop_bounds _ _ _ _ H ltac:(lia)) as [Hs Hk].
  rewrite map_size_empty in Hs. split; [exact Hs |].
  intros k name Hl. apply (Hk (map_Forall_empty _) k name Hl).
Qed.

Lemma load_labels_bounds_example :
  (size ({[ 1%Z := "dog" ]} : gmap Z string) <= 2)%nat
  /\ forall k name,
       ({[ 1 := "dog" ]} : gmap Z string) !! k = Some name -> 0 <= k.
Proof.
  apply (load_labels_bounds
           (fun _ => Some ["1 cat" +:+ Text.LF; "1 dog" +:+ Text.LF])
           "labels.txt" ["1 cat" +:+ Text.LF; "1 dog" +:+ Text.LF]);
    reflexivity.
Defined.

Lemma load_labels_loop_plain lines :
  Forall (fun l => no_sep (Text.strip l) = true) lines ->
  exists table,
    load_labels_loop 0 lines ∅ = Ok table
    /\ forall k, table !! k
                 = if decide (0 <= k)
                   then Text.strip <$> lines !! Z.to_nat k
                   else None.
Proof.
  induction lines as [| line lines IH] using rev_ind; intros H.
  - exists ∅. split; [reflexivity |]. intros k.
    rewrite lookup_empty. destruct (decide (0 <= k)); reflexivity.
  - apply Forall_app in H as [Hl Hline]. rewrite Forall_singleton in Hline.
    destruct (IH Hl) as (table & Ht & Hk).
    exists (<[Z.of_nat (length lines) := Text.strip line]> table).
    rewrite load_labels_loop_snoc, Ht, Z.add_0_l. simpl.
    rewrite (load_labels_row_one _ _ Hline). split; [reflexivity |].
    intros k. destruct (decide (Z.of_nat (length lines) = k)) as [<- | Hne].
    + rewrite lookup_insert_eq, decide_True by lia.
      rewrite Nat2Z.id, list_lookup_middle by reflexivity. reflexivity.
    + rewrite lookup_insert_ne, Hk by exact Hne.
      destruct (decide (0 <= k)); [| reflexivity].
      assert (Hn : Z.to_nat k <> length lines) by lia.
      destruct (decide (Z.to_nat k < length lines)%nat).
      * rewrite lookup_app_l by assumption. reflexivity.
      * rewrite !lookup_ge_None_2; [reflexivity | | lia].
        rewrite length_app. simpl. lia.
Qed.

(** X5. For a file without index numbers whose lines are single words
    (no colon and no white space inside a stripped line; an empty line
    counts), the table is the list of the stripped lines by position:
    line [i] is found under the id [i] and nothing is found elsewhere. *)
Theorem load_labels_plain (fs : string -> option (list string))
    (path : string) (lines : list string) :
  fs path = Some lines ->
  Forall (fun l => no_sep (Text.strip l) = true) lines ->
  exists table,
    load_labels fs path = Ok table
    /\ (forall i : nat, table !! Z.of_nat i = Text.strip <$> lines !! i)
    /\ (forall k, k < 0 \/ Z.of_nat (length lines) <= k -> table !! k = None).
Proof.
  intros Hfs H. destruct (load_labels_loop_plain lines H) as (table & Ht & Hk).
  exists table. unfold load_labels. rewrite Hfs. split; [exact Ht |]. split.
  - intros i. rewrite Hk, decide_True by lia. rewrite Nat2Z.id. reflexivity.
  - intros k [Hn | Hb]; rewrite Hk.
    + rewrite decide_False by lia. reflexivity.
    + rewrite decide_True by lia. rewrite lookup_ge_None_2 by lia. reflexivity.
Qed.

Lemma load_labels_plain_example :
  exists table,
    load_labels
      (fun _ => Some ["person" +:+ Text.LF; Text.LF; " cat " +:+ Text.LF])
      "labels.txt" = Ok table
    /\ table !! 0 = Some "person"
    /\ table !! 1 = Some EmptyString
    /\ table !! 2 = Some "cat"
    /\ table !! 3 = None.
Proof.
  destruct (load_labels_plain
              (fun _ => Some ["person" +:+ Text.LF; Text.LF;
                              " cat " +:+ Text.LF])
              "labels.txt"
              ["person" +:+ Text.LF; Text.LF; " cat " +:+ Text.LF])
    as (table & Ht & Hi & Ho); [reflexivity | repeat constructor |].
  exists table. split; [exact Ht |].
  split; [apply (Hi 0%nat) |]. split; [apply (Hi 1%nat) |].
  split; [apply (Hi 2%nat) |]. apply Ho. right. simpl. lia.
Defined.

(** ** More on the detector *)

Lemma getitem_cases {A} (a : list A) i :
  (exists x, a !! i = Some x /\ getitem a i = Ok x /\ (i < length a)%nat)
  \/ (a !! i = None /\ getitem a i = Raise IndexError /\ (length a <= i)%nat).
Proof.
  unfold getitem. destruct (a !! i) as [x |] eqn:E.
  - left. exists x. repeat split. apply lookup_lt_Some in E. exact E.
  - right. repeat split. apply lookup_ge_None in E. exact E.
Qed.

Lemma detect_objects_loop_raise it th range acc e :
  detect_objects_loop it th range acc = Raise e -> e = IndexError.
Proof.
  revert acc. induction range as [| i range IH]; intros acc; simpl; [discriminate |].
  destruct (getitem_cases (output_scores it) i)
    as [(s & _ & -> & _) | (_ & -> & _)]; simpl; [| congruence].
  destruct (Float.ge (Float.widen s) th); [| apply IH].
  destruct (getitem_cases (output_boxes it) i)
    as [(b & _ & -> & _) | (_ & -> & _)]; simpl; [| congruence].
  destruct (getitem_cases (output_classes it) i)
    as [(c & _ & -> & _) | (_ & -> & _)]; simpl; [| congruence].
  apply IH.
Qed.

(** Whenever the loop over [range(n)] returns, it returns the entries
    below [n] that clear the threshold. *)
Lemma detect_objects_loop_sound it th n results :
  detect_objects_loop it th (seq 0 n) [] = Ok results ->
  results = filtered_entries it th n.
Proof.
  revert results. induction n as [| n IH]; intros results.
  - intros [= <-]. reflexivity.
  - rewrite seq_S, detect_objects_loop_app.
    destruct (detect_objects_loop it th (seq 0 n) []) as [r |] eqn:E;
      [| discriminate].
    rewrite (IH r eq_refl). simpl.
    destruct (getitem_cases (output_scores it) n)
      as [(s & Es & -> & _) | (_ & -> & _)]; simpl; [| discriminate].
    unfold filtered_entries.
    destruct (Float.ge (Float.widen s) th) eqn:Hge.
    + destruct (getitem_cases (output_boxes it) n)
        as [(b & Eb & -> & _) | (_ & -> & _)]; simpl; [| discriminate].
      destruct (getitem_cases (output_classes it) n)
        as [(c & Ec & -> & _) | (_ & -> & _)]; simpl; [| discriminate].
      intros [= <-].
      rewrite (take_S_r _ _ _ (entries_lookup it n b c s Eb Ec Es)), filter_app.
      rewrite filter_cons_True by exact Hge. reflexivity.
    + intros [= <-].
      destruct (entries it !! n) as [d |] eqn:Ed.
      * rewrite (take_S_r _ _ _ Ed), filter_app.
        unfold entries in Ed.
        apply lookup_zip_with_Some in Ed as (bc & s' & -> & _ & Hs').
        rewrite Es in Hs'. injection Hs' as <-.
        rewrite filter_cons_False, filter_nil, app_nil_r; [reflexivity |].
        unfold clears. simpl. rewrite Hge. discriminate.
      * apply lookup_ge_None in Ed.
        rewrite !take_ge by lia. reflexivity.
Qed.

Lemma clears_not_nan th d : clears th d -> score d <> S754_nan.
Proof.
  unfold clears, Float.ge, SFleb. intros H E. rewrite E in H.
  destruct th; discriminate.
Qed.

Lemma detect_objects_returns it th results :
  detect_objects it th = Ok results ->
  exists n, Float.to_int (output_count it) = Ok n
            /\ results = filtered_entries it th (Z.to_nat n).
Proof.
  unfold detect_objects.
  destruct (Float.to_int (output_count it)) as [n |]; simpl; [| discriminate].
  intros H. apply detect_objects_loop_sound in H. eauto.
Qed.

(** X6. Whenever [detect_objects] returns, also for tensors of different
    lengths, its result is the entries among the first [count] whose
    score is at least the threshold, in the order of the model output.
    So every record returned clears the threshold, none has a NaN score,
    and there are at most [count] of them. *)
Theorem detect_objects_sound (it : Interpreter) (th : spec_float)
    (results : list Detection) :
  detect_objects it th = Ok results ->
  exists n, Float.to_int (output_count it) = Ok n
            /\ results = filtered_entries it th (Z.to_nat n)
            /\ Forall (clears th) results
            /\ Forall (fun d => score d <> S754_nan) results
            /\ (length results <= Z.to_nat n)%nat.
Proof.
  intros H. destruct (detect_objects_returns it th results H) as (n & Hn & Hr).
  exists n. split; [exact Hn |]. split; [exact Hr |].
  assert (Hc : Forall (clears th) results).
  { subst results. unfold filtered_entries. apply Forall_forall.
    intros d Hd. apply list_elem_of_filter in Hd as [Hd _]. exact Hd. }
  split; [exact Hc |]. split.
  - eapply Forall_impl; [exact Hc |]. apply clears_not_nan.
  - subst results. unfold filtered_entries.
    etransitivity; [apply length_filter |].
    rewrite length_take. lia.
Qed.

(** The tensors of the example differ in length: one box, two classes,
    three scores of which only the first reaches 0.4. *)
Lemma detect_objects_sound_example :
  exists n,
    Float.to_int (Float.f32 3 0) = Ok n
    /\ [mkDetection Sample.box1 (Float.f32 0 0) (Float.f32 9 (-1))]
       = filtered_entries
           (mkInterpreter [Sample.box1] [Float.f32 0 0; Float.f32 1 0]
              [Float.f32 9 (-1); Float.f32 3 (-1); Float.f32 2 (-1)]
              (Float.f32 3 0))
           (Float.f64 4 (-1)) (Z.to_nat n).
Proof.
  destruct (detect_objects_sound
              (mkInterpreter [Sample.box1] [Float.f32 0 0; Float.f32 1 0]
                 [Float.f32 9 (-1); Float.f32 3 (-1); Float.f32 2 (-1)]
                 (Float.f32 3 0))
              (Float.f64 4 (-1))
              [mkDetection Sample.box1 (Float.f32 0 0) (Float.f32 9 (-1))])
    as (n & Hn & Hr & _); [reflexivity |].
  exists n. split; [exact Hn | exact Hr].
Defined.

(** X7. [detect_objects] fails in three ways only: with ValueError when
    the count tensor holds a NaN, with OverflowError when it holds an
    infinity, and with IndexError, and then the count is larger than one
    of the three other tensors is long. *)
Theorem detect_objects_errors (it : Interpreter) (th : spec_float) (e : exn) :
  detect_objects it th = Raise e ->
  (e = ValueError /\ output_count it = S754_nan)
  \/ (e = OverflowError /\ exists s, output_count it = S754_infinity s)
  \/ (e = IndexError
      /\ exists n, Float.to_int (output_count it) = Ok n
                   /\ ((length (output_boxes it) < Z.to_nat n)%nat
                       \/ (length (output_classes it) < Z.to_nat n)%nat
                       \/ (length (output_scores it) < Z.to_nat n)%nat)).
Proof.
  unfold detect_objects.
  destruct (output_count it) as [s | s | | s m x] eqn:Ec; simpl.
  - intros H. discriminate.
  - intros [= <-]. right; left. split; [reflexivity | eauto].
  - intros [= <-]. left. split; reflexivity.
  - intros H. right; right.
    split; [apply (detect_objects_loop_raise _ _ _ _ _ H) |].
    eexists. split; [reflexivity |].
    destruct (decide (Z.to_nat (Float.trunc s m x) <= length (output_boxes it))%nat);
      [| lia].
    destruct (decide (Z.to_nat (Float.trunc s m x) <= length (output_classes it))%nat);
      [| lia].
    destruct (decide (Z.to_nat (Float.trunc s m x) <= length (output_scores it))%nat);
      [| lia].
    rewrite detect_objects_loop_seq in H by assumption. discriminate.
Qed.

Lemma detect_objects_errors_example :
  detect_objects (mkInterpreter [] [] [] S754_nan) (Float.f64 4 (-1))
  = Raise ValueError
  /\ detect_objects (mkInterpreter [] [] [] (S754_infinity false))
       (Float.f64 4 (-1)) = Raise OverflowError
  /\ detect_objects (mkInterpreter [] [Float.f32 0 0] [Float.f32 9 (-1)]
                       (Float.f32 1 0)) (Float.f64 4 (-1))
     = Raise IndexError.
Proof.
  split; [| split].
  - destruct (detect_objects_errors (mkInterpreter [] [] [] S754_nan)
                (Float.f64 4 (-1)) ValueError)
      as [[_ _] | [[H _] | [H _]]]; [reflexivity | reflexivity | |];
      discriminate.
  - destruct (detect_objects_errors
                (mkInterpreter [] [] [] (S754_infinity false))
                (Float.f64 4 (-1)) OverflowError)
      as [[H _] | [[_ _] | [H _]]]; [reflexivity | | reflexivity |];
      discriminate.
  - destruct (detect_objects_errors
                (mkInterpreter [] [Float.f32 0 0] [Float.f32 9 (-1)]
                   (Float.f32 1 0)) (Float.f64 4 (-1)) IndexError)
      as [[H _] | [[H _] | [_ _]]]; [reflexivity | | | reflexivity];
      discriminate.
Defined.

(** X8. A count larger than the scores tensor is long always ends in
    IndexError, whatever the threshold and the other tensors are: the
    loop reads [scores[i]] for every [i] below the count. *)
Theorem detect_objects_out_of_range (it : Interpreter) (th : spec_float)
    (n : Z) :
  Float.to_int (output_count it) = Ok n ->
  (length (output_scores it) < Z.to_nat n)%nat ->
  detect_objects it th = Raise IndexError.
Proof.
  intros Hn Hlen. unfold detect_objects. rewrite Hn. simpl.
  set (len := length (output_scores it)) in *.
  replace (Z.to_nat n) with (len + S (Z.to_nat n - S len))%nat by lia.
  rewrite seq_app, detect_objects_loop_app.
  destruct (detect_objects_loop it th (seq 0 len) []) as [acc | e] eqn:E; simpl.
  - destruct (getitem_cases (output_scores it) len)
      as [(s & _ & _ & H) | (_ & -> & _)]; [unfold len in H; lia |].
    reflexivity.
  - rewrite (detect_objects_loop_raise _ _ _ _ _ E). reflexivity.
Qed.

Lemma detect_objects_out_of_range_example :
  detect_objects
    (mkInterpreter [Sample.box1] [Float.f32 0 0] [Float.f32 1 (-1)]
       (Float.f32 10 0))
    (Float.f64 4 (-1))
  = Raise IndexError.
Proof.
  apply (detect_objects_out_of_range _ _ 10); [reflexivity | simpl; lia].
Defined.

Lemma detect_objects_loop_none it th n :
  (n <= length (output_scores it))%nat ->
  Forall (fun s => Float.ge (Float.widen s) th = false)
    (take n (output_scores it)) ->
  detect_objects_loop it th (seq 0 n) [] = Ok [].
Proof.
  induction n as [| n IH]; intros Hlen Hall; [reflexivity |].
  destruct (lookup_lt_is_Some_2 (output_scores it) n) as [s Es]; [lia |].
  rewrite (take_S_r _ _ _ Es) in Hall. apply Forall_app in Hall as [Hall Hs].
  rewrite Forall_singleton in Hs.
  rewrite seq_S, detect_objects_loop_app, IH by (assumption || lia). simpl.
  rewrite (getitem_lookup _ _ _ Es). simpl. rewrite Hs. reflexivity.
Qed.

Lemma ge_nan x : Float.ge x S754_nan = false.
Proof. unfold Float.ge, SFleb. destruct x; reflexivity. Qed.

(** X9. When no score among the first [count] reaches the threshold, or
    the threshold is a NaN, the result is the empty list as soon as the
    scores tensor is long enough: the boxes and the classes are not read,
    so they may be shorter than the count, or empty. *)
Theorem detect_objects_none (it : Interpreter) (th : spec_float) (n : Z) :
  Float.to_int (output_count it) = Ok n ->
  (Z.to_nat n <= length (output_scores it))%nat ->
  th = S754_nan
  \/ Forall (fun s => Float.ge (Float.widen s) th = false)
       (take (Z.to_nat n) (output_scores it)) ->
  detect_objects it th = Ok [].
Proof.
  intros Hn Hlen H. unfold detect_objects. rewrite Hn. simpl.
  apply detect_objects_loop_none; [exact Hlen |].
  destruct H as [-> | H]; [| exact H].
  apply Forall_forall. intros s _. apply ge_nan.
Qed.

Lemma detect_objects_none_example :
  detect_objects
    (mkInterpreter [] [] [Float.f32 9 (-1); Float.f32 3 (-1)] (Float.f32 2 0))
    S754_nan = Ok []
  /\ detect_objects
       (mkInterpreter [] [] [Float.f32 1 (-1); Float.f32 3 (-1)]
          (Float.f32 2 0))
       (Float.f64 4 (-1)) = Ok [].
Proof.
  split.
  - apply (detect_objects_none _ _ 2); [reflexivity | simpl; lia | left; reflexivity].
  - apply (detect_objects_none _ _ 2); [reflexivity | simpl; lia |].
    right. repeat constructor.
Defined.

(** The order of [>=] is transitive. *)
Lemma SFleb_trans a b c :
  SFleb a b = true -> SFleb b c = true -> SFleb a c = true.
Proof.
  unfold SFleb, SFcompare.
  destruct a as [sa | sa | | sa ma ea], b as [sb | sb | | sb mb eb],
    c as [sc | sc | | sc mc ec];
    try destruct sa; try destruct sb; try destruct sc;
    try (intros; first [reflexivity | discriminate]);
    change (Pos.compare_cont Eq ?x ?y) with (x ?= y)%positive;
    repeat match goal with
           | |- context [(?x ?= ?y)%Z] => destruct (Z.compare_spec x y)
           | |- context [(?x ?= ?y)%positive] => destruct (Pos.compare_spec x y)
           end;
    simpl; intros; first [reflexivity | discriminate | lia].
Qed.

(** X10. Raising the threshold never adds a detection: for one model
    output, the result at a threshold [hi >= lo] is the result at [lo]
    with the records below [hi] left out, in the same order. *)
Theorem detect_objects_threshold (it : Interpreter) (lo hi : spec_float)
    (at_lo at_hi : list Detection) :
  Float.ge hi lo = true ->
  detect_objects it lo = Ok at_lo ->
  detect_objects it hi = Ok at_hi ->
  at_hi = filter (clears hi) at_lo
  /\ at_hi `sublist_of` at_lo
  /\ (length at_hi <= length at_lo)%nat.
Proof.
  intros Hge Hlo Hhi.
  apply detect_objects_returns in Hlo as (n & Hn & ->).
  apply detect_objects_returns in Hhi as (n' & Hn' & ->).
  rewrite Hn in Hn'. injection Hn' as <-.
  assert (E : filtered_entries it hi (Z.to_nat n)
              = filter (clears hi) (filtered_entries it lo (Z.to_nat n))).
  { unfold filtered_entries. rewrite list_filter_filter_l; [reflexivity |].
    intros d. unfold clears, Float.ge. intros Hd.
    apply (SFleb_trans lo hi _ Hge Hd). }
  split; [exact E |]. rewrite E. split.
  - apply sublist_filter.
  - apply length_filter.
Qed.

Lemma detect_objects_threshold_example :
  [mkDetection Sample.box1 (Float.f32 0 0) (Float.f32 9 (-1))]
  = filter (clears (Float.f64 6 (-1)))
      [mkDetection Sample.box1 (Float.f32 0 0) (Float.f32 9 (-1));
       mkDetection Sample.box3 (Float.f32 0 0) (Float.f32 5 (-1))].
Proof.
  apply (detect_objects_threshold Sample.three (Float.f64 4 (-1))
           (Float.f64 6 (-1))); reflexivity.
Defined.

(** ** The annotation overlay *)

Lemma to_int_cases x :
  (exists n, Float.to_int x = Ok n /\ not_finite x = false)
  \/ (Float.to_int x = Raise ValueError /\ x = S754_nan)
  \/ (Float.to_int x = Raise OverflowError /\ exists s, x = S754_infinity s).
Proof. destruct x; simpl; eauto 8. Qed.

(** The pixel of a coordinate: a NaN raises ValueError, an infinity
    OverflowError, and nothing else is raised. *)
Lemma to_pixels_cases v size :
  (exists n, to_pixels v size = Ok n)
  \/ to_pixels v size = Raise ValueError
  \/ to_pixels v size = Raise OverflowError.
Proof.
  unfold to_pixels.
  destruct (to_int_cases (SFmul 53 1024 (Float.widen v) (Float.f64 size 0)))
    as [(n & -> & _) | [(-> & _) | (-> & _)]]; eauto.
Qed.

Lemma to_pixels_not_finite v size :
  size = CAMERA_WIDTH \/ size = CAMERA_HEIGHT ->
  not_finite v = true ->
  to_pixels v size
  = Raise (match v with S754_nan => ValueError | _ => OverflowError end).
Proof.
  intros [-> | ->] H; destruct v as [| [] | |]; try discriminate; reflexivity.
Qed.

Lemma labels_getitem_cases labels key :
  (exists name, labels_getitem labels key = Ok name)
  \/ labels_getitem labels key = Raise KeyError.
Proof.
  unfold labels_getitem. destruct (Float.as_integer key) as [k |]; [| auto].
  destruct (labels !! k); eauto.
Qed.

(** The overlay of a list is the overlay of its front followed by the
    overlay of its rest, if the front is drawn without an error. *)
Lemma annotate_objects_app l1 l2 labels :
  annotate_objects (l1 ++ l2) labels
  = match annotate_objects l1 labels with
    | (t, Ok _) => let '(t', r) := annotate_objects l2 labels in
                   ((t ++ t')%list, r)
    | (t, Raise e) => (t, Raise e)
    end.
Proof.
  induction l1 as [| d l1 IH]; simpl.
  - destruct (annotate_objects l2 labels). reflexivity.
  - unfold bind, lift, emit.
    destruct (to_pixels (xmin (bounding_box d)) CAMERA_WIDTH); [| reflexivity].
    destruct (to_pixels (xmax (bounding_box d)) CAMERA_WIDTH); [| reflexivity].
    destruct (to_pixels (ymin (bounding_box d)) CAMERA_HEIGHT); [| reflexivity].
    destruct (to_pixels (ymax (bounding_box d)) CAMERA_HEIGHT); [| reflexivity].
    destruct (labels_getitem labels (class_id d)); [| reflexivity].
    rewrite IH.
    destruct (annotate_objects l1 labels) as [t [[] | e]]; [| reflexivity].
    destruct (annotate_objects l2 labels) as [t' r]. reflexivity.
Qed.

(** The overlay of one detection. *)
Lemma annotate_objects_one d labels :
  annotate_objects [d] labels
  = match to_pixels (xmin (bounding_box d)) CAMERA_WIDTH,
          to_pixels (xmax (bounding_box d)) CAMERA_WIDTH,
          to_pixels (ymin (bounding_box d)) CAMERA_HEIGHT,
          to_pixels (ymax (bounding_box d)) CAMERA_HEIGHT with
    | Ok x0, Ok x1, Ok y0, Ok y1 =>
        match labels_getitem labels (class_id d) with
        | Ok name => ([Draw (DrawBox x0 y0 x1 y1);
                       Draw (DrawText x0 y0 name (score d))], Ok tt)
        | Raise e => ([Draw (DrawBox x0 y0 x1 y1)], Raise e)
        end
    | Raise e, _, _, _ | Ok _, Raise e, _, _ | Ok _, Ok _, Raise e, _
    | Ok _, Ok _, Ok _, Raise e => ([], Raise e)
    end.
Proof.
  simpl. unfold bind, lift, emit, ret.
  destruct (to_pixels (xmin (bounding_box d)) CAMERA_WIDTH); [| reflexivity].
  destruct (to_pixels (xmax (bounding_box d)) CAMERA_WIDTH); [| reflexivity].
  destruct (to_pixels (ymin (bounding_box d)) CAMERA_HEIGHT); [| reflexivity].
  destruct (to_pixels (ymax (bounding_box d)) CAMERA_HEIGHT); [| reflexivity].
  destruct (labels_getitem labels (class_id d)); reflexivity.
Qed.

Lemma annotate_objects_cons d l labels :
  annotate_objects (d :: l) labels
  = match annotate_objects [d] labels with
    | (t, Ok _) => let '(t', r) := annotate_objects l labels in
                   ((t ++ t')%list, r)
    | (t, Raise e) => (t, Raise e)
    end.
Proof. apply (annotate_objects_app [d] l). Qed.

(** Whatever happens, the overlay only draws. *)
Lemma annotate_objects_draws results labels :
  Forall (fun e => exists d, e = Draw d) (fst (annotate_objects results labels)).
Proof.
  induction results as [| d l IH]; [constructor |].
  rewrite annotate_objects_cons, annotate_objects_one.
  destruct (to_pixels (xmin (bounding_box d)) CAMERA_WIDTH); [| constructor].
  destruct (to_pixels (xmax (bounding_box d)) CAMERA_WIDTH); [| constructor].
  destruct (to_pixels (ymin (bounding_box d)) CAMERA_HEIGHT); [| constructor].
  destruct (to_pixels (ymax (bounding_box d)) CAMERA_HEIGHT); [| constructor].
  destruct (labels_getitem labels (class_id d)).
  - destruct (annotate_objects l labels) as [t' r]. simpl in *.
    repeat (constructor; [eauto |]). exact IH.
  - simpl. repeat (constructor; [eauto |]). constructor.
Qed.

Lemma annotate_objects_ok results labels t :
  annotate_objects results labels = (t, Ok tt) ->
  exists ds, t = map Draw ds
             /\ length ds = (2 * length results)%nat
             /\ Forall2 (overlay labels) results (pairs ds).
Proof.
  revert t. induction results as [| d l IH]; intros t.
  - intros [= <-]. exists []. repeat split. constructor.
  - rewrite annotate_objects_cons, annotate_objects_one.
    destruct (to_pixels (xmin (bounding_box d)) CAMERA_WIDTH) as [x0 |] eqn:E0;
      [| discriminate].
    destruct (to_pixels (xmax (bounding_box d)) CAMERA_WIDTH) as [x1 |] eqn:E1;
      [| discriminate].
    destruct (to_pixels (ymin (bounding_box d)) CAMERA_HEIGHT) as [y0 |] eqn:E2;
      [| discriminate].
    destruct (to_pixels (ymax (bounding_box d)) CAMERA_HEIGHT) as [y1 |] eqn:E3;
      [| discriminate].
    destruct (labels_getitem labels (class_id d)) as [name |] eqn:El;
      [| discriminate].
    destruct (annotate_objects l labels) as [t' [[] | e]]; [| discriminate].
    intros [= <-]. destruct (IH t' eq_refl) as (ds & -> & Hlen & Hov).
    exists (DrawBox x0 y0 x1 y1 :: DrawText x0 y0 name (score d) :: ds).
    split; [reflexivity |]. split; [simpl; lia |].
    simpl. constructor; [| exact Hov].
    exists x0, y0, x1, y1, name. auto 10.
Qed.

(** X11. When [annotate_objects] ends without an error, it has drawn
    nothing but one box and one text per detection, in the order of the
    detections: the box at the pixels [int(x * 640)], [int(y * 480)] of
    its four coordinates, the text at the corner (xmin, ymin) of that box
    with the label of the class id and the score of the detection. *)
Theorem annotate_objects_overlay (results : list Detection)
    (labels : gmap Z string) (t : list event) :
  annotate_objects results labels = (t, Ok tt) ->
  t = map Draw (drawn t)
  /\ length (drawn t) = (2 * length results)%nat
  /\ Forall2 (overlay labels) results (pairs (drawn t)).
Proof.
  intros H. destruct (annotate_objects_ok results labels t H)
    as (ds & -> & Hlen & Hov).
  assert (E : drawn (map Draw ds) = ds).
  { unfold drawn. clear. induction ds as [| d ds IH]; [reflexivity |].
    simpl. f_equal. exact IH. }
  rewrite E. auto.
Qed.

Lemma annotate_objects_overlay_example :
  Forall2 (overlay Sample.table)
    [mkDetection Sample.box2 (Float.f32 1 0) (Float.f32 9 (-1))]
    [(DrawBox 192 96 384 240, DrawText 192 96 "cat" (Float.f32 9 (-1)))].
Proof.
  destruct (annotate_objects_overlay
              [mkDetection Sample.box2 (Float.f32 1 0) (Float.f32 9 (-1))]
              Sample.table
              [Draw (DrawBox 192 96 384 240);
               Draw (DrawText 192 96 "cat" (Float.f32 9 (-1)))])
    as (_ & _ & H); [reflexivity |].
  exact H.
Defined.

(** X12. A detection whose class id has no label stops the overlay with
    KeyError after its box has been drawn and before its text: the
    detections before it are drawn in full, the ones after it not at
    all. *)
Theorem annotate_objects_missing_label (before after : list Detection)
    (d : Detection) (labels : gmap Z string) (t : list event)
    (x0 x1 y0 y1 : Z) :
  annotate_objects before labels = (t, Ok tt) ->
  to_pixels (xmin (bounding_box d)) CAMERA_WIDTH = Ok x0 ->
  to_pixels (xmax (bounding_box d)) CAMERA_WIDTH = Ok x1 ->
  to_pixels (ymin (bounding_box d)) CAMERA_HEIGHT = Ok y0 ->
  to_pixels (ymax (bounding_box d)) CAMERA_HEIGHT = Ok y1 ->
  labels_getitem labels (class_id d) = Raise KeyError ->
  annotate_objects (before ++ d :: after) labels
  = ((t ++ [Draw (DrawBox x0 y0 x1 y1)])%list, Raise KeyError).
Proof.
  intros Hb E0 E1 E2 E3 El.
  rewrite annotate_objects_app, Hb, annotate_objects_cons, annotate_objects_one.
  rewrite E0, E1, E2, E3, El. reflexivity.
Qed.

Lemma annotate_objects_missing_label_example :
  annotate_objects
    [mkDetection Sample.box2 (Float.f32 1 0) (Float.f32 9 (-1));
     mkDetection Sample.box1 (Float.f32 7 0) (Float.f32 8 (-1));
     mkDetection Sample.box3 (Float.f32 0 0) (Float.f32 7 (-1))]
    Sample.table
  = ([Draw (DrawBox 192 96 384 240);
      Draw (DrawText 192 96 "cat" (Float.f32 9 (-1)));
      Draw (DrawBox 128 48 512 192)], Raise KeyError).
Proof.
  apply (annotate_objects_missing_label
           [mkDetection Sample.box2 (Float.f32 1 0) (Float.f32 9 (-1))]
           [mkDetection Sample.box3 (Float.f32 0 0) (Float.f32 7 (-1))]
           (mkDetection Sample.box1 (Float.f32 7 0) (Float.f32 8 (-1)))
           Sample.table
           [Draw (DrawBox 192 96 384 240);
            Draw (DrawText 192 96 "cat" (Float.f32 9 (-1)))]);
    reflexivity.
Defined.

(** X13. A detection with a NaN or an infinity among the four
    coordinates of its box stops the overlay before anything of it is
    drawn, with the error of [int]: ValueError or OverflowError. *)
Theorem annotate_objects_not_finite (before after : list Detection)
    (d : Detection) (labels : gmap Z string) (t : list event) :
  annotate_objects before labels = (t, Ok tt) ->
  (not_finite (xmin (bounding_box d)) || not_finite (xmax (bounding_box d))
   || not_finite (ymin (bounding_box d)) || not_finite (ymax (bounding_box d))
   = true)%bool ->
  exists e,
    annotate_objects (before ++ d :: after) labels = (t, Raise e)
    /\ (e = ValueError \/ e = OverflowError).
Proof.
  intros Hb H.
  rewrite annotate_objects_app, Hb, annotate_objects_cons, annotate_objects_one.
  assert (Hnf : forall v size,
             size = CAMERA_WIDTH \/ size = CAMERA_HEIGHT ->
             not_finite v = true ->
             to_pixels v size = Raise ValueError
             \/ to_pixels v size = Raise OverflowError).
  { intros v size Hs Hv. rewrite (to_pixels_not_finite v size Hs Hv).
    destruct v; auto. }
  destruct (to_pixels_cases (xmin (bounding_box d)) CAMERA_WIDTH)
    as [[x0 E0] | [E0 | E0]]; rewrite E0; [| rewrite app_nil_r; eauto ..].
  destruct (to_pixels_cases (xmax (bounding_box d)) CAMERA_WIDTH)
    as [[x1 E1] | [E1 | E1]]; rewrite E1; [| rewrite app_nil_r; eauto ..].
  destruct (to_pixels_cases (ymin (bounding_box d)) CAMERA_HEIGHT)
    as [[y0 E2] | [E2 | E2]]; rewrite E2; [| rewrite app_nil_r; eauto ..].
  destruct (to_pixels_cases (ymax (bounding_box d)) CAMERA_HEIGHT)
    as [[y1 E3] | [E3 | E3]]; rewrite E3; [| rewrite app_nil_r; eauto ..].
  exfalso.
  apply orb_true_iff in H as [H | H];
    [apply orb_true_iff in H as [H | H];
     [apply orb_true_iff in H as [H | H] |] |].
  - destruct (Hnf _ CAMERA_WIDTH ltac:(auto) H); congruence.
  - destruct (Hnf _ CAMERA_WIDTH ltac:(auto) H); congruence.
  - destruct (Hnf _ CAMERA_HEIGHT ltac:(auto) H); congruence.
  - destruct (Hnf _ CAMERA_HEIGHT ltac:(auto) H); congruence.
Qed.

Lemma annotate_objects_not_finite_example :
  exists e,
    annotate_objects
      [mkDetection (mkBox (Float.f32 1 (-1)) (Float.f32 2 (-1)) S754_nan
                      (Float.f32 8 (-1)))
         (Float.f32 1 0) (Float.f32 9 (-1))]
      Sample.table = ([], Raise e)
    /\ (e = ValueError \/ e = OverflowError).
Proof.
  apply (annotate_objects_not_finite [] []
           (mkDetection (mkBox (Float.f32 1 (-1)) (Float.f32 2 (-1)) S754_nan
                           (Float.f32 8 (-1)))
              (Float.f32 1 0) (Float.f32 9 (-1)))
           Sample.table []); reflexivity.
Defined.

(** ** More on one frame *)

Lemma published_app t1 t2 :
  published (t1 ++ t2) = (published t1 ++ published t2)%list.
Proof. apply omap_app. Qed.

Lemma published_draws t :
  Forall (fun e => exists d, e = Draw d) t -> published t = [].
Proof.
  induction 1 as [| e t [d ->] _ IH]; [reflexivity |]. simpl. exact IH.
Qed.

(** The frame, step by step. *)
Lemma main_frame_run labels th topic it :
  main_frame labels th topic it
  = match detect_objects it th with
    | Raise e => ([], Raise e)
    | Ok results =>
        match annotate_objects results labels with
        | (t, Raise e) => (AnnotatorClear :: t, Raise e)
        | (t, Ok _) =>
            match findPoints (tolist (output_boxes it)) with
            | Raise e =>
                ((AnnotatorClear :: t ++ [DrawLatency; AnnotatorUpdate])%list,
                 Raise e)
            | Ok point =>
                match findLabels results labels with
                | Raise e =>
                    ((AnnotatorClear :: t
                      ++ [DrawLatency; AnnotatorUpdate])%list, Raise e)
                | Ok label =>
                    let p := post point label
                               (match results with
                                | [] => None
                                | d :: _ => Some (score d)
                                end) in
                    ((AnnotatorClear :: t
                      ++ [DrawLatency; AnnotatorUpdate; PrettyPrint p;
                          MqttPublish topic (Json.dumps p) 1; Sleep 1])%list,
                     Ok tt)
                end
            end
        end
    end.
Proof.
  unfold main_frame.
  destruct (detect_objects it th) as [results |]; [| reflexivity].
  cbn -[annotate_objects findPoints findLabels findScore post Json.dumps].
  destruct (annotate_objects results labels) as [t [[] | e]]; [| reflexivity].
  cbn -[findPoints findLabels findScore post Json.dumps].
  destruct (findPoints (tolist (output_boxes it))) as [point |];
    [| reflexivity].
  cbn -[findLabels findScore post Json.dumps].
  destruct (findLabels results labels) as [label |];
    [| reflexivity].
  cbn -[post Json.dumps].
  destruct results; reflexivity.
Qed.

Lemma annotate_objects_raise results labels t e :
  annotate_objects results labels = (t, Raise e) ->
  e = ValueError \/ e = OverflowError \/ e = KeyError.
Proof.
  revert t. induction results as [| d l IH]; intros t; [discriminate |].
  rewrite annotate_objects_cons, annotate_objects_one.
  destruct (to_pixels_cases (xmin (bounding_box d)) CAMERA_WIDTH)
    as [[x0 ->] | [-> | ->]]; [| intros [= <- <-]; auto ..].
  destruct (to_pixels_cases (xmax (bounding_box d)) CAMERA_WIDTH)
    as [[x1 ->] | [-> | ->]]; [| intros [= <- <-]; auto ..].
  destruct (to_pixels_cases (ymin (bounding_box d)) CAMERA_HEIGHT)
    as [[y0 ->] | [-> | ->]]; [| intros [= <- <-]; auto ..].
  destruct (to_pixels_cases (ymax (bounding_box d)) CAMERA_HEIGHT)
    as [[y1 ->] | [-> | ->]]; [| intros [= <- <-]; auto ..].
  destruct (labels_getitem_cases labels (class_id d)) as [[name ->] | ->];
    [| intros [= <- <-]; auto].
  destruct (annotate_objects l labels) as [t' [[] | e']] eqn:E; [discriminate |].
  intros [= <- <-]. apply (IH t' eq_refl).
Qed.

Lemma detect_objects_raise it th e :
  detect_objects it th = Raise e ->
  e = IndexError \/ e = ValueError \/ e = OverflowError.
Proof.
  unfold detect_objects.
  destruct (to_int_cases (output_count it)) as [(n & -> & _) | [(-> & _) | (-> & _)]];
    simpl; [| intros [= <-]; auto ..].
  intros H. left. apply (detect_objects_loop_raise _ _ _ _ _ H).
Qed.

Lemma findPoints_raise coordinates e :
  findPoints coordinates = Raise e -> e = ZeroDivisionError.
Proof.
  destruct coordinates as [| b rest]; [discriminate |].
  rewrite findPoints_cons.
  destruct (Float.is_zero (xmax b) || Float.is_zero (ymax b))%bool; congruence.
Qed.

Lemma findLabels_raise results labels e :
  findLabels results labels = Raise e -> e = KeyError.
Proof.
  destruct results as [| d l]; [discriminate |]. simpl.
  destruct (labels_getitem_cases labels (class_id d)) as [[name ->] | ->];
    simpl; congruence.
Qed.

(** How a frame ends. *)
Lemma main_frame_ends (labels : gmap Z string) (th : spec_float)
    (topic : string) (it : Interpreter) :
  (snd (main_frame labels th topic it) = Ok tt ->
   exists t p,
     fst (main_frame labels th topic it)
     = (t ++ [PrettyPrint p; MqttPublish topic (Json.dumps p) 1; Sleep 1])%list
     /\ published t = []
     /\ published (fst (main_frame labels th topic it)) = [Json.dumps p])
  /\ (forall e,
        snd (main_frame labels th topic it) = Raise e ->
        published (fst (main_frame labels th topic it)) = []
        /\ (e = IndexError \/ e = ValueError \/ e = OverflowError
            \/ e = KeyError \/ e = ZeroDivisionError)).
Proof.
  rewrite main_frame_run.
  destruct (detect_objects it th) as [results | e0] eqn:Ed.
  2: { split; [discriminate |]. intros e [= <-]. split; [reflexivity |].
       destruct (detect_objects_raise _ _ _ Ed) as [-> | [-> | ->]]; auto. }
  pose proof (annotate_objects_draws results labels) as Hdraw.
  destruct (annotate_objects results labels) as [t [[] | e0]] eqn:Ea.
  2: { split; [discriminate |]. intros e [= <-]. simpl in *.
       split; [apply published_draws, Hdraw |].
       destruct (annotate_objects_raise _ _ _ _ Ea) as [-> | [-> | ->]]; auto. }
  simpl in Hdraw. apply published_draws in Hdraw.
  destruct (findPoints (tolist (output_boxes it))) as [point | e0] eqn:Ep.
  2: { split; [discriminate |]. intros e [= <-].
       rewrite (findPoints_raise _ _ Ep). split; [| auto 6].
       cbn [fst]. change (published (AnnotatorClear :: ?x)) with (published x).
       rewrite published_app, Hdraw. reflexivity. }
  destruct (findLabels results labels) as [label | e0] eqn:El.
  2: { split; [discriminate |]. intros e [= <-].
       rewrite (findLabels_raise _ _ _ El). split; [| auto 6].
       cbn [fst]. change (published (AnnotatorClear :: ?x)) with (published x).
       rewrite published_app, Hdraw. reflexivity. }
  split; [| discriminate]. intros _.
  exists (AnnotatorClear :: t ++ [DrawLatency; AnnotatorUpdate])%list.
  eexists. cbn [fst]. split; [| split].
  - rewrite <- app_comm_cons, <- app_assoc. reflexivity.
  - change (published (AnnotatorClear :: ?x)) with (published x).
    rewrite published_app, Hdraw. reflexivity.
  - change (published (AnnotatorClear :: ?x)) with (published x).
    rewrite published_app, Hdraw. reflexivity.
Qed.

(** X14. A frame publishes at most once.  A frame that ends without an
    error has published exactly one message, the JSON text of its
    dictionary, on the topic of the command line with QoS 1, and then
    slept one second; a frame that ends with an error has published
    nothing, and its error is one of IndexError, ValueError,
    OverflowError, KeyError and ZeroDivisionError. *)
Theorem main_frame_outcome (labels : gmap Z string) (th : spec_float)
    (topic : string) (it : Interpreter) :
  (snd (main_frame labels th topic it) = Ok tt ->
   exists t p,
     fst (main_frame labels th topic it)
     = (t ++ [PrettyPrint p; MqttPublish topic (Json.dumps p) 1; Sleep 1])%list
     /\ published t = []
     /\ published (fst (main_frame labels th topic it)) = [Json.dumps p])
  /\ (forall e,
        snd (main_frame labels th topic it) = Raise e ->
        published (fst (main_frame labels th topic it)) = []
        /\ (e = IndexError \/ e = ValueError \/ e = OverflowError
            \/ e = KeyError \/ e = ZeroDivisionError)).
Proof. apply main_frame_ends. Qed.

Lemma main_frame_outcome_example :
  (exists t p,
     fst (main_frame Sample.table (Float.f64 4 (-1)) "home" Sample.mixed)
     = (t ++ [PrettyPrint p; MqttPublish "home" (Json.dumps p) 1; Sleep 1])%list
     /\ published t = []
     /\ published
          (fst (main_frame Sample.table (Float.f64 4 (-1)) "home" Sample.mixed))
        = [Json.dumps p])
  /\ published
       (fst (main_frame Sample.table (Float.f64 4 (-1)) "home" Sample.blank))
     = [].
Proof.
  split.
  - apply (main_frame_outcome Sample.table (Float.f64 4 (-1)) "home"
             Sample.mixed). reflexivity.
  - apply (proj2 (main_frame_outcome Sample.table (Float.f64 4 (-1)) "home"
                    Sample.blank) ZeroDivisionError). reflexivity.
Defined.

(** X15. The label of every detection of a frame has to exist, not only
    the one of the first: a frame with a detection whose class id has no
    label ends with an error in the overlay and publishes nothing. *)
Theorem main_frame_unlabelled (labels : gmap Z string) (th : spec_float)
    (topic : string) (it : Interpreter) (results : list Detection)
    (d : Detection) :
  detect_objects it th = Ok results ->
  d ∈ results ->
  labels_getitem labels (class_id d) = Raise KeyError ->
  exists t e,
    main_frame labels th topic it = (AnnotatorClear :: t, Raise e)
    /\ t = map Draw (drawn t)
    /\ published (fst (main_frame labels th topic it)) = []
    /\ (e = KeyError \/ e = ValueError \/ e = OverflowError).
Proof.
  intros Hd Hin Hl. rewrite main_frame_run, Hd.
  pose proof (annotate_objects_draws results labels) as Hdraw.
  destruct (annotate_objects results labels) as [t [[] | e]] eqn:Ea.
  - exfalso. destruct (annotate_objects_ok _ _ _ Ea) as (ds & _ & _ & Hov).
    apply list_elem_of_lookup in Hin as [i Hi].
    destruct (Forall2_lookup_l _ _ _ _ _ Hov Hi)
      as (bt & _ & (x0 & y0 & x1 & y1 & name & _ & _ & _ & _ & _ & Hn)).
    congruence.
  - exists t, e. simpl in Hdraw. split; [reflexivity |]. split.
    + clear -Hdraw. induction Hdraw as [| ev t [dr ->] _ IH]; [reflexivity |].
      simpl. f_equal. exact IH.
    + split; [apply (published_draws _ Hdraw) |].
      destruct (annotate_objects_raise _ _ _ _ Ea) as [-> | [-> | ->]]; auto.
Qed.

(** The second detection of the frame has the class id 7, which the
    table lacks. *)
Lemma main_frame_unlabelled_example :
  exists t e,
    main_frame Sample.table (Float.f64 4 (-1)) "home"
      (mkInterpreter [Sample.box1; Sample.box2]
         [Float.f32 1 0; Float.f32 7 0]
         [Float.f32 9 (-1); Float.f32 8 (-1)] (Float.f32 2 0))
    = (AnnotatorClear :: t, Raise e)
    /\ (e = KeyError \/ e = ValueError \/ e = OverflowError).
Proof.
  destruct (main_frame_unlabelled Sample.table (Float.f64 4 (-1)) "home"
              (mkInterpreter [Sample.box1; Sample.box2]
                 [Float.f32 1 0; Float.f32 7 0]
                 [Float.f32 9 (-1); Float.f32 8 (-1)] (Float.f32 2 0))
              [mkDetection Sample.box1 (Float.f32 1 0) (Float.f32 9 (-1));
               mkDetection Sample.box2 (Float.f32 7 0) (Float.f32 8 (-1))]
              (mkDetection Sample.box2 (Float.f32 7 0) (Float.f32 8 (-1))))
    as (t & e & H & _ & _ & He).
  - reflexivity.
  - apply list_elem_of_further, list_elem_of_here.
  - reflexivity.
  - exists t, e. auto.
Defined.

(** ** The loop over the frames *)

Lemma deliveries_app t1 t2 :
  deliveries (t1 ++ t2) = (deliveries t1 ++ deliveries t2)%list.
Proof. apply omap_app. Qed.

Lemma deliveries_none t : published t = [] -> deliveries t = [].
Proof.
  induction t as [| e t IH]; [reflexivity |].
  destruct e; simpl; try exact IH. discriminate.
Qed.

Lemma main_loop_cons labels th topic it frames :
  main_loop labels th topic (it :: frames)
  = match main_frame labels th topic it with
    | (t, Ok _) => let '(t', r) := main_loop labels th topic frames in
                   ((t ++ t')%list, r)
    | (t, Raise e) => (t, Raise e)
    end.
Proof. reflexivity. Qed.

(** X16. The loop publishes exactly one message for each frame up to the
    first frame that ends with an error and none from there on: the
    frames after a failing frame are not processed.  Every message goes
    to the topic of the command line with QoS 1, and the loop ends
    without an error exactly when every frame did. *)
Theorem main_loop_published (labels : gmap Z string) (th : spec_float)
    (topic : string) (frames : list Interpreter) :
  let k := leading (frame_ok labels th topic) frames in
  deliveries (fst (main_loop labels th topic frames)) = replicate k (topic, 1)
  /\ length (published (fst (main_loop labels th topic frames))) = k
  /\ (k = length frames <-> snd (main_loop labels th topic frames) = Ok tt).
Proof.
  induction frames as [| it frames IH];
    [cbn; split; [| split; [| split]]; reflexivity |].
  rewrite main_loop_cons. cbv zeta in *. cbn [leading].
  assert (Hfo : frame_ok labels th topic it
                = match snd (main_frame labels th topic it) with
                  | Ok _ => true
                  | Raise _ => false
                  end) by reflexivity.
  rewrite Hfo. clear Hfo.
  destruct (main_frame_ends labels th topic it) as [Hok Hraise].
  destruct (main_frame labels th topic it) as [t [[] | e]] eqn:Ef;
    cbn [fst snd] in *.
  - destruct (Hok eq_refl) as (t0 & p & -> & Ht0 & Hp).
    destruct IH as (IH1 & IH2 & IH3).
    destruct (main_loop labels th topic frames) as [t' r]. cbn [fst snd] in *.
    rewrite deliveries_app, published_app, length_app, IH1, IH2, Hp.
    rewrite deliveries_app, (deliveries_none _ Ht0). simpl.
    split; [reflexivity |]. split; [reflexivity |].
    rewrite <- IH3. lia.
  - destruct (Hraise e eq_refl) as [Hp _].
    rewrite Hp, (deliveries_none _ Hp). simpl.
    split; [reflexivity |]. split; [reflexivity |].
    split; [lia | discriminate].
Qed.

(** ** The camera *)

(** The camera stage: the opening, the loop, the stop of the preview. *)
Lemma main_camera_run (w : World) (args : Args)
    (labels : gmap Z string) :
  main_camera w args labels
  = ((CameraOpen 640 480 30
      :: fst (main_loop labels (threshold args) (topic args) (frames w))
      ++ [CameraStopPreview])%list,
     snd (main_loop labels (threshold args) (topic args) (frames w))).
Proof.
  unfold main_camera, finally, emit, bind.
  destruct (main_loop labels (threshold args) (topic args) (frames w))
    as [t r]. reflexivity.
Qed.

(** ** Runs of [main], stage by stage *)

Lemma main_run w args :
  main w args
  = match main_startup w args with
    | (t0, Raise e) => (t0, Raise e)
    | (t0, Ok labels) =>
        match main_validate args with
        | (t1, Raise e) => ((t0 ++ t1)%list, Raise e)
        | (t1, Ok _) =>
            match main_connect w args with
            | (t2, Raise e) => ((t0 ++ t1 ++ t2)%list, Raise e)
            | (t2, Ok _) =>
                ((t0 ++ t1 ++ t2 ++ fst (main_camera w args labels))%list,
                 snd (main_camera w args labels))
            end
        end
    end.
Proof.
  unfold main, bind.
  destruct (main_startup w args) as [t0 [labels | e]]; [| reflexivity].
  destruct (main_validate args) as [t1 [[] | e]]; [| reflexivity].
  destruct (main_connect w args) as [t2 [[] | e]]; [| reflexivity].
  destruct (main_camera w args labels) as [t3 r]. reflexivity.
Qed.

Lemma String_eqb_publish s :
  bool_decide (s ∈ AllowedActions) = String.eqb s "publish".
Proof.
  unfold AllowedActions. destruct (String.eqb s "publish") eqn:E.
  - apply String.eqb_eq in E as ->. apply bool_decide_eq_true_2.
    apply list_elem_of_singleton. reflexivity.
  - apply String.eqb_neq in E. apply bool_decide_eq_false_2.
    rewrite list_elem_of_singleton. exact E.
Qed.

(** What the checks let through, and what they turn down. *)
Lemma main_validate_cases args :
  (accepted args = true /\ main_validate args = ([], Ok tt))
  \/ (accepted args = false
      /\ exists msg,
           main_validate args = ([UsageError msg], Raise (SystemExit 2))).
Proof.
  unfold accepted, main_validate, main_check_mode, main_check_auth.
  rewrite String_eqb_publish.
  destruct (String.eqb (mode args) "publish"); simpl; [| right; eauto].
  destruct (useWebsocket args), (truthy_str (certificatePath args)),
    (truthy_str (privateKeyPath args)); simpl; eauto.
Qed.

(** X17. The checks of [main] on the arguments let through exactly the
    mode "publish" together with either web socket and not both a
    certificate and a key, or no web socket and both of them; so web
    socket with a certificate alone, or a key alone, passes.  Everything
    else ends with one usage error and the exit status 2. *)
Theorem main_validate_accepts (args : Args) :
  (accepted args = true <-> main_validate args = ([], Ok tt))
  /\ (accepted args = false <->
      exists msg, main_validate args = ([UsageError msg], Raise (SystemExit 2))).
Proof.
  destruct (main_validate_cases args) as [[Ha Hv] | [Ha (msg & Hv)]];
    rewrite Ha, Hv; split; split; intros H; try reflexivity; try discriminate;
    eauto.
  - destruct H as [m H]. discriminate.
Qed.

(** The connection stage: its trace, whether or not the endpoint is
    reached. *)
Lemma main_connect_run w args :
  main_connect w args
  = ([MqttClient "rpi-camera";
      MqttConfigureEndpoint (host args) (main_port args);
      MqttConfigureCredentials (rootCAPath args) (privateKeyPath args)
        (certificatePath args);
      MqttConfigureQueueing (-1); MqttConfigureDraining 2;
      MqttConfigureConnectTimeout 10; MqttConfigureOperationTimeout 5;
      Print "Initiating Realtime Data Transfer From Raspberry Pi...";
      MqttConnect],
     if reachable w then Ok tt else Raise IOError).
Proof.
  unfold main_connect. cbn -[main_port]. destruct (reachable w); reflexivity.
Qed.

Lemma main_port_cases args :
  exists p, main_port args = Some p /\ p <> 0
            /\ (truthy_int (port args) = true -> port args = Some p)
            /\ (truthy_int (port args) = false ->
                p = if useWebsocket args then 443 else 8883).
Proof.
  unfold main_port, truthy_int.
  destruct (port args) as [p |]; [destruct (Z.eqb_spec p 0) as [-> | Hp] |];
    destruct (useWebsocket args); simpl; eexists; repeat split;
    try reflexivity; try discriminate; try assumption.
Qed.

(** The loop over the frames only clears, draws, prints, publishes and
    sleeps. *)
Lemma main_frame_events labels th topic it :
  Forall (fun e => in_loop e = true) (fst (main_frame labels th topic it)).
Proof.
  rewrite main_frame_run.
  destruct (detect_objects it th) as [rs | e]; [| constructor].
  assert (Hd : Forall (fun e => in_loop e = true)
                 (fst (annotate_objects rs labels))).
  { eapply Forall_impl; [apply annotate_objects_draws |].
    intros e [d ->]. reflexivity. }
  destruct (annotate_objects rs labels) as [t [[] | e]]; cbn [fst] in *;
    [| constructor; [reflexivity | exact Hd]].
  destruct (findPoints (tolist (output_boxes it))) as [pt | e];
    [destruct (findLabels rs labels) as [lb | e] |]; cbn [fst];
    (constructor; [reflexivity |]); apply Forall_app; (split; [exact Hd |]);
    repeat (constructor; [reflexivity |]); constructor.
Qed.

Lemma main_loop_events labels th topic frames :
  Forall (fun e => in_loop e = true) (fst (main_loop labels th topic frames)).
Proof.
  induction frames as [| it frames IH]; [constructor |].
  rewrite main_loop_cons.
  pose proof (main_frame_events labels th topic it) as Hf.
  destruct (main_frame labels th topic it) as [t [[] | e]]; cbn [fst] in *;
    [| exact Hf].
  destruct (main_loop labels th topic frames) as [t' r]. cbn [fst] in *.
  apply Forall_app. split; assumption.
Qed.

(** X18. The endpoint is never configured without a port or with the
    port 0: whatever the command line gives, [main] hands
    [configureEndpoint] the host of the command line and an integer other
    than 0, which is the port of the command line if that is an integer
    other than 0, and else 443 with web socket and 8883 without. *)
Theorem main_port_definite (w : World) (args : Args) :
  exists p,
    main_port args = Some p /\ p <> 0
    /\ (truthy_int (port args) = true -> port args = Some p)
    /\ (truthy_int (port args) = false ->
        p = if useWebsocket args then 443 else 8883)
    /\ (forall h q, In (MqttConfigureEndpoint h q) (fst (main w args)) ->
                    h = host args /\ q = Some p).
Proof.
  destruct (main_port_cases args) as (p & Hp & Hne & Hgiven & Hdefault).
  exists p. do 4 (split; [assumption |]).
  intros h q. rewrite main_run.
  destruct (main_startup_cases w args)
    as [(e & _ & ->) | [(t & _ & _ & ->) | (t & _ & _ & ->)]].
  - simpl. intros [H | []]. discriminate.
  - simpl. intros [H | [H | []]]; discriminate.
  - destruct (main_validate_cases args) as [[_ ->] | [_ (msg & ->)]].
    + rewrite main_connect_run, Hp.
      destruct (reachable w); cbn [fst app].
      * intros [H | [H | [H | [[= <- <-] | H]]]]; try discriminate; [auto |].
        repeat (destruct H as [H | H]; [discriminate |]).
        rewrite main_camera_run in H. cbn [fst] in H.
        destruct H as [H | H]; [discriminate |].
        apply in_app_or in H as [H | [H | []]]; [| discriminate].
        pose proof (main_loop_events t (threshold args) (topic args) (frames w))
          as He.
        rewrite Forall_forall in He.
        specialize (He _ (proj2 (list_elem_of_In _ _) H)). discriminate.
      * intros [H | [H | [H | [[= <- <-] | H]]]]; try discriminate; [auto |].
        repeat (destruct H as [H | H]; [discriminate |]). destruct H.
    + simpl. intros [H | [H | [H | []]]]; discriminate.
Qed.

Lemma load_labels_raise fs path e :
  load_labels fs path = Raise e -> e = IOError \/ e = ValueError.
Proof.
  unfold load_labels. destruct (fs path) as [lines |].
  - intros H. right. apply (load_labels_loop_raise _ _ _ _ H).
  - intros [= <-]. left. reflexivity.
Qed.

(** X19. The label file and the model are loaded before the command line
    is checked: if the label file cannot be loaded, or the model cannot,
    [main] ends there with IOError or ValueError and the exit status 1,
    after at most the two loads; no usage error is reported and no
    connection is made, whatever the mode and the credentials. *)
Theorem main_startup_first (w : World) (args : Args) :
  (exists e, load_labels (files w) (labels args) = Raise e)
  \/ loadable w (model args) = false ->
  exists e,
    snd (main w args) = Raise e
    /\ (e = IOError \/ e = ValueError)
    /\ exit_status (snd (main w args)) = 1
    /\ (fst (main w args) = [ReadLabels (labels args)]
        \/ fst (main w args)
           = [ReadLabels (labels args); LoadModel (model args)]).
Proof.
  intros H. rewrite main_run.
  destruct (main_startup_cases w args)
    as [(e & Hl & ->) | [(t & Hl & Hm & ->) | (t & Hl & Hm & ->)]].
  - exists e. destruct (load_labels_raise _ _ _ Hl) as [-> | ->];
      cbn; auto 6.
  - exists ValueError. cbn. auto 6.
  - destruct H as [[e He] | H]; congruence.
Qed.

(** A command line with an unknown mode and no credentials, and no label
    file: the run ends at the first load. *)
Lemma main_startup_first_example :
  exit_status
    (snd (main (mkWorld (fun _ => None) (fun _ => true) true [])
            (Sample.with_auth (Sample.with_mode Sample.args "subscribe")
               false None None)))
  = 1.
Proof.
  destruct (main_startup_first
              (mkWorld (fun _ => None) (fun _ => true) true [])
              (Sample.with_auth (Sample.with_mode Sample.args "subscribe")
                 false None None))
    as (e & _ & _ & Hs & _).
  - left. exists IOError. reflexivity.
  - exact Hs.
Defined.

(** X20. Nothing of the network, the camera or the overlay is touched
    before the loads and the checks have passed: an event of that kind in
    a run of [main] means that the label file and the model were loaded
    and that the command line was accepted; and the camera and the
    overlay are only touched once the endpoint was reached. *)
Theorem main_guards (w : World) (args : Args) (ev : event) :
  In ev (fst (main w args)) ->
  opens_resource ev = true ->
  (exists table, load_labels (files w) (labels args) = Ok table)
  /\ loadable w (model args) = true
  /\ accepted args = true
  /\ ((in_loop ev = true \/ (exists a b c, ev = CameraOpen a b c)
       \/ ev = CameraStopPreview) ->
      reachable w = true).
Proof.
  rewrite main_run.
  destruct (main_startup_cases w args)
    as [(e & Hl & ->) | [(t & Hl & Hm & ->) | (t & Hl & Hm & ->)]].
  - intros [<- | []]; discriminate.
  - intros [<- | [<- | []]]; discriminate.
  - destruct (main_validate_cases args) as [[Ha ->] | [Ha (msg & ->)]].
    + rewrite main_connect_run. intros Hin Hr.
      split; [eauto |]. split; [assumption |]. split; [assumption |].
      destruct (reachable w); [reflexivity |].
      cbn [fst app] in Hin.
      repeat (destruct Hin as [<- | Hin];
              [intros [H | [(a & b & c & H) | H]]; discriminate |]).
      destruct Hin.
    + intros [<- | [<- | [<- | []]]]; discriminate.
Qed.

(** The connection attempt of a run with the sample command line. *)
Lemma main_guards_example :
  accepted Sample.args = true
  /\ load_labels (files (Sample.world [])) (labels Sample.args)
     = Ok Sample.table.
Proof.
  destruct (main_guards (Sample.world []) Sample.args MqttConnect)
    as ((table & Ht) & _ & Ha & _).
  - vm_compute. tauto.
  - reflexivity.
  - split; [exact Ha |]. vm_compute. reflexivity.
Defined.

(** X21. A run of [main] whose loads, checks and connection succeed is
    the two loads, the configuration of the client, the connection, the
    opening of the camera at 640 by 480 and 30 frames per second, the loop
    over the frames, and the stop of the preview: the preview is stopped
    last, once, whether the loop ends or fails, and an error of the loop
    is the error of the run. *)
Theorem main_camera_released (w : World) (args : Args)
    (table : gmap Z string) :
  load_labels (files w) (labels args) = Ok table ->
  loadable w (model args) = true ->
  accepted args = true ->
  reachable w = true ->
  let loop := main_loop table (threshold args) (topic args) (frames w) in
  main w args
  = (([ReadLabels (labels args); LoadModel (model args);
       MqttClient "rpi-camera";
       MqttConfigureEndpoint (host args) (main_port args);
       MqttConfigureCredentials (rootCAPath args) (privateKeyPath args)
         (certificatePath args);
       MqttConfigureQueueing (-1); MqttConfigureDraining 2;
       MqttConfigureConnectTimeout 10; MqttConfigureOperationTimeout 5;
       Print "Initiating Realtime Data Transfer From Raspberry Pi...";
       MqttConnect; CameraOpen 640 480 30]
      ++ fst loop ++ [CameraStopPreview])%list,
     snd loop)
  /\ last (fst (main w args)) = Some CameraStopPreview
  /\ Forall (fun e => e <> CameraStopPreview) (fst loop).
Proof.
  intros Hl Hm Ha Hr loop.
  assert (Hmain : main w args
                  = (([ReadLabels (labels args); LoadModel (model args);
       MqttClient "rpi-camera";
       MqttConfigureEndpoint (host args) (main_port args);
       MqttConfigureCredentials (rootCAPath args) (privateKeyPath args)
         (certificatePath args);
       MqttConfigureQueueing (-1); MqttConfigureDraining 2;
       MqttConfigureConnectTimeout 10; MqttConfigureOperationTimeout 5;
       Print "Initiating Realtime Data Transfer From Raspberry Pi...";
       MqttConnect; CameraOpen 640 480 30]
      ++ fst loop ++ [CameraStopPreview])%list, snd loop)).
  { rewrite main_run.
    destruct (main_startup_cases w args)
      as [(e & Hl' & _) | [(t & _ & Hm' & _) | (t & Hl' & _ & ->)]];
      [congruence | congruence |].
    assert (t = table) as -> by congruence.
    destruct (main_validate_cases args) as [[_ ->] | [Ha' _]];
      [| congruence].
    rewrite main_connect_run, Hr, main_camera_run. reflexivity. }
  split; [exact Hmain |]. split.
  - rewrite Hmain. cbn [fst].
    rewrite app_assoc. apply last_snoc.
  - eapply Forall_impl; [apply main_loop_events |].
    intros e He ->. discriminate.
Qed.

(** A run over one frame: the preview is stopped at the end. *)
Lemma main_camera_released_example :
  last (fst (main (Sample.world [Sample.faint]) Sample.args))
  = Some CameraStopPreview.
Proof.
  apply (main_camera_released (Sample.world [Sample.faint]) Sample.args
           Sample.table); vm_compute; reflexivity.
Defined.

(** X24. What a frame that ends without an error has published: the
    score is that of the first entry of the model output, among the first
    [count], whose score reaches the threshold, and the label is the
    label of its class; with no such entry both are None.  The point is
    the reduction of the first row of the boxes tensor, whether or not
    that row is a detection, and None when the tensor has no row. *)
Theorem main_frame_message (labels : gmap Z string) (th : spec_float)
    (topic : string) (it : Interpreter) :
  snd (main_frame labels th topic it) = Ok tt ->
  exists n label,
    Float.to_int (output_count it) = Ok n
    /\ match head (filtered_entries it th (Z.to_nat n)) with
       | Some d => exists name, labels_getitem labels (class_id d) = Ok name
                                /\ label = Some name
       | None => label = None
       end
    /\ published (fst (main_frame labels th topic it))
       = [Json.dumps
            (post (reduce_point <$> head (tolist (output_boxes it))) label
               (score <$> head (filtered_entries it th (Z.to_nat n))))].
Proof.
  rewrite main_frame_run.
  destruct (detect_objects it th) as [rs | e] eqn:Ed; [| discriminate].
  destruct (detect_objects_returns _ _ _ Ed) as (n & Hn & Hrs).
  pose proof (annotate_objects_draws rs labels) as Hdraw.
  destruct (annotate_objects rs labels) as [t [[] | e]]; [| discriminate].
  simpl in Hdraw. apply published_draws in Hdraw.
  destruct (findPoints (tolist (output_boxes it))) as [point | e] eqn:Ep;
    [| discriminate].
  destruct (findLabels rs labels) as [label | e] eqn:El; [| discriminate].
  intros _. exists n, label. split; [exact Hn |].
  rewrite <- Hrs.
  assert (Hpoint : point = reduce_point <$> head (tolist (output_boxes it))).
  { destruct (tolist (output_boxes it)) as [| b rest].
    - injection Ep as <-. reflexivity.
    - rewrite findPoints_cons in Ep.
      destruct (Float.is_zero (xmax b) || Float.is_zero (ymax b))%bool;
        [discriminate |].
      injection Ep as <-. reflexivity. }
  split.
  - destruct rs as [| d rs']; simpl in *; [congruence |].
    destruct (labels_getitem labels (class_id d)) as [name | e];
      [| discriminate].
    exists name. split; [reflexivity | simpl in El; congruence].
  - cbn [fst]. change (published (AnnotatorClear :: ?x)) with (published x).
    rewrite published_app, Hdraw, <- Hpoint.
    destruct rs; reflexivity.
Qed.

(** The frame of two entries of which the second is the detection. *)
Lemma main_frame_message_example :
  exists n label,
    Float.to_int (output_count Sample.mixed) = Ok n
    /\ match head (filtered_entries Sample.mixed (Float.f64 4 (-1))
                     (Z.to_nat n)) with
       | Some d => exists name,
                     labels_getitem Sample.table (class_id d) = Ok name
                     /\ label = Some name
       | None => label = None
       end
    /\ published
         (fst (main_frame Sample.table (Float.f64 4 (-1)) "home" Sample.mixed))
       = [Json.dumps
            (post (reduce_point <$> head (tolist (output_boxes Sample.mixed)))
               label
               (score <$> head (filtered_entries Sample.mixed
                                  (Float.f64 4 (-1)) (Z.to_nat n))))].
Proof.
  apply (main_frame_message Sample.table (Float.f64 4 (-1)) "home"
           Sample.mixed).
  reflexivity.
Defined.

(** ** The characters of the message *)

Lemma printable_append a b :
  printable (a +:+ b) = (printable a && printable b)%bool.
Proof.
  unfold printable. induction a as [| c a IH]; [reflexivity |].
  rewrite append_cons. simpl. rewrite IH, andb_assoc. reflexivity.
Qed.

Lemma printable_digit_char d :
  0 <= d < 10 -> Text.in_range 32 126 (Text.digit_char d) = true.
Proof.
  intros H.
  assert (d = 0 \/ d = 1 \/ d = 2 \/ d = 3 \/ d = 4 \/ d = 5 \/ d = 6
          \/ d = 7 \/ d = 8 \/ d = 9) as Hd by lia.
  repeat (destruct Hd as [-> | Hd]; [reflexivity |]). subst. reflexivity.
Qed.

Lemma printable_digits_from fuel n acc :
  printable acc = true -> printable (Text.digits_from fuel n acc) = true.
Proof.
  revert n acc. induction fuel as [| fuel IH]; intros n acc H; simpl;
    [exact H |].
  assert (H' : printable (String (Text.digit_char (n mod 10)) acc) = true).
  { unfold printable in *. simpl. rewrite H, andb_true_r.
    apply printable_digit_char. apply Z.mod_pos_bound. lia. }
  destruct (n <? 10); [exact H' | apply IH, H'].
Qed.

Lemma printable_digits n : printable (Text.digits n) = true.
Proof. apply printable_digits_from. reflexivity. Qed.

Lemma printable_rstrip_zeros s :
  printable s = true -> printable (Text.rstrip_zeros s) = true.
Proof.
  unfold printable. induction s as [| c s IH]; [reflexivity |].
  simpl. intros H. apply andb_true_iff in H as [Hc Hs].
  specialize (IH Hs). destruct (Text.rstrip_zeros s) as [| c' r].
  - destruct (Ascii.eqb c "0"); [reflexivity |]. simpl. rewrite Hc. reflexivity.
  - change (Text.forallb_str (Text.in_range 32 126) (String c (String c' r)))
      with (Text.in_range 32 126 c
            && Text.forallb_str (Text.in_range 32 126) (String c' r))%bool.
    rewrite Hc, IH. reflexivity.
Qed.

Lemma printable_replicate n c :
  Text.in_range 32 126 c = true -> printable (Text.replicate n c) = true.
Proof.
  intros H. unfold printable. induction n as [| n IH]; [reflexivity |].
  simpl. rewrite H, IH. reflexivity.
Qed.

Lemma printable_substring a n s :
  printable s = true -> printable (substring a n s) = true.
Proof.
  unfold printable. revert a n. induction s as [| c s IH]; intros a n H.
  - destruct a, n; reflexivity.
  - simpl in H. apply andb_true_iff in H as [Hc Hs].
    destruct a as [| a]; simpl.
    + destruct n as [| n]; [reflexivity |]. simpl.
      rewrite Hc. apply (IH 0%nat n Hs).
    + apply IH, Hs.
Qed.

Lemma printable_layout ds decpt :
  printable ds = true -> printable (Float.layout ds decpt) = true.
Proof.
  intros H. unfold Float.layout.
  destruct ((decpt <=? -4) || (16 <? decpt))%bool.
  - destruct ds as [| c rest]; [reflexivity |].
    unfold printable in H. simpl in H. apply andb_true_iff in H as [Hc Hr].
    rewrite !printable_append, printable_digits.
    assert (H1 : printable
                   (String c match rest with
                             | EmptyString => EmptyString
                             | String _ _ => "." +:+ rest
                             end) = true).
    { unfold printable. simpl. rewrite Hc. destruct rest; [reflexivity |].
      fold (printable ("." +:+ String a rest)).
      rewrite printable_append. unfold printable at 2. rewrite Hr.
      reflexivity. }
    rewrite H1. destruct (decpt - 1 <? 0), (Z.abs (decpt - 1) <? 10);
      reflexivity.
  - destruct (decpt <=? 0).
    + rewrite !printable_append, H, printable_replicate by reflexivity.
      reflexivity.
    + destruct (Z.of_nat (String.length ds) <=? decpt).
      * rewrite !printable_append, H, printable_replicate by reflexivity.
        reflexivity.
      * rewrite !printable_append, !printable_substring by exact H.
        reflexivity.
Qed.

Lemma printable_repr prec emax max_digits x :
  printable (Float.repr prec emax max_digits x) = true.
Proof.
  destruct x as [s | s | | s m e]; simpl.
  - destruct s; reflexivity.
  - destruct s; reflexivity.
  - reflexivity.
  - destruct (Float.shortest prec emax max_digits m e) as [d k].
    rewrite printable_append, printable_layout.
    + destruct s; reflexivity.
    + apply printable_rstrip_zeros, printable_digits.
Qed.

Lemma printable_number_text x : printable (Json.number_text x) = true.
Proof.
  destruct x as [s | s | | s m e]; try destruct s; try reflexivity;
    apply printable_repr.
Qed.

Lemma printable_escape_char c : printable (Json.escape_char c) = true.
Proof. destruct c as [[] [] [] [] [] [] [] []]; reflexivity. Qed.

Lemma printable_quote s : printable (Json.quote s) = true.
Proof.
  unfold Json.quote.
  change (String Json.dquote (Json.escape s +:+ String Json.dquote EmptyString))
    with (String Json.dquote EmptyString
          +:+ (Json.escape s +:+ String Json.dquote EmptyString)).
  rewrite !printable_append.
  replace (printable (Json.escape s)) with true; [reflexivity |].
  symmetry. induction s as [| c s IH]; [reflexivity |].
  change (Json.escape (String c s)) with (Json.escape_char c +:+ Json.escape s).
  rewrite printable_append, printable_escape_char, IH. reflexivity.
Qed.

Lemma printable_join sep l :
  printable sep = true -> Forall (fun s => printable s = true) l ->
  printable (Json.join sep l) = true.
Proof.
  intros Hs H. induction H as [| x l Hx Hl IH]; [reflexivity |].
  destruct l as [| y l]; [exact Hx |].
  change (Json.join sep (x :: y :: l)) with (x +:+ sep +:+ Json.join sep (y :: l)).
  rewrite !printable_append, Hx, Hs, IH. reflexivity.
Qed.

(** X22. The message of a frame is printable ASCII, whatever the point,
    the label and the score are: [json.dumps] writes every character of
    the label that is not printable ASCII, and the quote and the
    backslash, as an escape, and the text of a number has none.  In
    particular the message has no line break. *)
Theorem post_printable (point : option (list spec_float))
    (label : option string) (score : option spec_float) :
  printable (Json.dumps (post point label score)) = true
  /\ single_line (Json.dumps (post point label score)) = true.
Proof.
  assert (H : printable (Json.dumps (post point label score)) = true).
  { assert (Hp : printable
                   (Json.dumps match point with
                               | Some p => Json.List (map Json.Number p)
                               | None => Json.Null
                               end) = true).
    { destruct point as [p |]; [| reflexivity].
      cbn [Json.dumps]. rewrite !printable_append, printable_join;
        [reflexivity | reflexivity |].
      induction p as [| x p IH]; constructor; [| exact IH].
      apply printable_number_text. }
    unfold post. cbn [Json.dumps List.map Json.join].
    rewrite !printable_append, !printable_quote, Hp. reflexivity. }
  split; [exact H |].
  revert H. unfold printable, single_line.
  generalize (Json.dumps (post point label score)). intros s.
  induction s as [| c s IH]; [reflexivity |]. simpl.
  intros Hc. apply andb_true_iff in Hc as [Hc Hs]. rewrite (IH Hs), andb_true_r.
  revert Hc. destruct c as [[] [] [] [] [] [] [] []]; vm_compute; congruence.
Qed.

(** X23. The message of a frame without a row of boxes, whose coordinates
    are None, is read back by [json.loads] as the dictionary that was
    sent, for every label and score: the coordinates come back as null,
    and the label comes back character for character, whatever it
    contains. *)
Theorem post_none_roundtrip (label : option string)
    (score : option spec_float) :
  Json.loads (Json.dumps (post None label score))
  = Some (Json.Dict [("Sensor Name", Json.Str "CameraPi");
                     ("Score", Json.Str (str_score score));
                     ("Coordinates", Json.Null);
                     ("Class_ID", Json.Str (str_label label))]).
Proof.
  unfold Json.loads.
  destruct (post_text_length None label score) as [n ->].
  unfold post. cbn [Json.dumps List.map map Json.join].
  push_append.
  change (Json.skip_ws (String "{" ?T)) with (String "{" T).
  rewrite parse_value_object.
  erewrite parse_members_more
    by first [apply parse_value_quote_value | apply skip_ws_quote].
  rewrite skip_ws_space, skip_ws_quote.
  erewrite parse_members_more
    by first [apply parse_value_quote_value | apply skip_ws_quote].
  rewrite skip_ws_space, skip_ws_quote.
  erewrite parse_members_more
    by first [apply (parse_value_atom _ "null" Json.Null); reflexivity
             | reflexivity].
  rewrite skip_ws_space, skip_ws_quote.
  erewrite parse_members_last
    by first [apply parse_value_quote_value | apply skip_ws_quote].
  reflexivity.
Qed.
